(** * feast/repo_operations.py: the discovery / diff / apply loop

    A shallow embedding of [sdk/python/feast/repo_operations.py] and the
    properties of it that the repository's specification relies on.

    Conventions of the embedding:
    - a Python [str] is a [string]; an [ascii] is read as the code point
      0..255 it encodes;
    - a [pathlib.Path] is the list of its parts;
    - the sets of a [ParsedRepo] and the sets that the tagging functions
      return are mutable objects that several names may hold: each lives
      in a store, at a location, and a name holds the location.  Two
      names that hold the same location see each other's updates.  A set
      that stays inside one function is a plain finite set;
    - what the module calls but does not define (the file system, the
      module loader, the registry, the feature store) is a parameter, and
      the calls made on it are recorded in a trace;
    - an exception of the interpreter or of a library that no line of
      the module raises or catches (an I/O error, a pattern that
      [pathlib] refuses) is outside the embedding, except where the run
      of [apply_total] depends on it: a failed import, a failed
      validation, a failed apply. *)

From Stdlib Require Import ZArith String Ascii List Bool Lia.
From stdpp Require Import base option list sorting gmap sets strings.

Local Open Scope string_scope.
Local Open Scope Z_scope.

(** ** Python strings *)

Module PyStr.

Definition code (c : ascii) : N := N_of_ascii c.

(** [str.isspace] on one character, the white space of [strip]: the
    ASCII controls 9-13 and 28-31, the space, NEL and the no-break
    space. *)
Definition isspace (c : ascii) : bool :=
  let n := code c in
  ((9 <=? n) && (n <=? 13) || (28 <=? n) && (n <=? 32)
   || (n =? 133) || (n =? 160))%N.

(** The class [\w] of [re] on a [str] pattern: alphanumeric code points
    and the underscore.  Above 127 these are the letters and the numbers
    of Latin-1, as the Unicode tables of Python have them. *)
Definition is_word (c : ascii) : bool :=
  let n := code c in
  ((48 <=? n) && (n <=? 57) || (65 <=? n) && (n <=? 90) || (n =? 95)
   || (97 <=? n) && (n <=? 122)
   || (n =? 170) || (n =? 178) || (n =? 179) || (n =? 181)
   || (n =? 185) || (n =? 186) || (188 <=? n) && (n <=? 190)
   || (192 <=? n) && (n <=? 214) || (216 <=? n) && (n <=? 246)
   || (248 <=? n) && (n <=? 255))%N.

Definition is_empty (s : string) : bool :=
  match s with EmptyString => true | String _ _ => false end.

Fixpoint lstrip (s : string) : string :=
  match s with
  | EmptyString => EmptyString
  | String c s' => if isspace c then lstrip s' else s
  end.

Fixpoint rstrip (s : string) : string :=
  match s with
  | EmptyString => EmptyString
  | String c s' =>
      let r := rstrip s' in
      if is_empty r && isspace c then EmptyString else String c r
  end.

(** [s.strip()] *)
Definition strip (s : string) : string := rstrip (lstrip s).

(** [s.find(c)] for a one-character needle: the least index, or -1. *)
Fixpoint find (c : ascii) (s : string) : Z :=
  match s with
  | EmptyString => -1
  | String d s' =>
      if Ascii.eqb d c then 0
      else let i := find c s' in if i <? 0 then -1 else i + 1
  end.

Fixpoint take (n : nat) (s : string) : string :=
  match n, s with
  | S n', String c s' => String c (take n' s')
  | _, _ => EmptyString
  end.

(** [s[:i]], with Python's reading of a negative bound. *)
Definition slice_to (i : Z) (s : string) : string :=
  if i <? 0 then take (Z.to_nat (Z.of_nat (String.length s) + i)) s
  else take (Z.to_nat i) s.

(** [s.split(sep)] for a one-character separator (never empty). *)
Fixpoint split (sep : ascii) (s : string) : list string :=
  match s with
  | EmptyString => [EmptyString]
  | String c s' =>
      if Ascii.eqb c sep then EmptyString :: split sep s'
      else match split sep s' with
           | [] => [String c EmptyString]
           | w :: ws => String c w :: ws
           end
  end.

(** [s.replace(old, new)] for a non-empty [old]: the occurrences are
    replaced from the left and do not overlap.  [skip] counts the
    characters of a replaced occurrence still to be passed over. *)
Fixpoint replace_from (skip : nat) (old new s : string) : string :=
  match s with
  | EmptyString => EmptyString
  | String c s' =>
      match skip with
      | S k => replace_from k old new s'
      | O =>
          if String.prefix old s
          then new ++ replace_from (String.length old - 1) old new s'
          else String c (replace_from O old new s')
      end
  end.

Definition replace (old new s : string) : string := replace_from O old new s.

(** [s.startswith(p)] *)
Definition startswith (p s : string) : bool := String.prefix p s.

(** Length of the longest prefix made of non-word characters. *)
Fixpoint span_nonword (s : string) : nat :=
  match s with
  | EmptyString => O
  | String c s' => if is_word c then O else S (span_nonword s')
  end.

(** [re.compile(r"\W+").search(s)]: the span of the leftmost match
    ([+] is greedy), or [None].  [pos] is the index of the head of [s]
    in the searched string. *)
Fixpoint search_W_plus_from (pos : nat) (s : string) : option (nat * nat) :=
  match s with
  | EmptyString => None
  | String c s' =>
      if is_word c then search_W_plus_from (S pos) s'
      else Some (pos, (pos + span_nonword s)%nat)
  end.

Definition search_W_plus (s : string) : option (nat * nat) :=
  search_W_plus_from O s.

Fixpoint forallb (p : ascii -> bool) (s : string) : bool :=
  match s with
  | EmptyString => true
  | String c s' => p c && forallb p s'
  end.

End PyStr.

(** ** The naming rule *)

(** [is_valid_name], line 430. *)
Definition is_valid_name (name : string) : bool :=
  negb (PyStr.startswith "_" name)
  && bool_decide (PyStr.search_W_plus name = None).

(** ** Paths *)

(** Lexicographic comparison of lists, the order of Python sequences. *)
Fixpoint lex_compare {A : Type} (cmp : A -> A -> comparison) (l1 l2 : list A)
  : comparison :=
  match l1, l2 with
  | [], [] => Eq
  | [], _ :: _ => Lt
  | _ :: _, [] => Gt
  | x :: l1', y :: l2' =>
      match cmp x y with
      | Eq => lex_compare cmp l1' l2'
      | c => c
      end
  end.

(** A [pathlib.Path], as the list of its parts ([Path.parts]). *)
Abbreviation Path := (list string).

(** [p / name] *)
Definition path_join (p : Path) (name : string) : Path := p ++ [name].

(** [p.is_absolute()]: the first part is a root, [/] or [//]. *)
Definition is_absolute (p : Path) : bool :=
  match p with
  | r :: _ => PyStr.startswith "/" r
  | [] => false
  end.

(** The parts of [p] after those of [base], when [p] begins with
    them. *)
Fixpoint parts_below (p base : Path) : option Path :=
  match base, p with
  | [], _ => Some p
  | b :: base', x :: p' => if String.eqb b x then parts_below p' base' else None
  | _ :: _, [] => None
  end.

(** [p.relative_to(base)]: the parts of [p] below [base], or [None]
    where Python raises [ValueError]: when [p] does not begin with the
    parts of [base], and, for the base without parts, [Path(".")], when
    [p] is absolute. *)
Definition relative_to (p base : Path) : option Path :=
  match base with
  | [] => if is_absolute p then None else Some p
  | _ :: _ => parts_below p base
  end.

(** [str(p)] for a relative path. *)
Definition path_str (p : Path) : string :=
  match p with
  | [] => "."
  | _ => String.concat "/" p
  end.

(** Paths compare as their lists of parts, parts as strings. *)
Definition path_compare : Path -> Path -> comparison := lex_compare String.compare.

Definition path_leb (p q : Path) : bool :=
  match path_compare p q with Gt => false | _ => true end.

Definition path_le (p q : Path) : Prop := path_leb p q = true.
Definition path_lt (p q : Path) : Prop := path_compare p q = Lt.

Global Instance path_le_dec (p q : Path) : Decision (path_le p q) :=
  decide (path_leb p q = true).

(** [sorted(s)] for a set of paths: the elements in increasing order. *)
Definition sorted (s : gset Path) : list Path := merge_sort path_le (elements s).

(** ** The file system *)

(** What the module asks of [pathlib]. *)
Record FileSystem := {
  (** [base.glob(pattern)], the matches in the order they are produced *)
  glob : Path -> string -> list Path;
  (** [p.is_file()] *)
  is_file : Path -> bool;
  (** [p.resolve()], the canonical absolute path *)
  resolve : Path -> Path;
  (** [p.read_text()] *)
  read_text : Path -> string
}.

Definition newline : ascii := "010"%char.
Definition hash : ascii := "#"%char.

Section Scan.
Variable fs : FileSystem.

(** One turn of the loop of [read_feastignore], lines 51-59. *)
Definition feastignore_line (ignore_paths : list string) (line : string)
  : list string :=
  let line :=
    if PyStr.find hash line >=? 0
    then PyStr.slice_to (PyStr.find hash line) line
    else line in
  let line := PyStr.strip line in
  if Z.of_nat (String.length line) >? 0
  then ignore_paths ++ [line]
  else ignore_paths.

(** [read_feastignore], line 44. *)
Definition read_feastignore (repo_root : Path) : list string :=
  let feast_ignore := path_join repo_root ".feastignore" in
  if negb (is_file fs feast_ignore) then []
  else
    let lines := PyStr.split newline (PyStr.strip (read_text fs feast_ignore)) in
    fold_left feastignore_line lines [].

(** The set comprehension [{p.resolve() for p in base.glob("**/*.py")
    if p.is_file()}] of lines 74-78 and 89. *)
Definition py_files_under (base : Path) : gset Path :=
  list_to_set (resolve fs <$> filter (fun p => is_file fs p = true)
                                     (glob fs base "**/*.py")).

(** The body of the inner loop of [get_ignore_files], lines 69-78. *)
Definition ignore_match (ignore_files : gset Path) (matched_path : Path)
  : gset Path :=
  if is_file fs matched_path
  then ignore_files ∪ {[ resolve fs matched_path ]}
  else ignore_files ∪ py_files_under matched_path.

(** [get_ignore_files], line 63. *)
Definition get_ignore_files (repo_root : Path) (ignore_paths : list string)
  : gset Path :=
  fold_left
    (fun ignore_files ignore_path =>
       fold_left ignore_match (glob fs repo_root ignore_path) ignore_files)
    ignore_paths ∅.

(** [get_repo_files], line 82. *)
Definition get_repo_files (repo_root : Path) : list Path :=
  let ignore_paths := read_feastignore repo_root in
  let ignore_files := get_ignore_files repo_root ignore_paths in
  let repo_files := py_files_under repo_root in
  let repo_files := repo_files ∖ ignore_files in
  sorted repo_files.

End Scan.

(** ** A file system given by its table of entries

    A finite tree without links, as the table of its paths.  It supplies
    concrete file systems for the scenarios below. *)

Module TableFS.

(** An entry is a directory ([None]) or a regular file with its text. *)
Definition table := list (Path * option string).

Definition star : ascii := "*"%char.
Definition qmark : ascii := "?"%char.

(** [fnmatch] for patterns made of literals, [?] and [*]. *)
Fixpoint fnmatch (pat s : string) : bool :=
  match pat with
  | EmptyString => PyStr.is_empty s
  | String c pat' =>
      if Ascii.eqb c star then
        (fix skip (s : string) : bool :=
           fnmatch pat' s
           || match s with
              | EmptyString => false
              | String _ s' => skip s'
              end) s
      else
        match s with
        | EmptyString => false
        | String d s' => (Ascii.eqb c qmark || Ascii.eqb c d) && fnmatch pat' s'
        end
  end.

(** Does the relative path [rel] match the pattern parts [pats]?  A part
    [**] stands for any number of directories. *)
Fixpoint match_parts (pats : list string) (rel : list string) : bool :=
  match pats with
  | [] => bool_decide (rel = [])
  | p :: pats' =>
      if String.eqb p "**" then
        (fix descend (rel : list string) : bool :=
           match_parts pats' rel
           || match rel with
              | [] => false
              | _ :: rel' => descend rel'
              end) rel
      else
        match rel with
        | [] => false
        | x :: rel' => fnmatch p x && match_parts pats' rel'
        end
  end.

Definition slash : ascii := "/"%char.

(** The parts of a relative pattern. *)
Definition pattern_parts (pattern : string) : list string :=
  filter (fun p => p <> EmptyString) (PyStr.split slash pattern).

Definition lookup (t : table) (p : Path) : option (option string) :=
  snd <$> List.find (fun e => bool_decide (fst e = p)) t.

Definition ends_recursive (pats : list string) : bool :=
  String.eqb (List.last pats EmptyString) "**".

(** Does [base.glob] with the pattern parts [pats] yield the entry [e]?
    Its path below [base] has to match; a pattern that ends in [**]
    yields directories only. *)
Definition selects (pats : list string) (base : Path)
           (e : Path * option string) : bool :=
  match relative_to (fst e) base with
  | Some rel =>
      match_parts pats rel
      && (negb (ends_recursive pats) || bool_decide (snd e = None))
  | None => false
  end.

(** [base.glob(pattern)]: the selected entries, in the order of the
    table. *)
Definition tglob (t : table) (base : Path) (pattern : string) : list Path :=
  let pats := pattern_parts pattern in
  fst <$> filter (fun e => selects pats base e = true) t.

Definition fs_of (t : table) : FileSystem :=
  {| glob := tglob t;
     is_file := fun p =>
       match lookup t p with Some (Some _) => true | _ => false end;
     resolve := fun p => p;
     read_text := fun p =>
       match lookup t p with Some (Some txt) => txt | _ => EmptyString end |}.

End TableFS.

(** The repository of the scenario: an ignore file that lists
    [generated/**], one definition file inside [generated] and one at
    the root. *)
Definition scenario_root : Path := ["/"; "repo"].

Definition scenario_table : TableFS.table :=
  [ (["/"; "repo"], None);
    (["/"; "repo"; ".feastignore"], Some "generated/**
");
    (["/"; "repo"; "generated"], None);
    (["/"; "repo"; "generated"; "foo.py"], Some "");
    (["/"; "repo"; "features.py"], Some "") ].

Definition scenario_fs : FileSystem := TableFS.fs_of scenario_table.

(** A repository with nested directories and an ignore file with
    comments and blank lines. *)
Definition nested_table : TableFS.table :=
  [ (["/"; "repo"], None);
    (["/"; "repo"; ".feastignore"],
     Some "# generated code
venv/**   # the virtual environment

scratch.py
missing/*
");
    (["/"; "repo"; "venv"], None);
    (["/"; "repo"; "venv"; "a.py"], Some "");
    (["/"; "repo"; "venv"; "lib"], None);
    (["/"; "repo"; "venv"; "lib"; "b.py"], Some "");
    (["/"; "repo"; "venv"; "lib"; "notes.txt"], Some "");
    (["/"; "repo"; "scratch.py"], Some "");
    (["/"; "repo"; "driver.py"], Some "") ].

Definition nested_fs : FileSystem := TableFS.fs_of nested_table.

(** ** The ignore file, as the specification words it *)

(** The text of a line before its first [#]. *)
Fixpoint before_hash (line : string) : string :=
  match line with
  | EmptyString => EmptyString
  | String c rest =>
      if Ascii.eqb c hash then EmptyString else String c (before_hash rest)
  end.

(** The pattern a line of the ignore file stands for, if any: the comment
    is dropped, then the white space around; a line left blank stands
    for nothing. *)
Definition pattern_of_line (line : string) : option string :=
  let p := PyStr.strip (before_hash line) in
  if PyStr.is_empty p then None else Some p.

(** The files that one match of a pattern excludes. *)
Definition excluded_by_match (fs : FileSystem) (matched_path : Path) : gset Path :=
  if is_file fs matched_path then {[ resolve fs matched_path ]}
  else py_files_under fs matched_path.

(** The naming rule in words: no leading underscore, and only
    alphanumeric characters and underscores. *)
Definition naming_rule (name : string) : bool :=
  negb (PyStr.startswith "_" name) && PyStr.forallb PyStr.is_word name.

(** ** Objects *)

(** The six classes that discovery tests with [isinstance]. *)
Inductive Class :=
  | FeatureTable | FeatureView | Entity | FeatureService
  | OnDemandFeatureView | RequestFeatureView.

Global Instance Class_eq_dec : EqDecision Class.
Proof. solve_decision. Defined.

Definition Class_to_nat (c : Class) : nat :=
  match c with
  | FeatureTable => 0 | FeatureView => 1 | Entity => 2 | FeatureService => 3
  | OnDemandFeatureView => 4 | RequestFeatureView => 5
  end.

Definition Class_of_nat (n : nat) : option Class :=
  match n with
  | 0 => Some FeatureTable | 1 => Some FeatureView | 2 => Some Entity
  | 3 => Some FeatureService | 4 => Some OnDemandFeatureView
  | 5 => Some RequestFeatureView | _ => None
  end%nat.

Global Program Instance Class_countable : Countable Class :=
  inj_countable Class_to_nat Class_of_nat _.
Next Obligation. now intros []. Qed.

(** A Python value met by the module: its identity, its [name] attribute
    and the classes among the six it is an instance of (none for a value
    that is no declared object).  Values with different identities are
    different members of a [set]. *)
Record Obj := {
  obj_id : positive;
  name : string;
  classes : list Class
}.

Global Instance Obj_eq_dec : EqDecision Obj.
Proof. solve_decision. Defined.

Global Program Instance Obj_countable : Countable Obj :=
  inj_countable (fun o => (obj_id o, name o, classes o))
                (fun t => Some {| obj_id := t.1.1; name := t.1.2; classes := t.2 |}) _.
Next Obligation. now intros []. Qed.

(** [isinstance(obj, C)] *)
Definition isinstance (obj : Obj) (C : Class) : bool :=
  bool_decide (C ∈ classes obj).

(** ** The store of sets, and the calls made on collaborators *)

Abbreviation loc := positive.

(** The kinds of listing a registry answers. *)
Inductive Listing :=
  | ListEntities | ListFeatureViews | ListOnDemandFeatureViews
  | ListFeatureTables | ListFeatureServices.

(** What a run does to the world outside the module, in order. *)
Inductive Event :=
  | EvChdir (p : Path)                        (* [os.chdir] *)
  | EvFeatureStore                            (* [FeatureStore(config=...)] *)
  | EvPrint (line : string)                   (* [print] *)
  | EvInitializeRegistry                      (* [registry._initialize_registry()] *)
  | EvDontWriteBytecode (b : bool)            (* [sys.dont_write_bytecode = b] *)
  | EvImport (module_path : string)           (* [importlib.import_module] *)
  | EvValidate (view : Obj)                   (* [view.batch_source.validate] *)
  | EvList (l : Listing) (project : string)   (* [registry.list_...(project=...)] *)
  | EvApply (objects objects_to_delete : list Obj) (partial : bool)
                                              (* [store.apply] *)
  | EvEcho (line : string).                   (* [click.echo] *)

Record World := {
  heap : gmap loc (gset Obj);
  trace : list Event
}.

Inductive Exn :=
  | ValueError            (* [relative_to]: the file is not under the root *)
  | ImportFailure         (* the module raised while it was imported *)
  | ValidationFailure     (* [validate] raised *)
  | ApplyFailure.         (* [store.apply] raised *)

Inductive Outcome (A : Type) :=
  | Return (a : A)
  | SysExit (code : Z)
  | Raise (e : Exn).
Arguments Return {A} a.
Arguments SysExit {A} code.
Arguments Raise {A} e.

(** Computations: they read and update the world and return, exit or
    raise. *)
Definition M (A : Type) : Type := World -> Outcome A * World.

Definition ret {A} (a : A) : M A := fun w => (Return a, w).

Definition bind {A B} (m : M A) (k : A -> M B) : M B :=
  fun w =>
    match m w with
    | (Return a, w') => k a w'
    | (SysExit c, w') => (SysExit c, w')
    | (Raise e, w') => (Raise e, w')
    end.

Declare Scope py_scope.
Delimit Scope py_scope with py.
Notation "'let!' x ':=' m 'in' k" := (bind m (fun x => k))
  (at level 10, x pattern, m at level 200, k at level 200) : py_scope.
Notation "m ;;; k" := (bind m (fun _ => k))
  (at level 100, k at level 200, right associativity) : py_scope.
Local Open Scope py_scope.

Definition sys_exit {A} (code : Z) : M A := fun w => (SysExit code, w).
Definition raise {A} (e : Exn) : M A := fun w => (Raise e, w).

Definition emit (ev : Event) : M unit :=
  fun w => (Return tt, {| heap := heap w; trace := trace w ++ [ev] |}).

(** The members of the set at [l]. *)
Definition members (h : gmap loc (gset Obj)) (l : loc) : gset Obj :=
  default ∅ (h !! l).

(** [set()]: a new, empty set. *)
Definition new_set : M loc :=
  fun w =>
    let l := fresh (dom (heap w)) in
    (Return l, {| heap := <[l := ∅]> (heap w); trace := trace w |}).

(** Reading a set, as iteration and comprehensions do. *)
Definition read_set (l : loc) : M (gset Obj) :=
  fun w => (Return (members (heap w) l), w).

(** [s.add(x)] *)
Definition set_add (l : loc) (x : Obj) : M unit :=
  fun w =>
    (Return tt,
     {| heap := <[l := members (heap w) l ∪ {[x]}]> (heap w);
        trace := trace w |}).

(** [for x in xs: body(x)] *)
Fixpoint for_each {A} (xs : list A) (body : A -> M unit) : M unit :=
  match xs with
  | [] => ret tt
  | x :: xs' => body x ;;; for_each xs' body
  end.

(** [if c: body] *)
Definition when (c : bool) (body : M unit) : M unit :=
  if c then body else ret tt.

(** ** The parsed repository *)

(** [ParsedRepo], line 35: one set per kind. *)
Record ParsedRepo := {
  feature_tables : loc;
  feature_views : loc;
  on_demand_feature_views : loc;
  request_feature_views : loc;
  entities : loc;
  feature_services : loc
}.

(** ** Collaborators *)

(** [feast.registry.Registry], as far as the module uses it. *)
Record Registry := {
  list_entities : string -> list Obj;
  list_feature_views : string -> list Obj;
  list_on_demand_feature_views : string -> list Obj;
  list_feature_tables : string -> list Obj;
  list_feature_services : string -> list Obj
}.

(** [feast.feature_store.FeatureStore], as far as the module uses it. *)
Record FeatureStore := {
  project : string;
  registry : Registry;
  (** does [view.batch_source.validate(store.config)] return? *)
  source_validates : Obj -> bool;
  (** does [store.apply(objects, objects_to_delete, partial)] return? *)
  apply_returns : list Obj -> list Obj -> bool -> bool
}.

(** The interpreter and the libraries around the module. *)
Record Runtime (RepoConfig : Type) := {
  rt_fs : FileSystem;
  (** [importlib.import_module(m)] followed by [dir] and [getattr]: the
      values bound at the top level of the module, in the order of
      [dir]; [None] when the import raises. *)
  import_module : string -> option (list Obj);
  (** [FeatureStore(config=repo_config)] *)
  new_FeatureStore : RepoConfig -> FeatureStore
}.
Arguments rt_fs {RepoConfig} _.
Arguments import_module {RepoConfig} _ _.
Arguments new_FeatureStore {RepoConfig} _ _.

(** ** Discovery *)

(** [py_path_to_module], line 27. *)
Definition py_path_to_module (path repo_root : Path) : option string :=
  rel ← relative_to path repo_root;
  Some (PyStr.replace "/" "."
          (PyStr.replace "./" "" (PyStr.slice_to (- Z.of_nat (String.length ".py"))
                                                 (path_str rel)))).

(** The body of the loop over the values of a module, lines 113-124. *)
Definition record_object (res : ParsedRepo) (obj : Obj) : M unit :=
  when (isinstance obj FeatureTable) (set_add (feature_tables res) obj);;;
  if isinstance obj FeatureView then set_add (feature_views res) obj
  else if isinstance obj Entity then set_add (entities res) obj
  else if isinstance obj FeatureService then set_add (feature_services res) obj
  else if isinstance obj OnDemandFeatureView
       then set_add (on_demand_feature_views res) obj
  else if isinstance obj RequestFeatureView
       then set_add (request_feature_views res) obj
  else ret tt.

Section Operations.
Context {RepoConfig : Type}.
Variable rt : Runtime RepoConfig.

(** The constant [DUMMY_ENTITY_NAME] that the module imports from
    [feast.feature_view]; its value is not part of the module. *)
Variable DUMMY_ENTITY_NAME : string.

(** [importlib.import_module(module_path)], then the values of its
    attributes. *)
Definition load_module (module_path : string) : M (list Obj) :=
  emit (EvImport module_path);;;
  match import_module rt module_path with
  | Some values => ret values
  | None => raise ImportFailure
  end.

(** The body of the loop over the files, lines 109-124. *)
Definition parse_file (res : ParsedRepo) (repo_root repo_file : Path) : M unit :=
  let! module_path :=
    match py_path_to_module repo_file repo_root with
    | Some m => ret m
    | None => raise ValueError
    end in
  let! module := load_module module_path in
  for_each module (record_object res).

(** [parse_repo], line 97. *)
Definition parse_repo (repo_root : Path) : M ParsedRepo :=
  let! s_feature_tables := new_set in
  let! s_entities := new_set in
  let! s_feature_views := new_set in
  let! s_feature_services := new_set in
  let! s_on_demand_feature_views := new_set in
  let! s_request_feature_views := new_set in
  let res := {| feature_tables := s_feature_tables;
                entities := s_entities;
                feature_views := s_feature_views;
                feature_services := s_feature_services;
                on_demand_feature_views := s_on_demand_feature_views;
                request_feature_views := s_request_feature_views |} in
  for_each (get_repo_files (rt_fs rt) repo_root) (parse_file res repo_root);;;
  ret res.

(** ** Reconciliation *)

(** [registry.list_...(project=project)] *)
Definition call_list (l : Listing) (listing : string -> list Obj)
           (project : string) : M (list Obj) :=
  emit (EvList l project);;;
  ret (listing project).

(** The names of the members of a set, [set(t.name for t in s)]. *)
Definition names_of (s : gset Obj) : gset string :=
  list_to_set (name <$> elements s).

(** [_tag_registry_entities_for_keep_delete], line 261. *)
Definition _tag_registry_entities_for_keep_delete
           (project : string) (registry : Registry) (repo : ParsedRepo)
  : M (loc * loc) :=
  let entities_to_keep := entities repo in
  let! entities_to_delete := new_set in
  let! repo_entities := read_set (entities repo) in
  let repo_entities_names := names_of repo_entities in
  let! registry_entities := call_list ListEntities (list_entities registry) project in
  for_each registry_entities (fun registry_entity =>
    when (bool_decide (name registry_entity ∉ repo_entities_names)
          && negb (String.eqb (name registry_entity) DUMMY_ENTITY_NAME))
         (set_add entities_to_delete registry_entity));;;
  ret (entities_to_keep, entities_to_delete).

(** [_tag_registry_views_for_keep_delete], line 277.  [views_to_keep]
    is the set [repo.feature_views] itself: the [cast] makes no copy. *)
Definition _tag_registry_views_for_keep_delete
           (project : string) (registry : Registry) (repo : ParsedRepo)
  : M (loc * loc) :=
  let views_to_keep := feature_views repo in
  let! repo_request_feature_views := read_set (request_feature_views repo) in
  for_each (elements repo_request_feature_views) (fun request_fv =>
    set_add views_to_keep request_fv);;;
  let! views_to_delete := new_set in
  let! repo_feature_views := read_set (feature_views repo) in
  let repo_feature_view_names := names_of repo_feature_views in
  let! registry_views := call_list ListFeatureViews (list_feature_views registry) project in
  for_each registry_views (fun registry_view =>
    when (bool_decide (name registry_view ∉ repo_feature_view_names))
         (set_add views_to_delete registry_view));;;
  ret (views_to_keep, views_to_delete).

(** [_tag_registry_on_demand_feature_views_for_keep_delete], line 291. *)
Definition _tag_registry_on_demand_feature_views_for_keep_delete
           (project : string) (registry : Registry) (repo : ParsedRepo)
  : M (loc * loc) :=
  let odfvs_to_keep := on_demand_feature_views repo in
  let! odfvs_to_delete := new_set in
  let! repo_odfvs := read_set (on_demand_feature_views repo) in
  let repo_on_demand_feature_view_names := names_of repo_odfvs in
  let! registry_odfvs := call_list ListOnDemandFeatureViews
                      (list_on_demand_feature_views registry) project in
  for_each registry_odfvs (fun registry_odfv =>
    when (bool_decide (name registry_odfv ∉ repo_on_demand_feature_view_names))
         (set_add odfvs_to_delete registry_odfv));;;
  ret (odfvs_to_keep, odfvs_to_delete).

(** [_tag_registry_tables_for_keep_delete], line 305. *)
Definition _tag_registry_tables_for_keep_delete
           (project : string) (registry : Registry) (repo : ParsedRepo)
  : M (loc * loc) :=
  let tables_to_keep := feature_tables repo in
  let! tables_to_delete := new_set in
  let! repo_tables := read_set (feature_tables repo) in
  let repo_table_names := names_of repo_tables in
  let! registry_tables := call_list ListFeatureTables
                       (list_feature_tables registry) project in
  for_each registry_tables (fun registry_table =>
    when (bool_decide (name registry_table ∉ repo_table_names))
         (set_add tables_to_delete registry_table));;;
  ret (tables_to_keep, tables_to_delete).

(** [_tag_registry_services_for_keep_delete], line 317. *)
Definition _tag_registry_services_for_keep_delete
           (project : string) (registry : Registry) (repo : ParsedRepo)
  : M (loc * loc) :=
  let services_to_keep := feature_services repo in
  let! services_to_delete := new_set in
  let! repo_services := read_set (feature_services repo) in
  let repo_feature_service_names := names_of repo_services in
  let! registry_services := call_list ListFeatureServices
                         (list_feature_services registry) project in
  for_each registry_services (fun registry_service =>
    when (bool_decide (name registry_service ∉ repo_feature_service_names))
         (set_add services_to_delete registry_service));;;
  ret (services_to_keep, services_to_delete).

(** ** Apply *)

Definition ESC : string := String "027"%char EmptyString.
Definition Style_BRIGHT : string := ESC ++ "[1m".
Definition Fore_GREEN : string := ESC ++ "[32m".
Definition Style_RESET_ALL : string := ESC ++ "[0m".

(** [{Style.BRIGHT + Fore.GREEN}{s}{Style.RESET_ALL}] *)
Definition green (s : string) : string :=
  (Style_BRIGHT ++ Fore_GREEN) ++ s ++ Style_RESET_ALL.

Definition invalid_project_message (project : string) : string :=
  project ++ " is not valid. Project name should only have "
          ++ "alphanumerical values and underscores but not start with an underscore.".

(** [data_source.validate(store.config)] *)
Definition validate (store : FeatureStore) (view : Obj) : M unit :=
  emit (EvValidate view);;;
  if source_validates store view then ret tt else raise ValidationFailure.

(** [store.apply(objects, objects_to_delete=..., partial=...)] *)
Definition store_apply (store : FeatureStore)
           (objects objects_to_delete : list Obj) (partial : bool) : M unit :=
  emit (EvApply objects objects_to_delete partial);;;
  if apply_returns store objects objects_to_delete partial
  then ret tt else raise ApplyFailure.

(** [for x in s: click.echo(line(x))] *)
Definition echo_each (s : loc) (line : Obj -> string) : M unit :=
  let! xs := read_set s in
  for_each (elements xs) (fun x => emit (EvEcho (line x))).

(** [apply_total], line 129. *)
Definition apply_total (repo_config : RepoConfig) (repo_path : Path)
           (skip_source_validation : bool) : M unit :=
  emit (EvChdir repo_path);;;
  emit EvFeatureStore;;;
  let store := new_FeatureStore rt repo_config in
  let project := project store in
  when (negb (is_valid_name project))
       (emit (EvPrint (invalid_project_message project));;;
        sys_exit 1);;;
  let registry := registry store in
  emit EvInitializeRegistry;;;
  emit (EvDontWriteBytecode true);;;
  let! repo := parse_repo repo_path in

  when (negb skip_source_validation)
       (let! views := read_set (feature_views repo) in
        let data_sources := elements views in
        for_each data_sources (validate store));;;

  let! (entities_to_keep, entities_to_delete) :=
    _tag_registry_entities_for_keep_delete project registry repo in
  let! (views_to_keep, views_to_delete) :=
    _tag_registry_views_for_keep_delete project registry repo in
  let! (odfvs_to_keep, odfvs_to_delete) :=
    _tag_registry_on_demand_feature_views_for_keep_delete project registry repo in
  let! (tables_to_keep, tables_to_delete) :=
    _tag_registry_tables_for_keep_delete project registry repo in
  let! (services_to_keep, services_to_delete) :=
    _tag_registry_services_for_keep_delete project registry repo in

  emit (EvDontWriteBytecode false);;;

  let! e_keep := read_set entities_to_keep in
  let! v_keep := read_set views_to_keep in
  let! s_keep := read_set services_to_keep in
  let! o_keep := read_set odfvs_to_keep in
  let! t_keep := read_set tables_to_keep in
  let all_to_apply :=
    ((((([] ++ elements e_keep) ++ elements v_keep) ++ elements s_keep)
        ++ elements o_keep) ++ elements t_keep)%list in
  let! e_delete := read_set entities_to_delete in
  let! v_delete := read_set views_to_delete in
  let! s_delete := read_set services_to_delete in
  let! o_delete := read_set odfvs_to_delete in
  let! t_delete := read_set tables_to_delete in
  let all_to_delete :=
    ((((([] ++ elements e_delete) ++ elements v_delete) ++ elements s_delete)
        ++ elements o_delete) ++ elements t_delete)%list in

  store_apply store all_to_apply all_to_delete false;;;

  echo_each entities_to_delete (fun entity =>
    "Deleted entity " ++ green (name entity) ++ " from registry");;;
  echo_each views_to_delete (fun view =>
    "Deleted feature view " ++ green (name view) ++ " from registry");;;
  echo_each odfvs_to_delete (fun odfv =>
    "Deleted on demand feature view " ++ green (name odfv) ++ " from registry");;;
  echo_each tables_to_delete (fun table =>
    "Deleted feature table " ++ green (name table) ++ " from registry");;;
  echo_each services_to_delete (fun feature_service =>
    "Deleted feature service " ++ green (name feature_service) ++ " "
      ++ "from registry");;;

  echo_each entities_to_keep (fun entity =>
    "Registered entity " ++ green (name entity));;;
  echo_each views_to_keep (fun view =>
    "Registered feature view " ++ green (name view));;;
  echo_each odfvs_to_keep (fun odfv =>
    "Registered on demand feature view " ++ green (name odfv));;;
  echo_each services_to_keep (fun feature_service =>
    "Registered feature service " ++ green (name feature_service));;;
  echo_each tables_to_keep (fun table =>
    "Registered feature table " ++ green (name table));;;

  let! v_keep := read_set views_to_keep in
  let views_to_keep_in_infra :=
    filter (fun view => isinstance view FeatureView = true) (elements v_keep) in
  let! repo_tables := read_set (feature_tables repo) in
  for_each ((name <$> elements repo_tables) ++ (name <$> views_to_keep_in_infra))%list
    (fun name => emit (EvEcho ("Deploying infrastructure for " ++ green name)));;;
  let! v_delete := read_set views_to_delete in
  let views_to_delete_from_infra :=
    filter (fun view => isinstance view FeatureView = true) (elements v_delete) in
  let! t_delete := read_set tables_to_delete in
  for_each ((name <$> views_to_delete_from_infra) ++ (name <$> elements t_delete))%list
    (fun name => emit (EvEcho ("Removing infrastructure for " ++ green name))).

End Operations.

(** ** The reconciliation as a whole *)

(** The keep-set and the delete-set of each kind, by location. *)
Record ReconciliationPlan := {
  entities_to_keep : loc;  entities_to_delete : loc;
  views_to_keep : loc;     views_to_delete : loc;
  odfvs_to_keep : loc;     odfvs_to_delete : loc;
  tables_to_keep : loc;    tables_to_delete : loc;
  services_to_keep : loc;  services_to_delete : loc
}.

(** The five calls of [apply_total], lines 153-168, as a computation of
    their own. *)
Definition reconciliation_plan (DUMMY_ENTITY_NAME : string)
           (project : string) (registry : Registry) (repo : ParsedRepo)
  : M ReconciliationPlan :=
  let! ents := _tag_registry_entities_for_keep_delete
                 DUMMY_ENTITY_NAME project registry repo in
  let! views := _tag_registry_views_for_keep_delete project registry repo in
  let! odfvs := _tag_registry_on_demand_feature_views_for_keep_delete
                  project registry repo in
  let! tables := _tag_registry_tables_for_keep_delete project registry repo in
  let! services := _tag_registry_services_for_keep_delete project registry repo in
  ret {| entities_to_keep := ents.1;   entities_to_delete := ents.2;
         views_to_keep := views.1;     views_to_delete := views.2;
         odfvs_to_keep := odfvs.1;     odfvs_to_delete := odfvs.2;
         tables_to_keep := tables.1;   tables_to_delete := tables.2;
         services_to_keep := services.1; services_to_delete := services.2 |}.

(** ** Notions used in the statements *)

(** The set of a repository that holds the objects of a class. *)
Definition field_of (C : Class) (repo : ParsedRepo) : loc :=
  match C with
  | FeatureTable => feature_tables repo
  | FeatureView => feature_views repo
  | Entity => entities repo
  | FeatureService => feature_services repo
  | OnDemandFeatureView => on_demand_feature_views repo
  | RequestFeatureView => request_feature_views repo
  end.

Definition all_classes : list Class :=
  [FeatureTable; FeatureView; Entity; FeatureService;
   OnDemandFeatureView; RequestFeatureView].

Definition repo_locs (repo : ParsedRepo) : list loc :=
  (fun C => field_of C repo) <$> all_classes.

(** The six sets of a repository are six different sets of the store. *)
Definition repo_ok (h : gmap loc (gset Obj)) (repo : ParsedRepo) : Prop :=
  NoDup (repo_locs repo) /\ Forall (fun l => l ∈ dom h) (repo_locs repo).

(** The objects of a class that a repository declares. *)
Definition declared (h : gmap loc (gset Obj)) (repo : ParsedRepo) (C : Class)
  : gset Obj :=
  members h (field_of C repo).

(** The classification in the words of the specification: the checks for
    [FeatureTable] and for [FeatureView] stand alone; an object that is
    no [FeatureView] goes to the first of [Entity], [FeatureService],
    [OnDemandFeatureView], [RequestFeatureView] whose check it passes. *)
Definition recorded_as (C : Class) (obj : Obj) : bool :=
  match C with
  | FeatureTable => isinstance obj FeatureTable
  | FeatureView => isinstance obj FeatureView
  | Entity =>
      negb (isinstance obj FeatureView) && isinstance obj Entity
  | FeatureService =>
      negb (isinstance obj FeatureView) && negb (isinstance obj Entity)
      && isinstance obj FeatureService
  | OnDemandFeatureView =>
      negb (isinstance obj FeatureView) && negb (isinstance obj Entity)
      && negb (isinstance obj FeatureService)
      && isinstance obj OnDemandFeatureView
  | RequestFeatureView =>
      negb (isinstance obj FeatureView) && negb (isinstance obj Entity)
      && negb (isinstance obj FeatureService)
      && negb (isinstance obj OnDemandFeatureView)
      && isinstance obj RequestFeatureView
  end.

(** A persisted object whose name no declared object bears. *)
Definition undeclared (declared_set : gset Obj) (o : Obj) : bool :=
  bool_decide (name o ∉ names_of declared_set).

(** The delete-set in the words of the specification: the persisted
    objects whose name has no declared counterpart. *)
Definition delete_set (declared_set : gset Obj) (listing : list Obj) : gset Obj :=
  list_to_set (filter (fun o => undeclared declared_set o = true) listing).

(** The delete-set of entities: the dummy entity is left out. *)
Definition entities_delete_set (DUMMY_ENTITY_NAME : string)
           (declared_set : gset Obj) (listing : list Obj) : gset Obj :=
  list_to_set
    (filter (fun o => undeclared declared_set o
                      && negb (String.eqb (name o) DUMMY_ENTITY_NAME) = true)
            listing).

(** The shape that the tagging functions share: a new delete-set, the
    names of the kept set, one listing, and the persisted objects that
    [doomed] selects added to the delete-set. *)
Definition tag_for_keep_delete (keep : loc) (doomed : gset string -> Obj -> bool)
           (l : Listing) (listing : string -> list Obj) (project : string)
  : M (loc * loc) :=
  let! to_delete := new_set in
  let! kept := read_set keep in
  let names := names_of kept in
  let! persisted := call_list l listing project in
  for_each persisted (fun o => when (doomed names o) (set_add to_delete o));;;
  ret (keep, to_delete).

Definition is_registry_call (ev : Event) : bool :=
  match ev with
  | EvInitializeRegistry | EvList _ _ | EvApply _ _ _ => true
  | _ => false
  end.

Definition is_apply (ev : Event) : bool :=
  match ev with EvApply _ _ _ => true | _ => false end.

(** The world with the events [evs] added. *)
Definition after (w : World) (evs : list Event) : World :=
  {| heap := heap w; trace := (trace w ++ evs)%list |}.

(** The store once the five tagging functions have run in the order of
    [apply_total], each delete-set at a new location. *)
Definition heap_after_entities (dummy project : string) (registry : Registry)
           (repo : ParsedRepo) (h : gmap loc (gset Obj)) : gmap loc (gset Obj) :=
  <[fresh (dom h) :=
      entities_delete_set dummy (members h (entities repo))
                          (list_entities registry project)]> h.

Definition heap_after_views (project : string) (registry : Registry)
           (repo : ParsedRepo) (h : gmap loc (gset Obj)) : gmap loc (gset Obj) :=
  <[fresh (dom h) :=
      delete_set (members h (feature_views repo)
                  ∪ members h (request_feature_views repo))
                 (list_feature_views registry project)]>
    (<[feature_views repo :=
         members h (feature_views repo)
         ∪ members h (request_feature_views repo)]> h).

Definition heap_after_odfvs (project : string) (registry : Registry)
           (repo : ParsedRepo) (h : gmap loc (gset Obj)) : gmap loc (gset Obj) :=
  <[fresh (dom h) :=
      delete_set (members h (on_demand_feature_views repo))
                 (list_on_demand_feature_views registry project)]> h.

Definition heap_after_tables (project : string) (registry : Registry)
           (repo : ParsedRepo) (h : gmap loc (gset Obj)) : gmap loc (gset Obj) :=
  <[fresh (dom h) :=
      delete_set (members h (feature_tables repo))
                 (list_feature_tables registry project)]> h.

Definition heap_after_services (project : string) (registry : Registry)
           (repo : ParsedRepo) (h : gmap loc (gset Obj)) : gmap loc (gset Obj) :=
  <[fresh (dom h) :=
      delete_set (members h (feature_services repo))
                 (list_feature_services registry project)]> h.

(** The events of the five listings, in the order of the calls. *)
Definition listing_events (project : string) : list Event :=
  [EvList ListEntities project; EvList ListFeatureViews project;
   EvList ListOnDemandFeatureViews project; EvList ListFeatureTables project;
   EvList ListFeatureServices project].

(** The store once [x] has been added to the set at [l]. *)
Definition add_member (l : loc) (x : Obj) (h : gmap loc (gset Obj))
  : gmap loc (gset Obj) :=
  <[l := members h l ∪ {[x]}]> h.

(** The four classes that exclude one another. *)
Definition exclusive_classes : list Class :=
  [Entity; FeatureService; OnDemandFeatureView; RequestFeatureView].

(** [precedes C C']: among the four, [C] comes before [C'] in the order
    [Entity], [FeatureService], [OnDemandFeatureView],
    [RequestFeatureView]. *)
Definition precedes (C C' : Class) : bool :=
  match C, C' with
  | Entity, (FeatureService | OnDemandFeatureView | RequestFeatureView) => true
  | FeatureService, (OnDemandFeatureView | RequestFeatureView) => true
  | OnDemandFeatureView, RequestFeatureView => true
  | _, _ => false
  end.

(** A computation that makes no call to [store.apply] and forgets no set
    of the store. *)
Definition steady {A} (m : M A) : Prop :=
  forall w out w',
    m w = (out, w') ->
    dom (heap w) ⊆ dom (heap w')
    /\ filter (fun ev => is_apply ev = true) (trace w')
       = filter (fun ev => is_apply ev = true) (trace w).

(** A computation that returns after it has echoed some lines and done
    nothing else. *)
Definition echoes (m : M unit) : Prop :=
  forall w, exists lines, m w = (Return tt, after w (EvEcho <$> lines)).

(** The events of [apply_total] before discovery. *)
Definition prelude_events (repo_path : Path) : list Event :=
  [EvChdir repo_path; EvFeatureStore; EvInitializeRegistry;
   EvDontWriteBytecode true].

(** The values that the module of a scanned file binds, when the file is
    under the root and its module imports. *)
Definition file_values {RepoConfig : Type} (rt : Runtime RepoConfig)
           (repo_root repo_file : Path) : option (list Obj) :=
  m ← py_path_to_module repo_file repo_root; import_module rt m.

(** Every scanned file loads. *)
Definition discovery_loads {RepoConfig : Type} (rt : Runtime RepoConfig)
           (repo_root : Path) : Prop :=
  Forall (fun f => is_Some (file_values rt repo_root f))
         (get_repo_files (rt_fs rt) repo_root).

(** The values of all the modules, in the order of the scan. *)
Definition discovered_values {RepoConfig : Type} (rt : Runtime RepoConfig)
           (repo_root : Path) : list Obj :=
  concat (omap (file_values rt repo_root) (get_repo_files (rt_fs rt) repo_root)).

(** The imports of a run of discovery. *)
Definition import_events (repo_root : Path) (files : list Path) : list Event :=
  EvImport <$> omap (fun f => py_path_to_module f repo_root) files.

(** The objects that discovery finds for a class. *)
Definition discovered {RepoConfig : Type} (rt : Runtime RepoConfig)
           (repo_root : Path) (C : Class) : gset Obj :=
  list_to_set (filter (fun o => recorded_as C o = true)
                      (discovered_values rt repo_root)).

(** ** Concrete repositories and registries *)

(** An object of one class. *)
Definition make (C : Class) (id : positive) (nm : string) : Obj :=
  {| obj_id := id; name := nm; classes := [C] |}.

(** A repository whose six sets are at the locations 1 to 6. *)
Definition six_repo : ParsedRepo :=
  {| feature_tables := 1; feature_views := 2; on_demand_feature_views := 3;
     request_feature_views := 4; entities := 5; feature_services := 6 |}%positive.

(** The world in which [six_repo] declares the given sets, nothing done
    yet. *)
Definition six_world (tables views odfvs rfvs ents services : gset Obj) : World :=
  {| heap := <[1%positive := tables]> (<[2%positive := views]>
              (<[3%positive := odfvs]> (<[4%positive := rfvs]>
              (<[5%positive := ents]> (<[6%positive := services]> ∅)))));
     trace := [] |}.

(** A registry that answers the same listings for every project. *)
Definition registry_of (ents views odfvs tables services : list Obj) : Registry :=
  {| list_entities := fun _ => ents;
     list_feature_views := fun _ => views;
     list_on_demand_feature_views := fun _ => odfvs;
     list_feature_tables := fun _ => tables;
     list_feature_services := fun _ => services |}.

(** The scenario of the entities: the repository declares [user]; the
    registry holds [user], [driver] and the dummy entity. *)
Definition declared_user : Obj := make Entity 1 "user".
Definition persisted_user : Obj := make Entity 11 "user".
Definition persisted_driver : Obj := make Entity 12 "driver".
Definition persisted_dummy (DUMMY_ENTITY_NAME : string) : Obj :=
  make Entity 13 DUMMY_ENTITY_NAME.

Definition entities_world : World := six_world ∅ ∅ ∅ ∅ {[ declared_user ]} ∅.

Definition entities_registry (DUMMY_ENTITY_NAME : string) : Registry :=
  registry_of [persisted_user; persisted_driver; persisted_dummy DUMMY_ENTITY_NAME]
              [] [] [] [].

(** A repository that declares one request feature view, [r], and no
    feature view; a registry that holds a feature view of the same
    name. *)
Definition declared_request_view : Obj := make RequestFeatureView 2 "r".
Definition persisted_view : Obj := make FeatureView 21 "r".

Definition request_world : World := six_world ∅ ∅ ∅ {[ declared_request_view ]} ∅ ∅.

Definition request_registry : Registry := registry_of [] [persisted_view] [] [] [].

(** A repository with one object of each kind, and a registry that holds
    a few more. *)
Definition declared_table : Obj := make FeatureTable 3 "driver_table".
Definition declared_view : Obj := make FeatureView 4 "driver_stats".
Definition declared_odfv : Obj := make OnDemandFeatureView 5 "conv_rate_plus".
Definition declared_service : Obj := make FeatureService 6 "driver_activity".

(** An object that is a feature table and a feature view at once. *)
Definition table_and_view : Obj :=
  {| obj_id := 7; name := "hybrid"; classes := [FeatureTable; FeatureView] |}.

(** A value that is no declared object. *)
Definition plain_value : Obj := {| obj_id := 8; name := ""; classes := [] |}.

Definition persisted_old_view : Obj := make FeatureView 22 "old_stats".

Definition full_world : World :=
  six_world {[ declared_table ]} {[ declared_view ]} {[ declared_odfv ]}
            {[ declared_request_view ]} {[ declared_user ]} {[ declared_service ]}.

(** The object that a later parse of the same definition makes: its
    name and its classes are those of [o], its identity is new. *)
Definition parsed_again (o : Obj) : Obj :=
  {| obj_id := obj_id o + 100; name := name o; classes := classes o |}.

(** The same repository parsed once more, in another store: the
    declared objects are new objects of the same names; one more set is
    live and events have been recorded. *)
Definition full_world_again : World :=
  {| heap :=
       <[9%positive := {[ plain_value ]}]>
         (heap (six_world {[ parsed_again declared_table ]}
                          {[ parsed_again declared_view ]}
                          {[ parsed_again declared_odfv ]}
                          {[ parsed_again declared_request_view ]}
                          {[ parsed_again declared_user ]}
                          {[ parsed_again declared_service ]}));
     trace := [EvChdir ["/"; "repo"]] |}.

Definition first_registry : Registry :=
  registry_of [persisted_user; persisted_driver; persisted_dummy "__dummy"]
              [persisted_old_view] [] [] [].

(** The registry once the keep-sets of the first run are registered: it
    holds copies of the kept objects, with identities of their own, and
    the dummy entity; the request feature view is no feature view of
    the registry. *)
Definition persisted_stats_view : Obj := make FeatureView 24 "driver_stats".
Definition persisted_odfv : Obj := make OnDemandFeatureView 25 "conv_rate_plus".
Definition persisted_table : Obj := make FeatureTable 26 "driver_table".
Definition persisted_service : Obj := make FeatureService 27 "driver_activity".

Definition second_registry : Registry :=
  registry_of [persisted_user; persisted_dummy "__dummy"] [persisted_stats_view]
              [persisted_odfv] [persisted_table] [persisted_service].

(** A runtime over the repository of the scan scenario: the module
    [features] binds five objects and a plain value; the project is named
    by the configuration; every source validates and every apply
    returns. *)
Definition demo_store (project_name : string) : FeatureStore :=
  {| project := project_name;
     registry := first_registry;
     source_validates := fun _ => true;
     apply_returns := fun _ _ _ => true |}.

Definition demo_runtime : Runtime string :=
  {| rt_fs := scenario_fs;
     import_module := fun m =>
       if String.eqb m "features"
       then Some [declared_user; declared_view; declared_request_view;
                  plain_value; declared_table; declared_service]
       else None;
     new_FeatureStore := demo_store |}.

Definition empty_world : World := {| heap := ∅; trace := [] |}.

(** ** Parts of a path, and strings of paths *)

Definition slash : ascii := "/"%char.
Definition dot : ascii := "."%char.

(** A string without the separator: what a part of a path is. *)
Definition plain_part (s : string) : bool :=
  PyStr.forallb (fun c => negb (Ascii.eqb c slash)) s.

(** [s.endswith(c)] for a one-character suffix. *)
Fixpoint ends_with (c : ascii) (s : string) : bool :=
  match s with
  | EmptyString => false
  | String d EmptyString => Ascii.eqb d c
  | String _ s' => ends_with c s'
  end.

(** The parts that [pathlib] reads in a string: the pieces between
    separators, without the empty ones and the single dots. *)
Definition parts_of (s : string) : list string :=
  filter (fun p => p <> EmptyString /\ p <> ".") (PyStr.split slash s).

(** The root that [pathlib] reads at the head of an absolute string:
    exactly two leading separators are kept. *)
Definition root_of (s : string) : string :=
  if PyStr.startswith "//" s && negb (PyStr.startswith "///" s)
  then "//" else "/".

(** [Path(os.path.join(p, s))], which is also [p / s]: an absolute [s]
    replaces [p]. *)
Definition path_of_join (p : Path) (s : string) : Path :=
  if PyStr.startswith "/" s then root_of s :: parts_of s
  else (p ++ parts_of s)%list.

(** The parts of [os.path.relpath(p, start)] for two absolute paths:
    the common prefix goes, one [..] climbs out of each part of [start]
    that is left. *)
Fixpoint relpath_parts (p start : Path) : Path :=
  match p, start with
  | x :: p', y :: start' =>
      if String.eqb x y then relpath_parts p' start'
      else (((fun _ => "..") <$> start) ++ p)%list
  | _, _ => (((fun _ => "..") <$> start) ++ p)%list
  end.

(** [os.path.relpath(p, start)] *)
Definition relpath (p start : Path) : string := path_str (relpath_parts p start).

(** [str(p)] for any path: the root is not followed by a separator. *)
Definition path_string (p : Path) : string :=
  match p with
  | r :: rest =>
      if PyStr.startswith "/" r then r ++ String.concat "/" rest
      else String.concat "/" p
  | [] => "."
  end.

(** ** More of Python's strings *)

(** [old in s] *)
Fixpoint str_in (old s : string) {struct s} : bool :=
  String.prefix old s
  || match s with
     | EmptyString => false
     | String _ s' => str_in old s'
     end.

(** [s.replace("", new)]: [new] goes before each character and at the
    end. *)
Fixpoint interleave (new s : string) : string :=
  match s with
  | EmptyString => new
  | String c s' => new ++ String c (interleave new s')
  end.

(** [s.replace(old, new)] *)
Definition str_replace (old new s : string) : string :=
  if PyStr.is_empty old then interleave new s else PyStr.replace old new s.

(** ** Project names *)

(** [random.choice(seq)], given the number that the generator draws: it
    is brought into the range of the indices; [None] on an empty
    sequence, where Python raises [IndexError]. *)
Definition random_choice {A : Type} (seq : list A) (draw : nat) : option A :=
  seq !! (draw mod length seq)%nat.

(** [generate_project_name], line 443, over the lists [adjectives] and
    [animals] of [feast.names] and the two draws of the generator. *)
Definition generate_project_name (adjectives animals : list string)
           (draw1 draw2 : nat) : option string :=
  adjective ← random_choice adjectives draw1;
  animal ← random_choice animals draw2;
  Some (adjective ++ "_" ++ animal).

(** ** Creating a repository *)

(** What [init_repo] and [replace_str_in_file] ask of the operating
    system, over the states [FS] of the file system. *)
Record OS (FS : Type) := {
  (** [Path.cwd()], [os.getcwd()] *)
  os_cwd : FS -> Path;
  (** [p.mkdir(exist_ok=True)] *)
  os_mkdir : Path -> FS -> FS;
  (** [p.exists()], [os.path.exists(p)] *)
  os_exists : Path -> FS -> bool;
  (** [copy_tree(src, dst)] *)
  os_copy_tree : Path -> Path -> FS -> FS;
  (** executing the module at [p], then its function [bootstrap] *)
  os_bootstrap : Path -> FS -> FS;
  (** [os.remove(p)] *)
  os_remove : Path -> FS -> FS;
  (** [open(p, "r")] and [read]; [None] where [open] raises *)
  os_read : Path -> FS -> option string;
  (** [open(p, "wt")] and [write] *)
  os_write : Path -> string -> FS -> FS;
  (** [shutil.rmtree(p, ignore_errors=True)] *)
  os_rmtree : Path -> FS -> FS
}.
Arguments os_cwd {FS} _ _.
Arguments os_mkdir {FS} _ _ _.
Arguments os_exists {FS} _ _ _.
Arguments os_copy_tree {FS} _ _ _ _.
Arguments os_bootstrap {FS} _ _ _.
Arguments os_remove {FS} _ _ _.
Arguments os_read {FS} _ _ _.
Arguments os_write {FS} _ _ _ _.
Arguments os_rmtree {FS} _ _ _.

Inductive InitExn :=
  | BadParameter (message param_hint : string)   (* [click.exceptions] *)
  | IOError (message : string)
  | OpenFailure.                                 (* [open] raised *)

Inductive InitOutcome :=
  | InitReturn
  | InitExit (code : Z)
  | InitRaise (e : InitExn).

(** How a run of [init_repo] ends: the outcome, the file system, and the
    lines written to the standard output. *)
Record InitResult (FS : Type) := {
  init_outcome : InitOutcome;
  init_files : FS;
  init_stdout : list string
}.
Arguments init_outcome {FS} _.
Arguments init_files {FS} _.
Arguments init_stdout {FS} _.

Section Init.
Context {FS : Type}.
Variable os : OS FS.

(** The directory of the module, [Path(__file__).parent]. *)
Variable package_dir : Path.

(** [replace_str_in_file], line 435; [None] where [open] raises. *)
Definition replace_str_in_file (file_path : Path) (match_str sub_str : string)
           (fs : FS) : option FS :=
  contents ← os_read os file_path fs;
  let contents := str_replace match_str sub_str contents in
  Some (os_write os file_path contents fs).

Definition conflict_message (new_directory : string) : string :=
  "The directory " ++ green new_directory ++ " contains an existing feature "
    ++ "store repository that may cause a conflict".

Definition created_message (repo_path : Path) : string :=
  "Creating a new Feast repository in " ++ green (path_string repo_path) ++ ".".

(** [init_repo], line 366. *)
Definition init_repo (repo_name template : string) (fs : FS) : InitResult FS :=
  if negb (is_valid_name repo_name) then
    {| init_outcome :=
         InitRaise (BadParameter
           "Name should be alphanumeric values and underscores but not start with an underscore"
           "PROJECT_DIRECTORY");
       init_files := fs; init_stdout := [] |}
  else
    let repo_path := path_of_join (os_cwd os fs) repo_name in
    let fs := os_mkdir os repo_path fs in
    let repo_config_path := path_join repo_path "feature_store.yaml" in
    if os_exists os repo_config_path fs then
      let new_directory := relpath repo_path (os_cwd os fs) in
      {| init_outcome := InitExit 1; init_files := fs;
         init_stdout := [conflict_message new_directory; ""] |}
    else
      let template_path :=
        path_of_join (path_join package_dir "templates") template in
      if negb (os_exists os template_path fs) then
        {| init_outcome := InitRaise (IOError ("Could not find template " ++ template));
           init_files := fs; init_stdout := [] |}
      else
        let fs := os_copy_tree os template_path repo_path fs in
        let bootstrap_path := path_join repo_path "bootstrap.py" in
        let fs :=
          if os_exists os bootstrap_path fs
          then os_remove os bootstrap_path (os_bootstrap os bootstrap_path fs)
          else fs in
        let feature_store_yaml_path := path_join repo_path "feature_store.yaml" in
        match replace_str_in_file feature_store_yaml_path
                "project: my_project" ("project: " ++ repo_name) fs with
        | None =>
            {| init_outcome := InitRaise OpenFailure;
               init_files := fs; init_stdout := [] |}
        | Some fs =>
            let fs := os_rmtree os (path_join repo_path "__pycache__") fs in
            {| init_outcome := InitReturn; init_files := fs;
               init_stdout := [""; created_message repo_path; ""] |}
        end.

End Init.

(** ** An operating system over a table of entries *)

Module TableOS.

(** The working directory and the entries. *)
Definition state : Type := Path * TableFS.table.

Definition under (base p : Path) : bool :=
  match relative_to p base with Some _ => true | None => false end.

Definition known (p : Path) (s : state) : bool :=
  match TableFS.lookup s.2 p with Some _ => true | None => false end.

Definition without (p : Path) (t : TableFS.table) : TableFS.table :=
  filter (fun e => fst e <> p) t.

Definition mkdir (p : Path) (s : state) : state :=
  if known p s then s else (s.1, (s.2 ++ [(p, None)])%list).

Definition write (p : Path) (contents : string) (s : state) : state :=
  (s.1, (without p s.2 ++ [(p, Some contents)])%list).

Definition read (p : Path) (s : state) : option string :=
  match TableFS.lookup s.2 p with
  | Some (Some contents) => Some contents
  | _ => None
  end.

(** Each entry below [src] is made below [dst]. *)
Definition copy_tree (src dst : Path) (s : state) : state :=
  fold_left
    (fun s e =>
       match relative_to (fst e) src, snd e with
       | Some rel, Some contents => write (dst ++ rel)%list contents s
       | Some rel, None => mkdir (dst ++ rel)%list s
       | None, _ => s
       end)
    s.2 s.

Definition os : OS state :=
  {| os_cwd := fun s => s.1;
     os_mkdir := mkdir;
     os_exists := known;
     os_copy_tree := copy_tree;
     os_bootstrap := fun _ s => s;
     os_remove := fun p s => (s.1, without p s.2);
     os_read := read;
     os_write := write;
     os_rmtree := fun p s => (s.1, filter (fun e => under p (fst e) = false) s.2) |}.

End TableOS.

(** ** Notions used in the statements on whole runs *)

(** The views whose source a run of the validation loop reaches: the
    loop stops at the first source that does not validate. *)
Fixpoint validated_until (ok : Obj -> bool) (views : list Obj) : list Obj :=
  match views with
  | [] => []
  | v :: views' => v :: (if ok v then validated_until ok views' else [])
  end.

(** The lines that [apply_total] echoes after the apply, lines 196-257,
    from the five keep-sets and the five delete-sets. *)
Definition deleted_lines (del_e del_v del_o del_t del_s : gset Obj) : list string :=
  List.app
    ((fun entity => "Deleted entity " ++ green (name entity) ++ " from registry")
       <$> elements del_e)
  (List.app
    ((fun view => "Deleted feature view " ++ green (name view) ++ " from registry")
       <$> elements del_v)
  (List.app
    ((fun odfv => "Deleted on demand feature view " ++ green (name odfv)
                    ++ " from registry")
       <$> elements del_o)
  (List.app
    ((fun table => "Deleted feature table " ++ green (name table) ++ " from registry")
       <$> elements del_t)
    ((fun feature_service =>
        "Deleted feature service " ++ green (name feature_service) ++ " "
          ++ "from registry")
       <$> elements del_s)))).

Definition registered_lines (keep_e keep_v keep_o keep_s keep_t : gset Obj)
  : list string :=
  List.app
    ((fun entity => "Registered entity " ++ green (name entity))
       <$> elements keep_e)
  (List.app
    ((fun view => "Registered feature view " ++ green (name view))
       <$> elements keep_v)
  (List.app
    ((fun odfv => "Registered on demand feature view " ++ green (name odfv))
       <$> elements keep_o)
  (List.app
    ((fun feature_service =>
        "Registered feature service " ++ green (name feature_service))
       <$> elements keep_s)
    ((fun table => "Registered feature table " ++ green (name table))
       <$> elements keep_t)))).

Definition infrastructure_lines (keep_t keep_v del_v del_t : gset Obj)
  : list string :=
  List.app
    ((fun name => "Deploying infrastructure for " ++ green name)
       <$> List.app (name <$> elements keep_t)
                    (name <$> filter (fun view => isinstance view FeatureView = true)
                                     (elements keep_v)))
    ((fun name => "Removing infrastructure for " ++ green name)
       <$> List.app (name <$> filter (fun view => isinstance view FeatureView = true)
                                     (elements del_v))
                    (name <$> elements del_t)).

Definition report_lines (keep_e keep_v keep_o keep_s keep_t
                         del_e del_v del_o del_t del_s : gset Obj) : list string :=
  List.app (deleted_lines del_e del_v del_o del_t del_s)
    (List.app (registered_lines keep_e keep_v keep_o keep_s keep_t)
              (infrastructure_lines keep_t keep_v del_v del_t)).

(** The keep-set and the delete-set of each kind of a plan. *)
Definition plan_pairs (plan : ReconciliationPlan) : list (loc * loc) :=
  [(entities_to_keep plan, entities_to_delete plan);
   (views_to_keep plan, views_to_delete plan);
   (odfvs_to_keep plan, odfvs_to_delete plan);
   (tables_to_keep plan, tables_to_delete plan);
   (services_to_keep plan, services_to_delete plan)].

Definition is_echo (ev : Event) : bool :=
  match ev with EvEcho _ => true | _ => false end.

Definition is_list (ev : Event) : bool :=
  match ev with EvList _ _ => true | _ => false end.

Definition is_import (ev : Event) : bool :=
  match ev with EvImport _ => true | _ => false end.

(** A computation that leaves the members of the set at [l] as they
    are. *)
Definition keeps {A : Type} (l : loc) (m : M A) : Prop :=
  forall w out w', m w = (out, w') -> members (heap w') l = members (heap w) l.

(** A computation whose only events are imports. *)
Definition only_imports {A : Type} (m : M A) : Prop :=
  forall w out w',
    m w = (out, w') ->
    exists evs, trace w' = (trace w ++ evs)%list
                /\ Forall (fun ev => is_import ev = true) evs.

(** ** More concrete runtimes *)

(** A file system that yields the matches of [fs] in the reverse
    order. *)
Definition reversed_fs (fs : FileSystem) : FileSystem :=
  {| glob := fun base pattern => reverse (glob fs base pattern);
     is_file := is_file fs;
     resolve := resolve fs;
     read_text := read_text fs |}.

(** A repository of three definition files; the module of the second
    raises when it is imported. *)
Definition three_table : TableFS.table :=
  [ (["/"; "repo"], None);
    (["/"; "repo"; "views.py"], Some "");
    (["/"; "repo"; "entities.py"], Some "");
    (["/"; "repo"; "services.py"], Some "") ].

Definition faulty_runtime : Runtime string :=
  {| rt_fs := TableFS.fs_of three_table;
     import_module := fun m =>
       if String.eqb m "entities" then Some [declared_user]
       else if String.eqb m "views" then Some [declared_view]
       else None;
     new_FeatureStore := demo_store |}.

(** The file system of a process that runs inside the repository
    [/repo]: the entries are named from the working directory, and
    [resolve] makes a path absolute. *)
Definition inside_table : TableFS.table :=
  [ ([], None);
    (["features.py"], Some "") ].

Definition inside_fs : FileSystem :=
  {| glob := TableFS.tglob inside_table;
     is_file := is_file (TableFS.fs_of inside_table);
     resolve := fun p => if is_absolute p then p else (["/"; "repo"] ++ p)%list;
     read_text := read_text (TableFS.fs_of inside_table) |}.

Definition inside_runtime : Runtime string :=
  {| rt_fs := inside_fs;
     import_module := import_module demo_runtime;
     new_FeatureStore := demo_store |}.

(** The runtime of the scan scenario when no source validates. *)
Definition strict_store (project_name : string) : FeatureStore :=
  {| project := project_name;
     registry := first_registry;
     source_validates := fun _ => false;
     apply_returns := fun _ _ _ => true |}.

Definition strict_runtime : Runtime string :=
  {| rt_fs := scenario_fs;
     import_module := import_module demo_runtime;
     new_FeatureStore := strict_store |}.

(** A repository without a definition file. *)
Definition bare_table : TableFS.table :=
  [ (["/"; "repo"], None);
    (["/"; "repo"; "README.md"], Some "") ].

Definition bare_runtime : Runtime string :=
  {| rt_fs := TableFS.fs_of bare_table;
     import_module := fun _ => None;
     new_FeatureStore := demo_store |}.

(** The state of a machine on which [feast init] runs: the package with
    its template [local], and a working directory that holds one
    repository already. *)
Definition init_package : Path := ["/"; "site"; "feast"].

Definition init_state : TableOS.state :=
  (["/"; "work"],
   [ (["/"; "work"], None);
     (["/"; "work"; "old_repo"], None);
     (["/"; "work"; "old_repo"; "feature_store.yaml"], Some "project: old_repo
");
     (["/"; "site"; "feast"; "templates"; "local"], None);
     (["/"; "site"; "feast"; "templates"; "local"; "feature_store.yaml"],
      Some "project: my_project
registry: data/registry.db
");
     (["/"; "site"; "feast"; "templates"; "local"; "example.py"], Some "") ]).

(** * Properties *)

Local Open Scope list_scope.

(** ** Strings and the naming rule *)

Lemma search_W_plus_from_None pos s :
  PyStr.search_W_plus_from pos s = None <-> PyStr.forallb PyStr.is_word s = true.
Proof.
  revert pos; induction s as [|c s IH]; intros pos; simpl.
  - tauto.
  - destruct (PyStr.is_word c); simpl; [apply IH|].
    split; discriminate.
Qed.

Lemma is_valid_name_naming_rule name : is_valid_name name = naming_rule name.
Proof.
  unfold is_valid_name, naming_rule, PyStr.search_W_plus. f_equal.
  destruct (PyStr.forallb PyStr.is_word name) eqn:E.
  - apply bool_decide_eq_true, search_W_plus_from_None, E.
  - apply bool_decide_eq_false. intros H.
    apply search_W_plus_from_None in H. congruence.
Qed.

Example is_valid_name_driver_stats : is_valid_name "driver_stats" = true.
Proof. reflexivity. Qed.

Example is_valid_name_leading_underscore : is_valid_name "_bad" = false.
Proof. reflexivity. Qed.

Example is_valid_name_dash : is_valid_name "my-project" = false.
Proof. reflexivity. Qed.

Example search_W_plus_span :
  PyStr.search_W_plus "ab--c!" = Some (2%nat, 4%nat).
Proof. reflexivity. Qed.

Example strip_both_ends : PyStr.strip "  a b  " = "a b".
Proof. reflexivity. Qed.

Example replace_dots : PyStr.replace "/" "." "venv/lib/b" = "venv.lib.b".
Proof. reflexivity. Qed.

Example py_path_to_module_nested :
  py_path_to_module ["/"; "repo"; "venv"; "lib"; "b.py"] ["/"; "repo"]
  = Some "venv.lib.b".
Proof. reflexivity. Qed.

Example path_order_by_parts :
  path_compare ["a"; "b.py"] ["a-b.py"] = Lt
  /\ String.compare "a/b.py" "a-b.py" = Gt.
Proof. split; reflexivity. Qed.

(** C10. The name check accepts the empty string: it does not start with
    an underscore and no character of it is outside the word class. *)
Theorem is_valid_name_empty :
  is_valid_name "" = true
  /\ PyStr.startswith "_" "" = false
  /\ PyStr.search_W_plus "" = None.
Proof. repeat split. Qed.

Lemma find_ge c s : -1 <= PyStr.find c s.
Proof.
  induction s as [|d s IH]; simpl; [lia|].
  destruct (Ascii.eqb d c); [lia|].
  destruct (PyStr.find c s <? 0) eqn:E; [lia|]. apply Z.ltb_ge in E. lia.
Qed.

Lemma comment_cut line :
  (if PyStr.find hash line >=? 0
   then PyStr.slice_to (PyStr.find hash line) line
   else line) = before_hash line.
Proof.
  induction line as [|d s IH]; simpl; [reflexivity|].
  destruct (Ascii.eqb d hash); [reflexivity|].
  pose proof (find_ge hash s) as Hge.
  rewrite !Z.geb_leb in *. unfold PyStr.slice_to in *.
  destruct (Z.ltb_spec (PyStr.find hash s) 0) as [E|E].
  - simpl. destruct (Z.leb_spec 0 (PyStr.find hash s)); [lia|].
    now rewrite <- IH.
  - destruct (Z.leb_spec 0 (PyStr.find hash s)); [|lia].
    destruct (Z.leb_spec 0 (PyStr.find hash s + 1)); [|lia].
    destruct (Z.ltb_spec (PyStr.find hash s + 1) 0); [lia|].
    rewrite <- IH.
    replace (Z.to_nat (PyStr.find hash s + 1)) with (S (Z.to_nat (PyStr.find hash s)))
      by lia.
    reflexivity.
Qed.

Lemma feastignore_line_spec acc line :
  feastignore_line acc line = acc ++ option_list (pattern_of_line line).
Proof.
  unfold feastignore_line, pattern_of_line. rewrite comment_cut.
  destruct (PyStr.strip (before_hash line)) as [|c p]; simpl.
  - now rewrite app_nil_r.
  - reflexivity.
Qed.

Lemma fold_feastignore_line lines acc :
  fold_left feastignore_line lines acc = acc ++ omap pattern_of_line lines.
Proof.
  revert acc; induction lines as [|l lines IH]; intros acc; simpl.
  - now rewrite app_nil_r.
  - rewrite IH, feastignore_line_spec.
    destruct (pattern_of_line l); simpl; [|now rewrite app_nil_r].
    now rewrite <- app_assoc.
Qed.

Lemma read_feastignore_spec fs root :
  read_feastignore fs root =
    if is_file fs (path_join root ".feastignore")
    then omap pattern_of_line
           (PyStr.split newline
              (PyStr.strip (read_text fs (path_join root ".feastignore"))))
    else [].
Proof.
  unfold read_feastignore.
  destruct (is_file fs (path_join root ".feastignore")); simpl; [|reflexivity].
  apply fold_feastignore_line.
Qed.

(** ** The order of paths *)

Section LexOrder.
Context {A : Type} (cmp : A -> A -> comparison).
Hypothesis cmp_antisym : forall x y, cmp x y = CompOpp (cmp y x).
Hypothesis cmp_eq : forall x y, cmp x y = Eq -> x = y.
Hypothesis cmp_trans :
  forall x y z, cmp x y = Lt -> cmp y z = Lt -> cmp x z = Lt.

Lemma cmp_refl x : cmp x x = Eq.
Proof.
  specialize (cmp_antisym x x). destruct (cmp x x); simpl in *; congruence.
Qed.

Lemma lex_compare_antisym l1 l2 :
  lex_compare cmp l1 l2 = CompOpp (lex_compare cmp l2 l1).
Proof.
  revert l2; induction l1 as [|x l1 IH]; intros [|y l2]; simpl; try reflexivity.
  rewrite (cmp_antisym x y). destruct (cmp y x); simpl; auto.
Qed.

Lemma lex_compare_eq l1 l2 : lex_compare cmp l1 l2 = Eq -> l1 = l2.
Proof.
  revert l2; induction l1 as [|x l1 IH]; intros [|y l2]; simpl; try congruence.
  destruct (cmp x y) eqn:E; try congruence.
  intros H. apply cmp_eq in E. apply IH in H. congruence.
Qed.

Lemma lex_compare_refl l : lex_compare cmp l l = Eq.
Proof.
  induction l as [|x l IH]; simpl; [reflexivity|]. now rewrite cmp_refl.
Qed.

Lemma lex_compare_trans l1 l2 l3 :
  lex_compare cmp l1 l2 = Lt -> lex_compare cmp l2 l3 = Lt ->
  lex_compare cmp l1 l3 = Lt.
Proof.
  revert l2 l3; induction l1 as [|x l1 IH]; intros [|y l2] [|z l3]; simpl;
    try congruence.
  destruct (cmp x y) eqn:Exy; try congruence;
    destruct (cmp y z) eqn:Eyz; try congruence; intros H1 H2.
  - apply cmp_eq in Exy, Eyz. subst. rewrite cmp_refl. eauto.
  - apply cmp_eq in Exy. subst. now rewrite Eyz.
  - apply cmp_eq in Eyz. subst. now rewrite Exy.
  - now rewrite (cmp_trans _ _ _ Exy Eyz).
Qed.
End LexOrder.

Lemma ascii_compare_lt_trans a b c :
  Ascii.compare a b = Lt -> Ascii.compare b c = Lt -> Ascii.compare a c = Lt.
Proof. unfold Ascii.compare. rewrite !N.compare_lt_iff. lia. Qed.

Lemma string_compare_lt_trans s1 s2 s3 :
  String.compare s1 s2 = Lt -> String.compare s2 s3 = Lt ->
  String.compare s1 s3 = Lt.
Proof.
  revert s2 s3; induction s1 as [|x s1 IH]; intros [|y s2] [|z s3]; simpl;
    try congruence.
  assert (Hrefl : forall a, Ascii.compare a a = Eq)
    by (intros a; unfold Ascii.compare; apply N.compare_refl).
  destruct (Ascii.compare x y) eqn:Exy; try congruence;
    destruct (Ascii.compare y z) eqn:Eyz; try congruence; intros H1 H2.
  - apply Ascii.compare_eq_iff in Exy, Eyz. subst. rewrite Hrefl. eauto.
  - apply Ascii.compare_eq_iff in Exy. subst. now rewrite Eyz.
  - apply Ascii.compare_eq_iff in Eyz. subst. now rewrite Exy.
  - now rewrite (ascii_compare_lt_trans _ _ _ Exy Eyz).
Qed.

Lemma path_compare_antisym p q : path_compare p q = CompOpp (path_compare q p).
Proof. apply lex_compare_antisym, String.compare_antisym. Qed.

Lemma path_compare_eq p q : path_compare p q = Eq -> p = q.
Proof. apply lex_compare_eq, String.compare_eq_iff. Qed.

Global Instance path_lt_transitive : Transitive path_lt.
Proof.
  intros p q r. apply lex_compare_trans.
  - apply String.compare_antisym.
  - apply String.compare_eq_iff.
  - apply string_compare_lt_trans.
Qed.

Global Instance path_le_total : Total path_le.
Proof.
  intros p q. unfold path_le, path_leb. rewrite (path_compare_antisym q p).
  destruct (path_compare p q); simpl; auto.
Qed.

Lemma path_le_lt p q : path_le p q -> p <> q -> path_lt p q.
Proof.
  unfold path_le, path_leb, path_lt. intros H Hne.
  destruct (path_compare p q) eqn:E; try congruence.
  apply path_compare_eq in E. congruence.
Qed.

Lemma path_lt_irrefl p : ~ path_lt p p.
Proof.
  unfold path_lt, path_compare. rewrite lex_compare_refl; [discriminate|].
  apply String.compare_antisym.
Qed.

Lemma Sorted_le_NoDup_lt (l : list Path) :
  Sorted path_le l -> NoDup l -> Sorted path_lt l.
Proof.
  induction 1 as [|x l Hs IH Hhd]; intros Hnd; [constructor|].
  apply NoDup_cons in Hnd as [Hx Hnd]. constructor; [auto|].
  destruct Hhd as [|y l Hxy]; constructor.
  apply path_le_lt; [assumption|]. intros ->. apply Hx. left.
Qed.

Lemma sorted_elem_of s p : p ∈ sorted s <-> p ∈ s.
Proof.
  unfold sorted. rewrite (merge_sort_Permutation path_le (elements s)).
  apply elem_of_elements.
Qed.

Lemma sorted_NoDup s : NoDup (sorted s).
Proof.
  unfold sorted. rewrite (merge_sort_Permutation path_le (elements s)).
  apply NoDup_elements.
Qed.

Lemma sorted_increasing s : StronglySorted path_lt (sorted s).
Proof.
  apply Sorted_StronglySorted; [apply path_lt_transitive|].
  apply Sorted_le_NoDup_lt; [|apply sorted_NoDup].
  apply (Sorted_merge_sort path_le).
Qed.

(** ** The ignore filter and the scan *)

Lemma py_files_under_spec fs base p :
  p ∈ py_files_under fs base <->
  exists q, q ∈ glob fs base "**/*.py" /\ is_file fs q = true /\ p = resolve fs q.
Proof.
  unfold py_files_under. rewrite elem_of_list_to_set, list_elem_of_fmap.
  split.
  - intros (q & -> & Hq). apply list_elem_of_filter in Hq as [Hf Hq]. eauto.
  - intros (q & Hq & Hf & ->). exists q. split; [reflexivity|].
    apply list_elem_of_filter. auto.
Qed.

Lemma ignore_match_spec fs acc m :
  ignore_match fs acc m = acc ∪ excluded_by_match fs m.
Proof. unfold ignore_match, excluded_by_match. now destruct (is_file fs m). Qed.

Lemma fold_ignore_match fs ms acc :
  fold_left (ignore_match fs) ms acc = acc ∪ ⋃ (excluded_by_match fs <$> ms).
Proof.
  revert acc; induction ms as [|m ms IH]; intros acc; simpl.
  - now rewrite (right_id_L ∅ (∪)).
  - now rewrite IH, ignore_match_spec, (assoc_L (∪)).
Qed.

Lemma get_ignore_files_from fs root pats acc :
  fold_left
    (fun ignore_files ignore_path =>
       fold_left (ignore_match fs) (glob fs root ignore_path) ignore_files)
    pats acc
  = acc ∪ ⋃ ((fun pat => ⋃ (excluded_by_match fs <$> glob fs root pat)) <$> pats).
Proof.
  revert acc; induction pats as [|pat pats IH]; intros acc; simpl.
  - now rewrite (right_id_L ∅ (∪)).
  - now rewrite IH, fold_ignore_match, (assoc_L (∪)).
Qed.

Lemma get_ignore_files_union fs root pats :
  get_ignore_files fs root pats
  = ⋃ ((fun pat => ⋃ (excluded_by_match fs <$> glob fs root pat)) <$> pats).
Proof.
  unfold get_ignore_files. rewrite get_ignore_files_from.
  now rewrite (left_id_L ∅ (∪)).
Qed.

Lemma get_ignore_files_spec fs root pats p :
  p ∈ get_ignore_files fs root pats <->
  exists pat m, pat ∈ pats /\ m ∈ glob fs root pat /\
    (if is_file fs m then p = resolve fs m
     else exists q, q ∈ glob fs m "**/*.py" /\ is_file fs q = true
                    /\ p = resolve fs q).
Proof.
  rewrite get_ignore_files_union, elem_of_union_list. split.
  - intros (X & HX & Hp). apply list_elem_of_fmap in HX as (pat & -> & Hpat).
    apply elem_of_union_list in Hp as (Y & HY & Hp).
    apply list_elem_of_fmap in HY as (m & -> & Hm).
    exists pat, m. split; [assumption|]. split; [assumption|].
    unfold excluded_by_match in Hp. destruct (is_file fs m).
    + set_solver.
    + now apply py_files_under_spec.
  - intros (pat & m & Hpat & Hm & Hp).
    eexists. split; [apply list_elem_of_fmap; eauto|].
    apply elem_of_union_list.
    eexists. split; [apply list_elem_of_fmap; eauto|].
    unfold excluded_by_match. destruct (is_file fs m).
    + set_solver.
    + now apply py_files_under_spec.
Qed.

Lemma get_repo_files_spec fs root p :
  p ∈ get_repo_files fs root <->
  p ∈ py_files_under fs root
  /\ p ∉ get_ignore_files fs root (read_feastignore fs root).
Proof. unfold get_repo_files. rewrite sorted_elem_of. set_solver. Qed.

(** C5. The scan of a repository is strictly increasing in the order of
    paths, hence sorted and free of duplicates; each of its members is
    the canonical path of a definition file found under the root; none
    of its members is in the set of files that the ignore file excludes.
    In the scenario, with [generated/**] ignored and the definition files
    [generated/foo.py] and [features.py] present, the scan is
    [features.py] alone. *)
Theorem get_repo_files_sorted_disjoint :
  (forall (fs : FileSystem) (root : Path),
      StronglySorted path_lt (get_repo_files fs root)
      /\ NoDup (get_repo_files fs root)
      /\ Forall (fun p => exists q, q ∈ glob fs root "**/*.py"
                                    /\ is_file fs q = true /\ p = resolve fs q)
                (get_repo_files fs root)
      /\ Forall (fun p => p ∉ get_ignore_files fs root (read_feastignore fs root))
                (get_repo_files fs root))
  /\ read_feastignore scenario_fs scenario_root = ["generated/**"]
  /\ sorted (get_ignore_files scenario_fs scenario_root ["generated/**"])
     = [["/"; "repo"; "generated"; "foo.py"]]
  /\ get_repo_files scenario_fs scenario_root = [["/"; "repo"; "features.py"]].
Proof.
  split; [|repeat split; vm_compute; reflexivity].
  intros fs root. split; [apply sorted_increasing|].
  split; [apply sorted_NoDup|].
  split; apply Forall_forall; intros p Hp; apply get_repo_files_spec in Hp.
  - now apply py_files_under_spec.
  - tauto.
Qed.

(** C9. Reading the ignore file: no file, no pattern; otherwise each
    line is cut at its first [#], stripped of the white space around it,
    and dropped when nothing is left.  Expanding the patterns: the
    excluded set is the union, over the patterns and over the matches of
    each pattern under the root, of the canonical path of a match that is
    a file and of every definition file under a match that is not; a
    pattern without a match adds nothing and is no error. *)
Theorem ignore_filter_contract :
  (forall (fs : FileSystem) (root : Path),
      read_feastignore fs root =
        (if is_file fs (path_join root ".feastignore")
         then omap pattern_of_line
                (PyStr.split newline
                   (PyStr.strip (read_text fs (path_join root ".feastignore"))))
         else [])
      /\ (forall pats p,
             p ∈ get_ignore_files fs root pats <->
             exists pat m, pat ∈ pats /\ m ∈ glob fs root pat /\
               (if is_file fs m then p = resolve fs m
                else exists q, q ∈ glob fs m "**/*.py" /\ is_file fs q = true
                               /\ p = resolve fs q))
      /\ get_ignore_files fs root [] = ∅
      /\ (forall pats pat,
             get_ignore_files fs root (pats ++ [pat])
             = get_ignore_files fs root pats
               ∪ ⋃ (excluded_by_match fs <$> glob fs root pat)))
  /\ pattern_of_line "venv/**   # the virtual environment" = Some "venv/**"
  /\ pattern_of_line "# generated code" = None
  /\ pattern_of_line "   " = None
  /\ pattern_of_line "a#b#c" = Some "a"
  /\ read_feastignore nested_fs scenario_root = ["venv/**"; "scratch.py"; "missing/*"]
  /\ glob nested_fs scenario_root "missing/*" = []
  /\ get_ignore_files nested_fs scenario_root ["missing/*"] = ∅
  /\ sorted (get_ignore_files nested_fs scenario_root
               ["venv/**"; "scratch.py"; "missing/*"])
     = [["/"; "repo"; "scratch.py"]; ["/"; "repo"; "venv"; "a.py"];
        ["/"; "repo"; "venv"; "lib"; "b.py"]]
  /\ get_repo_files nested_fs scenario_root = [["/"; "repo"; "driver.py"]].
Proof.
  split; [|repeat split; vm_compute; reflexivity].
  intros fs root. split; [apply read_feastignore_spec|].
  split; [apply get_ignore_files_spec|].
  split; [reflexivity|].
  intros pats pat. rewrite !get_ignore_files_union, fmap_app, union_list_app_L.
  simpl. now rewrite (right_id_L ∅ (∪)).
Qed.

(** ** The store *)

Lemma members_insert_eq h l s : members (<[l := s]> h) l = s.
Proof. unfold members. now rewrite lookup_insert_eq. Qed.

Lemma members_insert_ne h l l' s :
  l <> l' -> members (<[l := s]> h) l' = members h l'.
Proof. intros Hne. unfold members. now rewrite lookup_insert_ne. Qed.

Lemma members_fresh (h : gmap loc (gset Obj)) : members h (fresh (dom h)) = ∅.
Proof.
  unfold members.
  assert (h !! fresh (dom h) = None) as -> by apply not_elem_of_dom, is_fresh.
  reflexivity.
Qed.

Lemma members_lookup (h : gmap loc (gset Obj)) l :
  l ∈ dom h -> h !! l = Some (members h l).
Proof.
  intros Hl. apply elem_of_dom in Hl as [s Hs]. unfold members. now rewrite Hs.
Qed.

Lemma fresh_ne (h : gmap loc (gset Obj)) l : l ∈ dom h -> fresh (dom h) <> l.
Proof. intros Hl E. rewrite <- E in Hl. now apply (is_fresh (dom h)). Qed.

Lemma for_each_when_add (P : Obj -> bool) d xs w s :
  heap w !! d = Some s ->
  for_each xs (fun x => when (P x) (set_add d x)) w =
    (Return tt,
     {| heap := <[d := s ∪ list_to_set (filter (fun x => P x = true) xs)]> (heap w);
        trace := trace w |}).
Proof.
  revert w s; induction xs as [|x xs IH]; intros [h tr] s Hs; simpl in *.
  - unfold ret. f_equal. f_equal.
    now rewrite (right_id_L ∅ (∪)), insert_id.
  - unfold bind. destruct (P x) eqn:Px; simpl.
    + rewrite (IH _ (s ∪ {[x]})); simpl.
      * f_equal. f_equal. rewrite insert_insert_eq. f_equal.
        rewrite filter_cons_True by assumption. simpl.
        now rewrite (assoc_L (∪)).
      * unfold members. rewrite Hs. simpl. apply lookup_insert_eq.
    + rewrite (IH {| heap := h; trace := tr |} s Hs); simpl.
      rewrite filter_cons_False by congruence. reflexivity.
Qed.

Lemma for_each_add d xs w s :
  heap w !! d = Some s ->
  for_each xs (set_add d) w =
    (Return tt,
     {| heap := <[d := s ∪ list_to_set xs]> (heap w); trace := trace w |}).
Proof.
  revert w s; induction xs as [|x xs IH]; intros [h tr] s Hs; simpl in *.
  - unfold ret. f_equal. f_equal.
    now rewrite (right_id_L ∅ (∪)), insert_id.
  - unfold bind. simpl. rewrite (IH _ (s ∪ {[x]})); simpl.
    + f_equal. f_equal. rewrite insert_insert_eq. f_equal.
      now rewrite (assoc_L (∪)).
    + unfold members. rewrite Hs. simpl. apply lookup_insert_eq.
Qed.

Lemma tag_for_keep_delete_run keep doomed l listing project w :
  tag_for_keep_delete keep doomed l listing project w =
    (Return (keep, fresh (dom (heap w))),
     {| heap :=
          <[fresh (dom (heap w)) :=
              list_to_set
                (filter (fun o => doomed (names_of (members (heap w) keep)) o = true)
                        (listing project))]> (heap w);
        trace := trace w ++ [EvList l project] |}).
Proof.
  destruct w as [h tr]. unfold tag_for_keep_delete, bind, new_set, read_set,
    call_list, emit, bind, ret. simpl.
  assert (Hk : members (<[fresh (dom h) := ∅]> h) keep = members h keep).
  { destruct (decide (fresh (dom h) = keep)) as [<-|Hne].
    - now rewrite members_insert_eq, members_fresh.
    - now apply members_insert_ne. }
  rewrite Hk.
  rewrite (for_each_when_add _ _ _ _ ∅) by (simpl; apply lookup_insert_eq).
  simpl. now rewrite insert_insert_eq, (left_id_L ∅ (∪)).
Qed.

(** ** The tagging functions *)

Lemma elem_of_names_of (s : gset Obj) (n : string) :
  n ∈ names_of s <-> exists o, o ∈ s /\ name o = n.
Proof.
  unfold names_of. rewrite elem_of_list_to_set, list_elem_of_fmap.
  split; intros (o & H1 & H2).
  - exists o. apply elem_of_elements in H2. auto.
  - exists o. split; [auto|]. apply elem_of_elements. tauto.
Qed.

Lemma undeclared_true (s : gset Obj) (o : Obj) :
  undeclared s o = true <-> forall x, x ∈ s -> name x <> name o.
Proof.
  unfold undeclared. rewrite bool_decide_eq_true, elem_of_names_of. split.
  - intros H x Hx E. apply H. eauto.
  - intros H (x & Hx & E). exact (H x Hx E).
Qed.

Lemma elem_of_delete_set s listing o :
  o ∈ delete_set s listing <->
  o ∈ listing /\ forall x, x ∈ s -> name x <> name o.
Proof.
  unfold delete_set. rewrite elem_of_list_to_set, list_elem_of_filter.
  rewrite undeclared_true. tauto.
Qed.

Lemma elem_of_entities_delete_set dummy s listing o :
  o ∈ entities_delete_set dummy s listing <->
  o ∈ listing /\ (forall x, x ∈ s -> name x <> name o) /\ name o <> dummy.
Proof.
  unfold entities_delete_set. rewrite elem_of_list_to_set, list_elem_of_filter.
  rewrite andb_true_iff, undeclared_true, negb_true_iff, String.eqb_neq. tauto.
Qed.

Lemma tag_entities_run dummy project registry repo w :
  _tag_registry_entities_for_keep_delete dummy project registry repo w =
    (Return (entities repo, fresh (dom (heap w))),
     {| heap := <[fresh (dom (heap w)) :=
                    entities_delete_set dummy (members (heap w) (entities repo))
                                        (list_entities registry project)]> (heap w);
        trace := trace w ++ [EvList ListEntities project] |}).
Proof.
  exact (tag_for_keep_delete_run (entities repo)
           (fun names e => bool_decide (name e ∉ names)
                           && negb (String.eqb (name e) dummy))
           ListEntities (list_entities registry) project w).
Qed.

Lemma tag_odfvs_run project registry repo w :
  _tag_registry_on_demand_feature_views_for_keep_delete project registry repo w =
    (Return (on_demand_feature_views repo, fresh (dom (heap w))),
     {| heap := <[fresh (dom (heap w)) :=
                    delete_set (members (heap w) (on_demand_feature_views repo))
                               (list_on_demand_feature_views registry project)]>
                  (heap w);
        trace := trace w ++ [EvList ListOnDemandFeatureViews project] |}).
Proof.
  exact (tag_for_keep_delete_run (on_demand_feature_views repo)
           (fun names o => bool_decide (name o ∉ names))
           ListOnDemandFeatureViews (list_on_demand_feature_views registry)
           project w).
Qed.

Lemma tag_tables_run project registry repo w :
  _tag_registry_tables_for_keep_delete project registry repo w =
    (Return (feature_tables repo, fresh (dom (heap w))),
     {| heap := <[fresh (dom (heap w)) :=
                    delete_set (members (heap w) (feature_tables repo))
                               (list_feature_tables registry project)]> (heap w);
        trace := trace w ++ [EvList ListFeatureTables project] |}).
Proof.
  exact (tag_for_keep_delete_run (feature_tables repo)
           (fun names o => bool_decide (name o ∉ names))
           ListFeatureTables (list_feature_tables registry) project w).
Qed.

Lemma tag_services_run project registry repo w :
  _tag_registry_services_for_keep_delete project registry repo w =
    (Return (feature_services repo, fresh (dom (heap w))),
     {| heap := <[fresh (dom (heap w)) :=
                    delete_set (members (heap w) (feature_services repo))
                               (list_feature_services registry project)]> (heap w);
        trace := trace w ++ [EvList ListFeatureServices project] |}).
Proof.
  exact (tag_for_keep_delete_run (feature_services repo)
           (fun names o => bool_decide (name o ∉ names))
           ListFeatureServices (list_feature_services registry) project w).
Qed.

Lemma dom_insert_known (h : gmap loc (gset Obj)) l s :
  l ∈ dom h -> dom (<[l := s]> h) = dom h.
Proof. intros Hl. rewrite dom_insert_L. apply subseteq_union_1_L. set_solver. Qed.

Lemma tag_views_run project registry repo w :
  feature_views repo ∈ dom (heap w) ->
  _tag_registry_views_for_keep_delete project registry repo w =
    (Return (feature_views repo, fresh (dom (heap w))),
     {| heap :=
          <[fresh (dom (heap w)) :=
              delete_set (members (heap w) (feature_views repo)
                          ∪ members (heap w) (request_feature_views repo))
                         (list_feature_views registry project)]>
            (<[feature_views repo :=
                 members (heap w) (feature_views repo)
                 ∪ members (heap w) (request_feature_views repo)]> (heap w));
        trace := trace w ++ [EvList ListFeatureViews project] |}).
Proof.
  intros Hdom.
  change (_tag_registry_views_for_keep_delete project registry repo)
    with (let! rfvs := read_set (request_feature_views repo) in
          for_each (elements rfvs) (set_add (feature_views repo));;;
          tag_for_keep_delete (feature_views repo)
            (fun names o => bool_decide (name o ∉ names))
            ListFeatureViews (list_feature_views registry) project).
  unfold bind, read_set.
  rewrite (for_each_add _ _ _ (members (heap w) (feature_views repo)))
    by now apply members_lookup.
  rewrite list_to_set_elements_L, tag_for_keep_delete_run. simpl.
  rewrite dom_insert_known by assumption.
  now rewrite members_insert_eq.
Qed.

(** C1. Tagging the entities returns the set of declared entities itself
    as the keep-set, unchanged, and a new delete-set that holds exactly
    the persisted entities of the project whose name is borne by no
    declared entity and is not the dummy name; no entity of the dummy
    name is ever in it.  In the scenario (declared [user]; persisted
    [user], [driver] and the dummy entity) the keep-set is [user] and the
    delete-set is [driver]. *)
Theorem entities_keep_delete (DUMMY_ENTITY_NAME : string) :
  (forall (project : string) (registry : Registry) (repo : ParsedRepo) (w : World),
      entities repo ∈ dom (heap w) ->
      exists d w',
        _tag_registry_entities_for_keep_delete
          DUMMY_ENTITY_NAME project registry repo w
        = (Return (entities repo, d), w')
        /\ members (heap w') (entities repo) = members (heap w) (entities repo)
        /\ (forall e,
               e ∈ members (heap w') d <->
               e ∈ list_entities registry project
               /\ (forall x, x ∈ members (heap w) (entities repo) -> name x <> name e)
               /\ name e <> DUMMY_ENTITY_NAME)
        /\ (forall e, name e = DUMMY_ENTITY_NAME -> e ∉ members (heap w') d))
  /\ (DUMMY_ENTITY_NAME <> "driver" ->
      exists d w',
        _tag_registry_entities_for_keep_delete
          DUMMY_ENTITY_NAME "demo" (entities_registry DUMMY_ENTITY_NAME)
          six_repo entities_world
        = (Return (entities six_repo, d), w')
        /\ members (heap w') (entities six_repo) = {[ declared_user ]}
        /\ members (heap w') d = {[ persisted_driver ]}).
Proof.
  assert (General : forall project registry repo w,
      entities repo ∈ dom (heap w) ->
      exists d w',
        _tag_registry_entities_for_keep_delete
          DUMMY_ENTITY_NAME project registry repo w
        = (Return (entities repo, d), w')
        /\ members (heap w') (entities repo) = members (heap w) (entities repo)
        /\ (forall e,
               e ∈ members (heap w') d <->
               e ∈ list_entities registry project
               /\ (forall x, x ∈ members (heap w) (entities repo) -> name x <> name e)
               /\ name e <> DUMMY_ENTITY_NAME)
        /\ (forall e, name e = DUMMY_ENTITY_NAME -> e ∉ members (heap w') d)).
  { intros project registry repo w Hdom.
    rewrite tag_entities_run. do 2 eexists. split; [reflexivity|]. simpl.
    split; [apply members_insert_ne, fresh_ne, Hdom|].
    split; intros e; rewrite members_insert_eq, elem_of_entities_delete_set; tauto. }
  split; [exact General|].
  intros Hdriver.
  destruct (General "demo" (entities_registry DUMMY_ENTITY_NAME) six_repo entities_world)
    as (d & w' & Hrun & Hkeep & Hdel & _).
  { apply elem_of_dom. eexists. reflexivity. }
  assert (Hdecl : members (heap entities_world) (entities six_repo)
                  = {[ declared_user ]}) by reflexivity.
  rewrite Hdecl in Hkeep.
  exists d, w'. split; [exact Hrun|]. split; [exact Hkeep|].
  apply set_eq. intros e. rewrite Hdel, Hdecl, elem_of_singleton.
  change (list_entities (entities_registry DUMMY_ENTITY_NAME) "demo")
    with [persisted_user; persisted_driver; persisted_dummy DUMMY_ENTITY_NAME].
  split.
  - intros (Hin & Hname & Hdummy).
    apply elem_of_cons in Hin as [->|Hin].
    { exfalso. apply (Hname declared_user); [now apply elem_of_singleton|reflexivity]. }
    apply elem_of_cons in Hin as [->|Hin]; [reflexivity|].
    apply elem_of_cons in Hin as [->|Hin]; [now elim Hdummy|].
    now apply not_elem_of_nil in Hin.
  - intros ->. split; [right; left|]. split.
    + intros x Hx. apply elem_of_singleton in Hx as ->. discriminate.
    + simpl. congruence.
Qed.

(** ** The five tagging functions in a row *)

Lemma field_of_distinct (repo : ParsedRepo) :
  NoDup (repo_locs repo) ->
  forall C C', C <> C' -> field_of C repo <> field_of C' repo.
Proof.
  intros Hnd C C' Hne E. apply Hne.
  pose proof (proj1 (NoDup_alt (repo_locs repo)) Hnd) as Halt.
  assert (Hi : forall D, repo_locs repo !! Class_to_nat D = Some (field_of D repo))
    by (now intros []).
  pose proof (Hi C') as Hi'. rewrite <- E in Hi'.
  pose proof (Halt _ _ _ (Hi C) Hi') as Hn.
  destruct C, C'; simpl in Hn; congruence.
Qed.

Section Tagged.
Variables (dummy project : string) (registry : Registry) (repo : ParsedRepo).
Variable h : gmap loc (gset Obj).
Hypothesis Hok : repo_ok h repo.

Let h1 := heap_after_entities dummy project registry repo h.
Let h2 := heap_after_views project registry repo h1.
Let h3 := heap_after_odfvs project registry repo h2.
Let h4 := heap_after_tables project registry repo h3.
Let h5 := heap_after_services project registry repo h4.

Lemma repo_locs_in_dom C : field_of C repo ∈ dom h.
Proof.
  destruct Hok as [_ Hdom]. rewrite Forall_forall in Hdom. apply Hdom.
  unfold repo_locs. apply list_elem_of_fmap. exists C. split; [reflexivity|].
  destruct C; unfold all_classes; set_solver.
Qed.

Lemma repo_locs_distinct C C' : C <> C' -> field_of C repo <> field_of C' repo.
Proof. apply field_of_distinct, Hok. Qed.

Lemma dom_h1 : dom h1 = {[ fresh (dom h) ]} ∪ dom h.
Proof. unfold h1, heap_after_entities. apply dom_insert_L. Qed.

Lemma dom_h2 : dom h2 = {[ fresh (dom h1) ]} ∪ dom h1.
Proof.
  unfold h2, heap_after_views. rewrite dom_insert_L, dom_insert_known; [reflexivity|].
  rewrite dom_h1. pose proof (repo_locs_in_dom FeatureView). set_solver.
Qed.

Lemma dom_h3 : dom h3 = {[ fresh (dom h2) ]} ∪ dom h2.
Proof. unfold h3, heap_after_odfvs. apply dom_insert_L. Qed.

Lemma dom_h4 : dom h4 = {[ fresh (dom h3) ]} ∪ dom h3.
Proof. unfold h4, heap_after_tables. apply dom_insert_L. Qed.

Lemma in_dom_h1 l : l ∈ dom h -> l ∈ dom h1.
Proof. rewrite dom_h1. set_solver. Qed.
Lemma in_dom_h2 l : l ∈ dom h1 -> l ∈ dom h2.
Proof. rewrite dom_h2. set_solver. Qed.
Lemma in_dom_h3 l : l ∈ dom h2 -> l ∈ dom h3.
Proof. rewrite dom_h3. set_solver. Qed.
Lemma in_dom_h4 l : l ∈ dom h3 -> l ∈ dom h4.
Proof. rewrite dom_h4. set_solver. Qed.

Lemma members_h1 l : l ∈ dom h -> members h1 l = members h l.
Proof. intros Hl. apply members_insert_ne, fresh_ne, Hl. Qed.

Lemma members_h2 l :
  l ∈ dom h1 -> l <> feature_views repo -> members h2 l = members h1 l.
Proof.
  intros Hl Hne. unfold h2, heap_after_views.
  rewrite members_insert_ne, members_insert_ne; auto.
  apply fresh_ne, Hl.
Qed.

Lemma members_h3 l : l ∈ dom h2 -> members h3 l = members h2 l.
Proof. intros Hl. apply members_insert_ne, fresh_ne, Hl. Qed.
Lemma members_h4 l : l ∈ dom h3 -> members h4 l = members h3 l.
Proof. intros Hl. apply members_insert_ne, fresh_ne, Hl. Qed.
Lemma members_h5 l : l ∈ dom h4 -> members h5 l = members h4 l.
Proof. intros Hl. apply members_insert_ne, fresh_ne, Hl. Qed.

(** A set of the repository other than the feature views is what it
    was. *)
Lemma tagged_other C :
  C <> FeatureView -> members h5 (field_of C repo) = members h (field_of C repo).
Proof.
  intros HC. pose proof (repo_locs_in_dom C) as Hd.
  rewrite members_h5, members_h4, members_h3, members_h2, members_h1;
    auto using in_dom_h1, in_dom_h2, in_dom_h3, in_dom_h4.
  now apply (repo_locs_distinct C FeatureView).
Qed.

Lemma views_h1 :
  members h1 (feature_views repo) ∪ members h1 (request_feature_views repo)
  = members h (feature_views repo) ∪ members h (request_feature_views repo).
Proof.
  rewrite !members_h1; [reflexivity| |].
  - apply (repo_locs_in_dom RequestFeatureView).
  - apply (repo_locs_in_dom FeatureView).
Qed.

(** The set of feature views has received the request feature views. *)
Lemma tagged_views :
  members h5 (feature_views repo)
  = members h (feature_views repo) ∪ members h (request_feature_views repo).
Proof.
  pose proof (in_dom_h1 _ (repo_locs_in_dom FeatureView)) as Hd. simpl in Hd.
  rewrite members_h5, members_h4, members_h3;
    auto using in_dom_h2, in_dom_h3, in_dom_h4.
  unfold h2, heap_after_views.
  rewrite members_insert_ne by (apply fresh_ne, Hd).
  rewrite members_insert_eq. apply views_h1.
Qed.

Lemma tagged_entities_delete :
  members h5 (fresh (dom h))
  = entities_delete_set dummy (members h (entities repo))
                        (list_entities registry project).
Proof.
  assert (Hd : fresh (dom h) ∈ dom h1) by (rewrite dom_h1; set_solver).
  rewrite members_h5, members_h4, members_h3, members_h2;
    auto using in_dom_h2, in_dom_h3, in_dom_h4.
  - apply members_insert_eq.
  - apply fresh_ne, (repo_locs_in_dom FeatureView).
Qed.

Lemma tagged_views_delete :
  members h5 (fresh (dom h1))
  = delete_set (members h (feature_views repo)
                ∪ members h (request_feature_views repo))
               (list_feature_views registry project).
Proof.
  assert (Hd : fresh (dom h1) ∈ dom h2) by (rewrite dom_h2; set_solver).
  rewrite members_h5, members_h4, members_h3;
    auto using in_dom_h3, in_dom_h4.
  unfold h2, heap_after_views. rewrite members_insert_eq. now rewrite views_h1.
Qed.

Lemma tagged_odfvs_delete :
  members h5 (fresh (dom h2))
  = delete_set (members h (on_demand_feature_views repo))
               (list_on_demand_feature_views registry project).
Proof.
  assert (Hd : fresh (dom h2) ∈ dom h3) by (rewrite dom_h3; set_solver).
  pose proof (repo_locs_in_dom OnDemandFeatureView) as Ho. simpl in Ho.
  rewrite members_h5, members_h4; auto using in_dom_h4.
  unfold h3, heap_after_odfvs. rewrite members_insert_eq.
  rewrite members_h2, members_h1; auto using in_dom_h1.
  now apply (repo_locs_distinct OnDemandFeatureView FeatureView).
Qed.

Lemma tagged_tables_delete :
  members h5 (fresh (dom h3))
  = delete_set (members h (feature_tables repo))
               (list_feature_tables registry project).
Proof.
  assert (Hd : fresh (dom h3) ∈ dom h4) by (rewrite dom_h4; set_solver).
  pose proof (repo_locs_in_dom FeatureTable) as Ho. simpl in Ho.
  rewrite members_h5; auto.
  unfold h4, heap_after_tables. rewrite members_insert_eq.
  rewrite members_h3, members_h2, members_h1; auto using in_dom_h1, in_dom_h2.
  now apply (repo_locs_distinct FeatureTable FeatureView).
Qed.

Lemma tagged_services_delete :
  members h5 (fresh (dom h4))
  = delete_set (members h (feature_services repo))
               (list_feature_services registry project).
Proof.
  pose proof (repo_locs_in_dom FeatureService) as Ho. simpl in Ho.
  unfold h5, heap_after_services. rewrite members_insert_eq.
  rewrite members_h4, members_h3, members_h2, members_h1;
    auto using in_dom_h1, in_dom_h2, in_dom_h3.
  now apply (repo_locs_distinct FeatureService FeatureView).
Qed.

(** The run of the five functions, from the store [h]. *)
Lemma reconciliation_plan_run tr :
  reconciliation_plan dummy project registry repo {| heap := h; trace := tr |} =
    (Return {| entities_to_keep := entities repo;
               entities_to_delete := fresh (dom h);
               views_to_keep := feature_views repo;
               views_to_delete := fresh (dom h1);
               odfvs_to_keep := on_demand_feature_views repo;
               odfvs_to_delete := fresh (dom h2);
               tables_to_keep := feature_tables repo;
               tables_to_delete := fresh (dom h3);
               services_to_keep := feature_services repo;
               services_to_delete := fresh (dom h4) |},
     {| heap := h5; trace := tr ++ listing_events project |}).
Proof.
  unfold reconciliation_plan, bind.
  rewrite tag_entities_run. cbn [heap trace].
  rewrite tag_views_run
    by (apply in_dom_h1, (repo_locs_in_dom FeatureView)).
  cbn [heap trace].
  rewrite tag_odfvs_run. cbn [heap trace].
  rewrite tag_tables_run. cbn [heap trace].
  rewrite tag_services_run. cbn [heap trace fst snd].
  unfold ret. f_equal. f_equal.
  unfold listing_events. now rewrite <- !app_assoc.
Qed.

End Tagged.

(** ** Idempotence *)

Lemma delete_set_empty (declared_set : gset Obj) (listing : list Obj) :
  delete_set declared_set listing = ∅
  <-> forall o, o ∈ listing -> name o ∈ names_of declared_set.
Proof.
  split.
  - intros Hempty o Hin.
    destruct (decide (name o ∈ names_of declared_set)) as [Hn|Hn]; [exact Hn|].
    exfalso. apply (not_elem_of_empty (C := gset Obj) o). rewrite <- Hempty.
    apply elem_of_delete_set. split; [exact Hin|].
    intros x Hx E. apply Hn, elem_of_names_of. eauto.
  - intros Hcov. apply set_eq. intros o.
    rewrite elem_of_delete_set, elem_of_empty. split; [|tauto].
    intros [Hin Hname].
    apply Hcov, elem_of_names_of in Hin as (x & Hx & E). exact (Hname x Hx E).
Qed.

Lemma entities_delete_set_empty dummy (declared_set : gset Obj) listing :
  entities_delete_set dummy declared_set listing = ∅
  <-> forall o, o ∈ listing -> name o ∈ names_of declared_set \/ name o = dummy.
Proof.
  split.
  - intros Hempty o Hin.
    destruct (decide (name o ∈ names_of declared_set)) as [Hn|Hn]; [now left|].
    destruct (decide (name o = dummy)) as [Hd|Hd]; [now right|].
    exfalso. apply (not_elem_of_empty (C := gset Obj) o). rewrite <- Hempty.
    apply elem_of_entities_delete_set. split; [exact Hin|]. split; [|exact Hd].
    intros x Hx E. apply Hn, elem_of_names_of. eauto.
  - intros Hcov. apply set_eq. intros o.
    rewrite elem_of_entities_delete_set, elem_of_empty. split; [|tauto].
    intros (Hin & Hname & Hd).
    destruct (Hcov o Hin) as [Hn|Hn]; [|exact (Hd Hn)].
    apply elem_of_names_of in Hn as (x & Hx & E). exact (Hname x Hx E).
Qed.

Lemma names_of_union (s t : gset Obj) :
  names_of (s ∪ t) = names_of s ∪ names_of t.
Proof.
  apply set_eq. intros n. rewrite elem_of_union, !elem_of_names_of. split.
  - intros (o & [Ho|Ho]%elem_of_union & E); eauto.
  - intros [(o & Ho & E)|(o & Ho & E)]; exists o; (split; [set_solver|exact E]).
Qed.

Lemma names_of_singleton (o : Obj) : names_of {[ o ]} = {[ name o ]}.
Proof.
  apply set_eq. intros n. rewrite elem_of_names_of, elem_of_singleton. split.
  - now intros (x & ->%elem_of_singleton & <-).
  - intros ->. exists o. split; [now apply elem_of_singleton|reflexivity].
Qed.

(** C4. A second reconciliation finds nothing to delete.  An object is
    known by its kind and its name.  Let a first run, on a repository
    whose six sets are distinct, produce its keep-sets.  Let the
    registry then list, for each kind, the keep-set of that kind: every
    feature view, on-demand feature view, feature table and feature
    service that is listed bears the name of a member of the keep-set of
    its kind, and so does every listed entity but those of the dummy
    name.  The listed objects may be the kept objects themselves or
    copies that the registry has made of them, and a kept object need
    not be listed.  Let the repository declare, when the second run
    begins, objects of the same names in each of its six sets as it
    did when the first run began: the same objects, or objects parsed
    anew.  Then the second run returns; its five delete-sets are empty;
    its five keep-sets are the declared sets (for the views: the
    declared feature views together with the declared request feature
    views); they hold the names that the keep-sets of the first run
    hold; and they are the keep-sets of the first run when the declared
    objects are the same objects. *)
Theorem reconciliation_idempotent
        (DUMMY_ENTITY_NAME project : string) (registry1 registry2 : Registry)
        (repo1 repo2 : ParsedRepo) (w1 w2 : World)
        (plan1 : ReconciliationPlan) (w1' : World) :
  repo_ok (heap w1) repo1 ->
  repo_ok (heap w2) repo2 ->
  (forall C, names_of (declared (heap w2) repo2 C)
             = names_of (declared (heap w1) repo1 C)) ->
  reconciliation_plan DUMMY_ENTITY_NAME project registry1 repo1 w1
  = (Return plan1, w1') ->
  (forall o, o ∈ list_entities registry2 project ->
             name o ∈ names_of (members (heap w1') (entities_to_keep plan1))
             \/ name o = DUMMY_ENTITY_NAME) ->
  (forall o, o ∈ list_feature_views registry2 project ->
             name o ∈ names_of (members (heap w1') (views_to_keep plan1))) ->
  (forall o, o ∈ list_on_demand_feature_views registry2 project ->
             name o ∈ names_of (members (heap w1') (odfvs_to_keep plan1))) ->
  (forall o, o ∈ list_feature_tables registry2 project ->
             name o ∈ names_of (members (heap w1') (tables_to_keep plan1))) ->
  (forall o, o ∈ list_feature_services registry2 project ->
             name o ∈ names_of (members (heap w1') (services_to_keep plan1))) ->
  exists plan2 w2',
    reconciliation_plan DUMMY_ENTITY_NAME project registry2 repo2 w2
    = (Return plan2, w2')
    /\ (members (heap w2') (entities_to_delete plan2) = ∅
        /\ members (heap w2') (views_to_delete plan2) = ∅
        /\ members (heap w2') (odfvs_to_delete plan2) = ∅
        /\ members (heap w2') (tables_to_delete plan2) = ∅
        /\ members (heap w2') (services_to_delete plan2) = ∅)
    /\ (members (heap w2') (entities_to_keep plan2)
        = declared (heap w2) repo2 Entity
        /\ members (heap w2') (views_to_keep plan2)
           = declared (heap w2) repo2 FeatureView
             ∪ declared (heap w2) repo2 RequestFeatureView
        /\ members (heap w2') (odfvs_to_keep plan2)
           = declared (heap w2) repo2 OnDemandFeatureView
        /\ members (heap w2') (tables_to_keep plan2)
           = declared (heap w2) repo2 FeatureTable
        /\ members (heap w2') (services_to_keep plan2)
           = declared (heap w2) repo2 FeatureService)
    /\ (names_of (members (heap w2') (entities_to_keep plan2))
        = names_of (members (heap w1') (entities_to_keep plan1))
        /\ names_of (members (heap w2') (views_to_keep plan2))
           = names_of (members (heap w1') (views_to_keep plan1))
        /\ names_of (members (heap w2') (odfvs_to_keep plan2))
           = names_of (members (heap w1') (odfvs_to_keep plan1))
        /\ names_of (members (heap w2') (tables_to_keep plan2))
           = names_of (members (heap w1') (tables_to_keep plan1))
        /\ names_of (members (heap w2') (services_to_keep plan2))
           = names_of (members (heap w1') (services_to_keep plan1)))
    /\ ((forall C, declared (heap w2) repo2 C = declared (heap w1) repo1 C) ->
        members (heap w2') (entities_to_keep plan2)
        = members (heap w1') (entities_to_keep plan1)
        /\ members (heap w2') (views_to_keep plan2)
           = members (heap w1') (views_to_keep plan1)
        /\ members (heap w2') (odfvs_to_keep plan2)
           = members (heap w1') (odfvs_to_keep plan1)
        /\ members (heap w2') (tables_to_keep plan2)
           = members (heap w1') (tables_to_keep plan1)
        /\ members (heap w2') (services_to_keep plan2)
           = members (heap w1') (services_to_keep plan1)).
Proof.
  destruct w1 as [h1 tr1], w2 as [h2 tr2]. cbn [heap].
  intros Hok1 Hok2 Hsame Hrun1 Le Lv Lo Lt Ls.
  rewrite (reconciliation_plan_run _ _ _ _ _ Hok1) in Hrun1.
  injection Hrun1 as <- <-. cbn [heap entities_to_keep views_to_keep odfvs_to_keep
    tables_to_keep services_to_keep] in Le, Lv, Lo, Lt, Ls |- *.
  pose proof (tagged_other DUMMY_ENTITY_NAME project registry1 _ _ Hok1 Entity
                ltac:(discriminate)) as Ke.
  pose proof (tagged_other DUMMY_ENTITY_NAME project registry1 _ _ Hok1
                OnDemandFeatureView ltac:(discriminate)) as Ko.
  pose proof (tagged_other DUMMY_ENTITY_NAME project registry1 _ _ Hok1
                FeatureTable ltac:(discriminate)) as Kt.
  pose proof (tagged_other DUMMY_ENTITY_NAME project registry1 _ _ Hok1
                FeatureService ltac:(discriminate)) as Ks.
  pose proof (tagged_views DUMMY_ENTITY_NAME project registry1 _ _ Hok1) as Kv.
  cbn [field_of] in Ke, Ko, Kt, Ks.
  rewrite Ke in Le |- *. rewrite Ko in Lo |- *. rewrite Kt in Lt |- *.
  rewrite Ks in Ls |- *. rewrite Kv in Lv |- *.
  clear Ke Ko Kt Ks Kv.
  pose proof (Hsame Entity) as He. pose proof (Hsame FeatureView) as Hv.
  pose proof (Hsame RequestFeatureView) as Hr.
  pose proof (Hsame OnDemandFeatureView) as Ho.
  pose proof (Hsame FeatureTable) as Ht. pose proof (Hsame FeatureService) as Hs.
  unfold declared in *. cbn [field_of] in *.
  assert (Hvr : names_of (members h2 (feature_views repo2)
                          ∪ members h2 (request_feature_views repo2))
                = names_of (members h1 (feature_views repo1)
                            ∪ members h1 (request_feature_views repo1)))
    by now rewrite !names_of_union, Hv, Hr.
  rewrite (reconciliation_plan_run _ _ _ _ _ Hok2).
  do 2 eexists. split; [reflexivity|].
  cbn [heap entities_to_keep views_to_keep odfvs_to_keep tables_to_keep
       services_to_keep entities_to_delete views_to_delete odfvs_to_delete
       tables_to_delete services_to_delete].
  rewrite (tagged_entities_delete _ _ _ _ _ Hok2),
    (tagged_views_delete _ _ _ _ _ Hok2), (tagged_odfvs_delete _ _ _ _ _ Hok2),
    (tagged_tables_delete _ _ _ _ _ Hok2), (tagged_services_delete _ _ _ _ _ Hok2).
  rewrite (tagged_other _ _ _ _ _ Hok2 Entity) by discriminate.
  rewrite (tagged_other _ _ _ _ _ Hok2 OnDemandFeatureView) by discriminate.
  rewrite (tagged_other _ _ _ _ _ Hok2 FeatureTable) by discriminate.
  rewrite (tagged_other _ _ _ _ _ Hok2 FeatureService) by discriminate.
  rewrite (tagged_views _ _ _ _ _ Hok2).
  cbn [field_of].
  split; [|split; [repeat split; reflexivity|split]].
  - split; [apply entities_delete_set_empty; now rewrite He|].
    split; [apply delete_set_empty; now rewrite Hvr|].
    split; [apply delete_set_empty; now rewrite Ho|].
    split; apply delete_set_empty; [now rewrite Ht|now rewrite Hs].
  - now rewrite He, Hvr, Ho, Ht, Hs.
  - intros Hid.
    pose proof (Hid Entity) as Ie. pose proof (Hid FeatureView) as Iv.
    pose proof (Hid RequestFeatureView) as Ir.
    pose proof (Hid OnDemandFeatureView) as Io.
    pose proof (Hid FeatureTable) as It. pose proof (Hid FeatureService) as Is.
    cbn [field_of] in Ie, Iv, Ir, Io, It, Is.
    now rewrite Ie, Iv, Ir, Io, It, Is.
Qed.

(** ** Discovery *)

Lemma record_object_run res obj w :
  record_object res obj w =
    (Return tt,
     {| heap :=
          (let h1 := if isinstance obj FeatureTable
                     then add_member (feature_tables res) obj (heap w)
                     else heap w in
           if isinstance obj FeatureView
           then add_member (feature_views res) obj h1
           else if isinstance obj Entity
           then add_member (entities res) obj h1
           else if isinstance obj FeatureService
           then add_member (feature_services res) obj h1
           else if isinstance obj OnDemandFeatureView
           then add_member (on_demand_feature_views res) obj h1
           else if isinstance obj RequestFeatureView
           then add_member (request_feature_views res) obj h1
           else h1);
        trace := trace w |}).
Proof.
  destruct w as [h tr]. unfold record_object, bind, when.
  destruct (isinstance obj FeatureTable), (isinstance obj FeatureView),
    (isinstance obj Entity), (isinstance obj FeatureService),
    (isinstance obj OnDemandFeatureView), (isinstance obj RequestFeatureView);
    reflexivity.
Qed.

Lemma members_add_member_eq l x h :
  members (add_member l x h) l = members h l ∪ {[x]}.
Proof. apply members_insert_eq. Qed.

Lemma members_add_member_ne l l' x h :
  l <> l' -> members (add_member l x h) l' = members h l'.
Proof. apply members_insert_ne. Qed.

Ltac class_of_field t :=
  lazymatch t with
  | feature_tables _ => constr:(FeatureTable)
  | feature_views _ => constr:(FeatureView)
  | entities _ => constr:(Entity)
  | feature_services _ => constr:(FeatureService)
  | on_demand_feature_views _ => constr:(OnDemandFeatureView)
  | request_feature_views _ => constr:(RequestFeatureView)
  end.

Ltac fields_differ Hnd :=
  lazymatch goal with
  | |- ?a <> ?b =>
      let A := class_of_field a in
      let B := class_of_field b in
      exact (field_of_distinct _ Hnd A B ltac:(discriminate))
  end.

Ltac read_members Hnd :=
  repeat first
    [ rewrite members_add_member_eq
    | rewrite members_add_member_ne by fields_differ Hnd ].

Lemma recorded_as_exclusive obj C C' :
  C ∈ exclusive_classes -> C' ∈ exclusive_classes ->
  recorded_as C obj = true -> recorded_as C' obj = true -> C = C'.
Proof.
  unfold exclusive_classes. rewrite !elem_of_cons, !elem_of_nil.
  intros HC HC'. unfold recorded_as.
  destruct (isinstance obj FeatureView), (isinstance obj Entity),
    (isinstance obj FeatureService), (isinstance obj OnDemandFeatureView),
    (isinstance obj RequestFeatureView);
    destruct C, C'; simpl; intros; try reflexivity; try discriminate;
      exfalso; intuition discriminate.
Qed.

Lemma recorded_as_priority obj C C' :
  precedes C C' = true -> isinstance obj C = true -> recorded_as C' obj = false.
Proof.
  destruct C, C'; simpl; try discriminate; intros _ ->;
    destruct (isinstance obj FeatureView), (isinstance obj Entity),
      (isinstance obj FeatureService), (isinstance obj OnDemandFeatureView);
    reflexivity.
Qed.

Lemma record_object_declared res obj w :
  NoDup (repo_locs res) ->
  exists w',
    record_object res obj w = (Return tt, w')
    /\ trace w' = trace w
    /\ forall C,
         declared (heap w') res C
         = declared (heap w) res C ∪ (if recorded_as C obj then {[ obj ]} else ∅).
Proof.
  intros Hnd. rewrite record_object_run. eexists. split; [reflexivity|].
  split; [reflexivity|]. cbn [heap].
  intros C. unfold declared, recorded_as.
  destruct (isinstance obj FeatureTable), (isinstance obj FeatureView),
    (isinstance obj Entity), (isinstance obj FeatureService),
    (isinstance obj OnDemandFeatureView), (isinstance obj RequestFeatureView);
    destruct C; cbn [field_of negb andb]; read_members Hnd;
      first [ reflexivity | now rewrite (right_id_L ∅ (∪)) ].
Qed.

(** ** Runs *)

Lemma bind_Return {A B} (m : M A) (k : A -> M B) w a w' :
  m w = (Return a, w') -> bind m k w = k a w'.
Proof. intros H. unfold bind. now rewrite H. Qed.

Lemma bind_Raise {A B} (m : M A) (k : A -> M B) w e w' :
  m w = (Raise e, w') -> bind m k w = (Raise e, w').
Proof. intros H. unfold bind. now rewrite H. Qed.

Lemma bind_SysExit {A B} (m : M A) (k : A -> M B) w c w' :
  m w = (SysExit c, w') -> bind m k w = (SysExit c, w').
Proof. intros H. unfold bind. now rewrite H. Qed.

Lemma after_after w evs1 evs2 : after (after w evs1) evs2 = after w (evs1 ++ evs2).
Proof. unfold after. simpl. now rewrite app_assoc. Qed.

Lemma after_nil w : after w [] = w.
Proof. destruct w. unfold after. simpl. now rewrite app_nil_r. Qed.

Lemma emit_run ev w : emit ev w = (Return tt, after w [ev]).
Proof. reflexivity. Qed.

Lemma for_each_emit {A} (f : A -> Event) xs w :
  for_each xs (fun x => emit (f x)) w = (Return tt, after w (f <$> xs)).
Proof.
  revert w; induction xs as [|x xs IH]; intros w; simpl.
  - now rewrite after_nil.
  - rewrite (bind_Return _ _ _ _ _ (emit_run _ _)), IH, after_after. reflexivity.
Qed.

(** *** Steady computations *)

Lemma steady_ret {A} (a : A) : steady (ret a).
Proof. intros w out w' H. injection H as <- <-. auto. Qed.

Lemma steady_raise {A} e : steady (@raise A e).
Proof. intros w out w' H. injection H as <- <-. auto. Qed.

Lemma steady_bind {A B} (m : M A) (k : A -> M B) :
  steady m -> (forall a, steady (k a)) -> steady (bind m k).
Proof.
  intros Hm Hk w out w' H. unfold bind in H.
  destruct (m w) as [[a|c|e] w1] eqn:E; destruct (Hm _ _ _ E) as [Hd Ht].
  - destruct (Hk a _ _ _ H) as [Hd' Ht']. split; [set_solver|congruence].
  - injection H as <- <-. auto.
  - injection H as <- <-. auto.
Qed.

Lemma steady_for_each {A} (xs : list A) (body : A -> M unit) :
  (forall x, steady (body x)) -> steady (for_each xs body).
Proof.
  intros Hb. induction xs as [|x xs IH]; simpl.
  - apply steady_ret.
  - apply steady_bind; auto.
Qed.

Lemma steady_emit ev : is_apply ev = false -> steady (emit ev).
Proof.
  intros Hev w out w' H. injection H as <- <-. simpl. split; [reflexivity|].
  rewrite filter_app, filter_cons_False by congruence.
  rewrite filter_nil. apply app_nil_r.
Qed.

Lemma steady_set_add l x : steady (set_add l x).
Proof.
  intros w out w' H. injection H as <- <-. simpl. split; [|reflexivity].
  rewrite dom_insert_L. set_solver.
Qed.

Lemma steady_new_set : steady new_set.
Proof.
  intros w out w' H. injection H as <- <-. simpl. split; [|reflexivity].
  rewrite dom_insert_L. set_solver.
Qed.

Lemma steady_when c m : steady m -> steady (when c m).
Proof. intros Hm. destruct c; [exact Hm|apply steady_ret]. Qed.

Lemma steady_record_object res obj : steady (record_object res obj).
Proof.
  unfold record_object. apply steady_bind.
  - apply steady_when, steady_set_add.
  - intros _. repeat (case (isinstance obj _); [apply steady_set_add|]).
    apply steady_ret.
Qed.

Lemma steady_parse_file {RepoConfig} (rt : Runtime RepoConfig) res root file :
  steady (parse_file rt res root file).
Proof.
  unfold parse_file. apply steady_bind.
  - destruct (py_path_to_module file root); [apply steady_ret|apply steady_raise].
  - intros m. apply steady_bind.
    + unfold load_module. apply steady_bind; [now apply steady_emit|].
      intros _. destruct (import_module rt m); [apply steady_ret|apply steady_raise].
    + intros values. apply steady_for_each. intros obj. apply steady_record_object.
Qed.

Lemma new_set_run w :
  new_set w = (Return (fresh (dom (heap w))),
               {| heap := <[fresh (dom (heap w)) := ∅]> (heap w); trace := trace w |}).
Proof. reflexivity. Qed.

(** Membership in a chain of unions of singletons. *)
Ltac in_chain :=
  repeat first
    [ apply elem_of_union_l, elem_of_singleton; reflexivity
    | apply elem_of_union_r ].

(** Six sets made one after the other are six different sets. *)
Lemma six_new_sets_ok (h : gmap loc (gset Obj)) :
  let l1 := fresh (dom h) in
  let h1 := <[l1 := ∅]> h in
  let l2 := fresh (dom h1) in
  let h2 := <[l2 := ∅]> h1 in
  let l3 := fresh (dom h2) in
  let h3 := <[l3 := ∅]> h2 in
  let l4 := fresh (dom h3) in
  let h4 := <[l4 := ∅]> h3 in
  let l5 := fresh (dom h4) in
  let h5 := <[l5 := ∅]> h4 in
  let l6 := fresh (dom h5) in
  let h6 := <[l6 := ∅]> h5 in
  repo_ok h6 {| feature_tables := l1; entities := l2; feature_views := l3;
                feature_services := l4; on_demand_feature_views := l5;
                request_feature_views := l6 |}.
Proof.
  intros.
  assert (D1 : dom h1 = {[ l1 ]} ∪ dom h) by apply dom_insert_L.
  assert (D2 : dom h2 = {[ l2 ]} ∪ dom h1) by apply dom_insert_L.
  assert (D3 : dom h3 = {[ l3 ]} ∪ dom h2) by apply dom_insert_L.
  assert (D4 : dom h4 = {[ l4 ]} ∪ dom h3) by apply dom_insert_L.
  assert (D5 : dom h5 = {[ l5 ]} ∪ dom h4) by apply dom_insert_L.
  assert (D6 : dom h6 = {[ l6 ]} ∪ dom h5) by apply dom_insert_L.
  assert (F2 : l2 ∉ dom h1) by apply is_fresh.
  assert (F3 : l3 ∉ dom h2) by apply is_fresh.
  assert (F4 : l4 ∉ dom h3) by apply is_fresh.
  assert (F5 : l5 ∉ dom h4) by apply is_fresh.
  assert (F6 : l6 ∉ dom h5) by apply is_fresh.
  clearbody l1 l2 l3 l4 l5 l6 h1 h2 h3 h4 h5 h6.
  split.
  - unfold repo_locs, all_classes.
    cbn [fmap list_fmap field_of feature_tables feature_views entities
         feature_services on_demand_feature_views request_feature_views].
    repeat (apply NoDup_cons; split); [..|apply NoDup_nil];
      rewrite ?not_elem_of_cons; repeat split; try apply not_elem_of_nil;
        intros E;
        first
          [ solve [ apply F6; first [rewrite E|rewrite <- E];
                    rewrite D5, D4, D3, D2, D1; in_chain ]
          | solve [ apply F5; first [rewrite E|rewrite <- E];
                    rewrite D4, D3, D2, D1; in_chain ]
          | solve [ apply F4; first [rewrite E|rewrite <- E];
                    rewrite D3, D2, D1; in_chain ]
          | solve [ apply F3; first [rewrite E|rewrite <- E];
                    rewrite D2, D1; in_chain ]
          | solve [ apply F2; first [rewrite E|rewrite <- E];
                    rewrite D1; in_chain ] ].
  - unfold repo_locs, all_classes.
    cbn [fmap list_fmap field_of feature_tables feature_views entities
         feature_services on_demand_feature_views request_feature_views].
    repeat (apply List.Forall_cons; [rewrite D6, D5, D4, D3, D2, D1; in_chain|]).
    apply List.Forall_nil.
Qed.

Lemma repo_ok_mono (h h' : gmap loc (gset Obj)) repo :
  dom h ⊆ dom h' -> repo_ok h repo -> repo_ok h' repo.
Proof.
  intros Hsub [Hnd Hdom]. split; [exact Hnd|].
  eapply Forall_impl; [exact Hdom|]. intros l Hl. simpl in Hl. set_solver.
Qed.

Lemma parse_repo_ok {RepoConfig} (rt : Runtime RepoConfig) root w repo w1 :
  parse_repo rt root w = (Return repo, w1) ->
  repo_ok (heap w1) repo
  /\ filter (fun ev => is_apply ev = true) (trace w1)
     = filter (fun ev => is_apply ev = true) (trace w).
Proof.
  unfold parse_repo.
  do 6 (erewrite bind_Return by apply new_set_run; cbn [heap trace]).
  intros H. unfold bind in H.
  match type of H with
  | context [for_each ?xs ?body ?w0] =>
      destruct (for_each xs body w0) as [[[]|c|e] w7] eqn:Hfe;
      try discriminate;
      pose proof (steady_for_each xs body (steady_parse_file rt _ root)
                    _ _ _ Hfe) as [Hdom Htr]
  end.
  injection H as <- <-. cbn [heap trace] in Hdom, Htr.
  split; [|exact Htr].
  eapply repo_ok_mono; [exact Hdom|]. apply six_new_sets_ok.
Qed.

(** *** Reports *)

Lemma echoes_for_each {A} (xs : list A) (line : A -> string) :
  echoes (for_each xs (fun x => emit (EvEcho (line x)))).
Proof.
  intros w. exists (line <$> xs).
  rewrite (for_each_emit (fun x => EvEcho (line x))).
  now rewrite <- list_fmap_compose.
Qed.

Lemma echoes_bind_read l (k : gset Obj -> M unit) :
  (forall s, echoes (k s)) -> echoes (bind (read_set l) k).
Proof. intros Hk w. apply (Hk (members (heap w) l)). Qed.

Lemma echoes_echo_each s line : echoes (echo_each s line).
Proof. unfold echo_each. apply echoes_bind_read. intros xs. apply echoes_for_each. Qed.

Lemma echoes_seq (m k : M unit) : echoes m -> echoes k -> echoes (bind m (fun _ => k)).
Proof.
  intros Hm Hk w. destruct (Hm w) as [l1 H1].
  destruct (Hk (after w (EvEcho <$> l1))) as [l2 H2].
  exists (l1 ++ l2). rewrite (bind_Return _ _ _ _ _ H1), H2, after_after.
  now rewrite fmap_app.
Qed.

Lemma filter_apply_echo lines :
  filter (fun ev => is_apply ev = true) (EvEcho <$> lines) = [].
Proof.
  induction lines as [|l lines IH]; [reflexivity|].
  simpl. now rewrite filter_cons_False by discriminate.
Qed.

Lemma filter_apply_quiet evs :
  Forall (fun ev => is_apply ev = false) evs ->
  filter (fun ev => is_apply ev = true) evs = [].
Proof.
  induction 1 as [|ev evs Hev _ IH]; [reflexivity|].
  now rewrite filter_cons_False by congruence.
Qed.

Lemma echoes_elim (m : M unit) w (P : World -> Prop) :
  echoes m ->
  (forall lines, P (after w (EvEcho <$> lines))) ->
  exists w', m w = (Return tt, w') /\ P w'.
Proof. intros Hm HP. destruct (Hm w) as [lines H]. eauto. Qed.

(** *** Validation *)

Lemma validate_all_run store views w :
  forallb (source_validates store) views = true ->
  for_each views (validate store) w = (Return tt, after w (EvValidate <$> views)).
Proof.
  revert w; induction views as [|v views IH]; intros w Hall; simpl in *.
  - now rewrite after_nil.
  - apply andb_true_iff in Hall as [Hv Hall].
    unfold validate at 1.
    rewrite (bind_Return _ _ _ tt (after w [EvValidate v])).
    + now rewrite (IH _ Hall), after_after.
    + rewrite (bind_Return _ _ _ _ _ (emit_run _ _)). now rewrite Hv.
Qed.

Lemma validation_run store skip repo w :
  skip || forallb (source_validates store)
                  (elements (members (heap w) (feature_views repo))) = true ->
  when (negb skip)
       (let! views := read_set (feature_views repo) in
        let data_sources := elements views in
        for_each data_sources (validate store)) w
  = (Return tt,
     after w (if skip then []
              else EvValidate <$> elements (members (heap w) (feature_views repo)))).
Proof.
  destruct skip; simpl; intros H.
  - now rewrite after_nil.
  - unfold bind, read_set. now apply validate_all_run.
Qed.

(** ** The apply operation *)

(** C7. When the name of the project breaks the naming rule (a leading
    underscore, or a character that is neither alphanumeric nor an
    underscore), [apply_total] exits with status 1 after it has changed
    directory, built the feature store and printed its message: it has
    made no call on the registry, neither a listing nor an apply, and the
    store of sets is untouched.  The name [_bad] breaks the rule. *)
Theorem apply_total_rejects_invalid_project :
  (forall (RepoConfig : Type) (rt : Runtime RepoConfig)
          (DUMMY_ENTITY_NAME : string) (repo_config : RepoConfig)
          (repo_path : Path) (skip_source_validation : bool) (w : World),
      naming_rule (project (new_FeatureStore rt repo_config)) = false ->
      exists evs,
        apply_total rt DUMMY_ENTITY_NAME repo_config repo_path
                    skip_source_validation w
        = (SysExit 1, after w evs)
        /\ evs = [EvChdir repo_path; EvFeatureStore;
                  EvPrint (invalid_project_message
                             (project (new_FeatureStore rt repo_config)))]
        /\ Forall (fun ev => is_registry_call ev = false) evs)
  /\ naming_rule "_bad" = false
  /\ is_valid_name "_bad" = false.
Proof.
  split; [|split; reflexivity].
  intros RepoConfig rt dummy repo_config repo_path skip w Hrule.
  rewrite <- is_valid_name_naming_rule in Hrule.
  eexists. split; [|split; [reflexivity|]].
  - unfold apply_total.
    rewrite (bind_Return _ _ _ _ _ (emit_run _ _)).
    rewrite (bind_Return _ _ _ _ _ (emit_run _ _)).
    cbv zeta. rewrite Hrule. cbn [negb when].
    erewrite bind_SysExit; [reflexivity|].
    rewrite (bind_Return _ _ _ _ _ (emit_run _ _)).
    unfold sys_exit. now rewrite !after_after.
  - repeat constructor.
Qed.

Lemma read_set_run l w : read_set l w = (Return (members (heap w) l), w).
Proof. reflexivity. Qed.

Lemma tag_entities_heap dummy project registry repo w :
  _tag_registry_entities_for_keep_delete dummy project registry repo w =
    (Return (entities repo, fresh (dom (heap w))),
     {| heap := heap_after_entities dummy project registry repo (heap w);
        trace := trace w ++ [EvList ListEntities project] |}).
Proof. apply tag_entities_run. Qed.

Lemma tag_views_heap project registry repo w :
  feature_views repo ∈ dom (heap w) ->
  _tag_registry_views_for_keep_delete project registry repo w =
    (Return (feature_views repo, fresh (dom (heap w))),
     {| heap := heap_after_views project registry repo (heap w);
        trace := trace w ++ [EvList ListFeatureViews project] |}).
Proof. apply tag_views_run. Qed.

Lemma tag_odfvs_heap project registry repo w :
  _tag_registry_on_demand_feature_views_for_keep_delete project registry repo w =
    (Return (on_demand_feature_views repo, fresh (dom (heap w))),
     {| heap := heap_after_odfvs project registry repo (heap w);
        trace := trace w ++ [EvList ListOnDemandFeatureViews project] |}).
Proof. apply tag_odfvs_run. Qed.

Lemma tag_tables_heap project registry repo w :
  _tag_registry_tables_for_keep_delete project registry repo w =
    (Return (feature_tables repo, fresh (dom (heap w))),
     {| heap := heap_after_tables project registry repo (heap w);
        trace := trace w ++ [EvList ListFeatureTables project] |}).
Proof. apply tag_tables_run. Qed.

Lemma tag_services_heap project registry repo w :
  _tag_registry_services_for_keep_delete project registry repo w =
    (Return (feature_services repo, fresh (dom (heap w))),
     {| heap := heap_after_services project registry repo (heap w);
        trace := trace w ++ [EvList ListFeatureServices project] |}).
Proof. apply tag_services_run. Qed.

Lemma filter_apply_validate views :
  filter (fun ev => is_apply ev = true) (EvValidate <$> views) = [].
Proof.
  induction views as [|v views IH]; [reflexivity|].
  simpl. now rewrite filter_cons_False by discriminate.
Qed.

(** The run of [apply_total] from the repository that discovery
    returned. *)
Lemma apply_total_after_discovery
        {RepoConfig : Type} (rt : Runtime RepoConfig)
        (DUMMY_ENTITY_NAME : string) (repo_config : RepoConfig)
        (repo_path : Path) (skip_source_validation : bool)
        (w : World) (repo : ParsedRepo) (w1 : World) :
  let store := new_FeatureStore rt repo_config in
  let proj := project store in
  let reg := registry store in
  is_valid_name proj = true ->
  parse_repo rt repo_path (after w (prelude_events repo_path)) = (Return repo, w1) ->
  skip_source_validation
  || forallb (source_validates store)
             (elements (declared (heap w1) repo FeatureView)) = true ->
  let E := declared (heap w1) repo Entity in
  let V := declared (heap w1) repo FeatureView
           ∪ declared (heap w1) repo RequestFeatureView in
  let S := declared (heap w1) repo FeatureService in
  let O := declared (heap w1) repo OnDemandFeatureView in
  let T := declared (heap w1) repo FeatureTable in
  let all_to_apply :=
    elements E ++ elements V ++ elements S ++ elements O ++ elements T in
  let all_to_delete :=
    elements (entities_delete_set DUMMY_ENTITY_NAME E (list_entities reg proj))
    ++ elements (delete_set V (list_feature_views reg proj))
    ++ elements (delete_set S (list_feature_services reg proj))
    ++ elements (delete_set O (list_on_demand_feature_views reg proj))
    ++ elements (delete_set T (list_feature_tables reg proj)) in
  exists w',
    apply_total rt DUMMY_ENTITY_NAME repo_config repo_path skip_source_validation w
    = (if apply_returns store all_to_apply all_to_delete false
       then Return tt else Raise ApplyFailure, w')
    /\ filter (fun ev => is_apply ev = true) (trace w')
       = filter (fun ev => is_apply ev = true) (trace w)
         ++ [EvApply all_to_apply all_to_delete false].
Proof.
  intros store proj reg Hvalid Hparse Hval E V S O T all_to_apply all_to_delete.
  destruct (parse_repo_ok _ _ _ _ _ Hparse) as [Hok Htr1].
  unfold apply_total.
  rewrite (bind_Return _ _ _ _ _ (emit_run _ _)).
  rewrite (bind_Return _ _ _ _ _ (emit_run _ _)).
  cbv zeta. fold store. fold proj. fold reg. rewrite Hvalid. cbn [negb when].
  rewrite (bind_Return (ret tt) _ _ tt _ eq_refl).
  rewrite (bind_Return _ _ _ _ _ (emit_run _ _)).
  rewrite (bind_Return _ _ _ _ _ (emit_run _ _)).
  rewrite !after_after. cbn [app].
  change [EvChdir repo_path; EvFeatureStore; EvInitializeRegistry;
          EvDontWriteBytecode true] with (prelude_events repo_path).
  rewrite (bind_Return _ _ _ _ _ Hparse).
  unfold declared in Hval; cbn [field_of] in Hval.
  rewrite (bind_Return _ _ _ _ _ (validation_run store _ repo w1 Hval)).
  set (validations := if skip_source_validation then []
                      else EvValidate <$> elements (members (heap w1) (feature_views repo))).
  assert (Hquiet : filter (fun ev => is_apply ev = true) validations = []).
  { unfold validations. destruct skip_source_validation;
      [reflexivity|apply filter_apply_validate]. }
  clearbody validations.
  pose proof (repo_locs_in_dom repo (heap w1) Hok FeatureView) as Hfv.
  cbn [field_of] in Hfv.
  rewrite (bind_Return _ _ _ _ _ (tag_entities_heap _ _ _ _ _)).
  cbn [heap trace after].
  erewrite bind_Return
    by (apply tag_views_heap;
        exact (in_dom_h1 DUMMY_ENTITY_NAME proj reg repo (heap w1) Hok _ Hfv)).
  cbn [heap trace after].
  rewrite (bind_Return _ _ _ _ _ (tag_odfvs_heap _ _ _ _)).
  cbn [heap trace after].
  rewrite (bind_Return _ _ _ _ _ (tag_tables_heap _ _ _ _)).
  cbn [heap trace after].
  rewrite (bind_Return _ _ _ _ _ (tag_services_heap _ _ _ _)).
  cbn [heap trace after].
  rewrite (bind_Return _ _ _ _ _ (emit_run _ _)).
  do 10 (rewrite (bind_Return _ _ _ _ _ (read_set_run _ _))).
  cbn [heap trace after].
  rewrite (tagged_entities_delete DUMMY_ENTITY_NAME proj reg repo _ Hok),
    (tagged_views_delete DUMMY_ENTITY_NAME proj reg repo _ Hok),
    (tagged_odfvs_delete DUMMY_ENTITY_NAME proj reg repo _ Hok),
    (tagged_tables_delete DUMMY_ENTITY_NAME proj reg repo _ Hok),
    (tagged_services_delete DUMMY_ENTITY_NAME proj reg repo _ Hok),
    (tagged_views DUMMY_ENTITY_NAME proj reg repo _ Hok).
  pose proof (tagged_other DUMMY_ENTITY_NAME proj reg repo _ Hok Entity
                ltac:(discriminate)) as Ke.
  pose proof (tagged_other DUMMY_ENTITY_NAME proj reg repo _ Hok
                OnDemandFeatureView ltac:(discriminate)) as Ko.
  pose proof (tagged_other DUMMY_ENTITY_NAME proj reg repo _ Hok
                FeatureTable ltac:(discriminate)) as Kt.
  pose proof (tagged_other DUMMY_ENTITY_NAME proj reg repo _ Hok
                FeatureService ltac:(discriminate)) as Ks.
  cbn [field_of] in Ke, Ko, Kt, Ks. rewrite Ke, Ko, Kt, Ks.
  clear Ke Ko Kt Ks. rewrite <- !app_assoc.
  change (elements (members (heap w1) (entities repo))
          ++ elements (members (heap w1) (feature_views repo)
                       ∪ members (heap w1) (request_feature_views repo))
          ++ elements (members (heap w1) (feature_services repo))
          ++ elements (members (heap w1) (on_demand_feature_views repo))
          ++ elements (members (heap w1) (feature_tables repo)))
    with all_to_apply.
  change (elements (entities_delete_set DUMMY_ENTITY_NAME
                      (members (heap w1) (entities repo)) (list_entities reg proj))
          ++ elements (delete_set (members (heap w1) (feature_views repo)
                                   ∪ members (heap w1) (request_feature_views repo))
                                  (list_feature_views reg proj))
          ++ elements (delete_set (members (heap w1) (feature_services repo))
                                  (list_feature_services reg proj))
          ++ elements (delete_set (members (heap w1) (on_demand_feature_views repo))
                                  (list_on_demand_feature_views reg proj))
          ++ elements (delete_set (members (heap w1) (feature_tables repo))
                                  (list_feature_tables reg proj)))
    with all_to_delete.
  clearbody all_to_apply all_to_delete.
  assert (Htrace : forall tail,
    filter (fun ev => is_apply ev = true)
      (trace w1 ++ validations
       ++ EvList ListEntities proj :: EvList ListFeatureViews proj
          :: EvList ListOnDemandFeatureViews proj
          :: EvList ListFeatureTables proj :: EvList ListFeatureServices proj
          :: EvDontWriteBytecode false
          :: EvApply all_to_apply all_to_delete false :: (EvEcho <$> tail))
    = filter (fun ev => is_apply ev = true) (trace w)
      ++ [EvApply all_to_apply all_to_delete false]).
  { intros tail. rewrite !filter_app, Htr1, Hquiet. unfold after, prelude_events.
    cbn [trace]. rewrite filter_app.
    rewrite (filter_apply_quiet [_; _; _; _]) by (repeat constructor).
    rewrite !filter_cons_False by discriminate.
    rewrite filter_cons_True by reflexivity.
    rewrite filter_apply_echo, !app_nil_r. reflexivity. }
  unfold store_apply at 1.
  destruct (apply_returns store all_to_apply all_to_delete false).
  - rewrite (bind_Return _ _ _ tt _
               (bind_Return _ _ _ _ _ (emit_run _ _))).
    apply echoes_elim.
    + repeat lazymatch goal with
             | |- echoes (bind (read_set _) _) => apply echoes_bind_read; intros ?
             | |- echoes (bind _ (fun _ => _)) => apply echoes_seq
             | |- echoes (echo_each _ _) => apply echoes_echo_each
             | |- echoes (for_each _ _) => apply echoes_for_each
             end.
    + intros lines. unfold after. cbn [trace heap].
      rewrite <- ?app_assoc. cbn [app]. apply (Htrace lines).
  - erewrite bind_Raise
      by (rewrite (bind_Return _ _ _ _ _ (emit_run _ _)); reflexivity).
    eexists. split; [reflexivity|].
    unfold after. cbn [trace heap].
    rewrite <- ?app_assoc. cbn [app]. apply (Htrace []).
Qed.

(** ** Discovery as a whole *)

Lemma record_values_declared res values w :
  NoDup (repo_locs res) ->
  exists w',
    for_each values (record_object res) w = (Return tt, w')
    /\ trace w' = trace w
    /\ forall C,
         declared (heap w') res C
         = declared (heap w) res C
           ∪ list_to_set (filter (fun o => recorded_as C o = true) values).
Proof.
  intros Hnd. revert w. induction values as [|v values IH]; intros w.
  - exists w. split; [reflexivity|]. split; [reflexivity|].
    intros C. simpl. now rewrite (right_id_L ∅ (∪)).
  - destruct (record_object_declared res v w Hnd) as (w1 & Hrun1 & Htr1 & Hd1).
    destruct (IH w1) as (w2 & Hrun2 & Htr2 & Hd2).
    exists w2. split; [|split].
    + simpl. now rewrite (bind_Return _ _ _ _ _ Hrun1).
    + congruence.
    + intros C. rewrite Hd2, Hd1. destruct (recorded_as C v) eqn:E.
      * rewrite filter_cons_True by assumption. simpl.
        now rewrite (assoc_L (∪)).
      * rewrite filter_cons_False by congruence.
        now rewrite (right_id_L ∅ (∪)).
Qed.

Lemma parse_file_declared {RepoConfig} (rt : Runtime RepoConfig)
      res root file values w :
  NoDup (repo_locs res) ->
  file_values rt root file = Some values ->
  exists w',
    parse_file rt res root file w = (Return tt, w')
    /\ trace w' = trace w ++ import_events root [file]
    /\ forall C,
         declared (heap w') res C
         = declared (heap w) res C
           ∪ list_to_set (filter (fun o => recorded_as C o = true) values).
Proof.
  intros Hnd Hvalues. unfold file_values in Hvalues.
  unfold import_events. simpl.
  destruct (py_path_to_module file root) as [m|] eqn:Hm; [|discriminate].
  simpl in Hvalues.
  destruct (record_values_declared res values (after w [EvImport m]) Hnd)
    as (w' & Hrun & Htr & Hd).
  exists w'. split; [|split; [exact Htr|exact Hd]].
  unfold parse_file. rewrite Hm.
  rewrite (bind_Return (ret m) _ _ m _ eq_refl).
  unfold load_module.
  rewrite (bind_Return _ _ _ values (after w [EvImport m])); [exact Hrun|].
  rewrite (bind_Return _ _ _ _ _ (emit_run _ _)). now rewrite Hvalues.
Qed.

Lemma import_events_app root files1 files2 :
  import_events root (files1 ++ files2)
  = import_events root files1 ++ import_events root files2.
Proof. unfold import_events. now rewrite omap_app, fmap_app. Qed.

Lemma parse_files_declared {RepoConfig} (rt : Runtime RepoConfig)
      res root files w :
  NoDup (repo_locs res) ->
  Forall (fun f => is_Some (file_values rt root f)) files ->
  exists w',
    for_each files (parse_file rt res root) w = (Return tt, w')
    /\ trace w' = trace w ++ import_events root files
    /\ forall C,
         declared (heap w') res C
         = declared (heap w) res C
           ∪ list_to_set (filter (fun o => recorded_as C o = true)
                                 (concat (omap (file_values rt root) files))).
Proof.
  intros Hnd Hall. revert w.
  induction Hall as [|file files [values Hvalues] _ IH]; intros w.
  - exists w. split; [reflexivity|]. split.
    + unfold import_events. simpl. now rewrite app_nil_r.
    + intros C. simpl. now rewrite (right_id_L ∅ (∪)).
  - destruct (parse_file_declared rt res root file values w Hnd Hvalues)
      as (w1 & Hrun1 & Htr1 & Hd1).
    destruct (IH w1) as (w2 & Hrun2 & Htr2 & Hd2).
    exists w2. split; [|split].
    + simpl. now rewrite (bind_Return _ _ _ _ _ Hrun1).
    + rewrite Htr2, Htr1, <- app_assoc.
      now rewrite <- (import_events_app root [file] files).
    + intros C. rewrite Hd2, Hd1. simpl. rewrite Hvalues. simpl.
      rewrite filter_app, list_to_set_app_L. now rewrite (assoc_L (∪)).
Qed.

Lemma members_insert_empty (h : gmap loc (gset Obj)) l l' :
  members h l' = ∅ -> members (<[l := ∅]> h) l' = ∅.
Proof.
  intros H. destruct (decide (l = l')) as [->|Hne].
  - apply members_insert_eq.
  - now rewrite members_insert_ne.
Qed.

Lemma parse_repo_declared {RepoConfig} (rt : Runtime RepoConfig) root w :
  discovery_loads rt root ->
  exists repo w',
    parse_repo rt root w = (Return repo, w')
    /\ repo_ok (heap w') repo
    /\ trace w' = trace w ++ import_events root (get_repo_files (rt_fs rt) root)
    /\ forall C, declared (heap w') repo C = discovered rt root C.
Proof.
  intros Hloads. unfold parse_repo.
  do 6 (erewrite bind_Return by apply new_set_run; cbn [heap trace]).
  pose proof (six_new_sets_ok (heap w)) as Hok. cbv zeta in Hok.
  match goal with
  | |- context [bind (for_each ?xs (parse_file rt ?res root)) _ ?w0] =>
      destruct (parse_files_declared rt res root xs w0 (proj1 Hok) Hloads)
        as (w' & Hrun & Htr & Hd);
      pose proof (steady_for_each xs _ (steady_parse_file rt res root)
                    _ _ _ Hrun) as [Hdom _];
      exists res, w'
  end.
  split; [now rewrite (bind_Return _ _ _ _ _ Hrun)|].
  split; [eapply repo_ok_mono; [exact Hdom|exact Hok]|].
  split; [exact Htr|].
  intros C. rewrite Hd. unfold discovered, discovered_values.
  match goal with
  | |- ?X ∪ _ = _ => assert (X = ∅) as ->
  end.
  { unfold declared. cbn [heap].
    destruct C; cbn [field_of];
      repeat first [ apply members_insert_eq | apply members_insert_empty ]. }
  now rewrite (left_id_L ∅ (∪)).
Qed.

(** Every file of the scan scenario loads. *)
Lemma demo_loads : discovery_loads demo_runtime scenario_root.
Proof.
  unfold discovery_loads.
  change (get_repo_files (rt_fs demo_runtime) scenario_root)
    with [["/"; "repo"; "features.py"]].
  apply List.Forall_cons; [|apply List.Forall_nil].
  eexists. reflexivity.
Defined.

(** C6. Classification during discovery.  Recording one value of a
    module, in a repository whose six sets are distinct: the value joins
    the set of the feature tables when it passes that check, and the set
    of the feature views when it passes that one, whatever the other
    check says; when it is no feature view it joins the set of the first
    of [Entity], [FeatureService], [OnDemandFeatureView],
    [RequestFeatureView] whose check it passes, and no other of these
    four: a check that passes bars the later ones; a value that passes
    no check leaves the world as it was.
    Discovery as a whole, when every scanned file loads, returns six
    distinct sets that hold, for each class, the values of the modules
    so classified. *)
Theorem record_object_classifies :
  (forall (res : ParsedRepo) (obj : Obj) (w : World),
      NoDup (repo_locs res) ->
      exists w',
        record_object res obj w = (Return tt, w')
        /\ trace w' = trace w
        /\ (forall C,
               declared (heap w') res C
               = declared (heap w) res C
                 ∪ (if recorded_as C obj then {[ obj ]} else ∅))
        /\ (isinstance obj FeatureTable = true ->
            isinstance obj FeatureView = true ->
            obj ∈ declared (heap w') res FeatureTable
            /\ obj ∈ declared (heap w') res FeatureView)
        /\ (forall C C',
               C ∈ exclusive_classes -> C' ∈ exclusive_classes ->
               recorded_as C obj = true -> recorded_as C' obj = true -> C = C')
        /\ (forall C C',
               precedes C C' = true -> isinstance obj C = true ->
               recorded_as C' obj = false)
        /\ ((forall C, isinstance obj C = false) -> w' = w))
  /\ (forall (RepoConfig : Type) (rt : Runtime RepoConfig) (root : Path) (w : World),
         discovery_loads rt root ->
         exists repo w',
           parse_repo rt root w = (Return repo, w')
           /\ repo_ok (heap w') repo
           /\ forall C, declared (heap w') repo C = discovered rt root C).
Proof.
  split.
  - intros res obj w Hnd.
    destruct (record_object_declared res obj w Hnd) as (w' & Hrun & Htr & Hall).
    exists w'. split; [exact Hrun|]. split; [exact Htr|].
    split; [exact Hall|]. split; [|split; [|split]].
    + intros Ht Hv. rewrite !Hall. cbn [recorded_as]. rewrite Ht, Hv.
      split; apply elem_of_union_r, elem_of_singleton; reflexivity.
    + apply recorded_as_exclusive.
    + apply recorded_as_priority.
    + intros Hnone. rewrite record_object_run in Hrun.
      rewrite !Hnone in Hrun. injection Hrun as <-. now destruct w.
  - intros RepoConfig rt root w Hloads.
    destruct (parse_repo_declared rt root w Hloads)
      as (repo & w' & Hrun & Hok & _ & Hd).
    exists repo, w'. split; [exact Hrun|]. split; [exact Hok|exact Hd].
Qed.

(** C8. The one call to [store.apply].  Take a run in which the name
    of the project is valid, every scanned file loads, and the sources
    are not validated or all validate.  Then [apply_total] calls
    [store.apply] exactly once, with [partial] false.  Its first list is
    the keep-sets in the order entities, views, services, on-demand
    views, tables, where the keep-set of the views is the declared
    feature views with the declared request feature views; its second
    list is the delete-sets in the same order.  The run returns when
    that call returns and raises when it raises. *)
Theorem apply_total_single_apply
        {RepoConfig : Type} (rt : Runtime RepoConfig)
        (DUMMY_ENTITY_NAME : string) (repo_config : RepoConfig)
        (repo_path : Path) (skip_source_validation : bool) (w : World) :
  let store := new_FeatureStore rt repo_config in
  let proj := project store in
  let reg := registry store in
  is_valid_name proj = true ->
  discovery_loads rt repo_path ->
  skip_source_validation
  || forallb (source_validates store)
             (elements (discovered rt repo_path FeatureView)) = true ->
  let E := discovered rt repo_path Entity in
  let V := discovered rt repo_path FeatureView
           ∪ discovered rt repo_path RequestFeatureView in
  let S := discovered rt repo_path FeatureService in
  let O := discovered rt repo_path OnDemandFeatureView in
  let T := discovered rt repo_path FeatureTable in
  let all_to_apply :=
    elements E ++ elements V ++ elements S ++ elements O ++ elements T in
  let all_to_delete :=
    elements (entities_delete_set DUMMY_ENTITY_NAME E (list_entities reg proj))
    ++ elements (delete_set V (list_feature_views reg proj))
    ++ elements (delete_set S (list_feature_services reg proj))
    ++ elements (delete_set O (list_on_demand_feature_views reg proj))
    ++ elements (delete_set T (list_feature_tables reg proj)) in
  exists w',
    apply_total rt DUMMY_ENTITY_NAME repo_config repo_path skip_source_validation w
    = (if apply_returns store all_to_apply all_to_delete false
       then Return tt else Raise ApplyFailure, w')
    /\ filter (fun ev => is_apply ev = true) (trace w')
       = filter (fun ev => is_apply ev = true) (trace w)
         ++ [EvApply all_to_apply all_to_delete false].
Proof.
  intros store proj reg Hvalid Hloads Hval.
  destruct (parse_repo_declared rt repo_path
              (after w (prelude_events repo_path)) Hloads)
    as (repo & w1 & Hparse & _ & _ & Hd).
  rewrite <- (Hd FeatureView) in Hval.
  pose proof (apply_total_after_discovery rt DUMMY_ENTITY_NAME repo_config
                repo_path skip_source_validation w repo w1
                Hvalid Hparse Hval) as Hrun.
  cbv zeta in Hrun. rewrite !Hd in Hrun. exact Hrun.
Qed.

(** ** The views *)

(** C2, at the input where the code departs from it.  The repository
    declares no feature view and the request feature view [r]; the
    registry holds the feature view [r].  No declared feature view bears
    the name [r], so the delete-set of views in the words of the
    specification is [r]; the function returns an empty delete-set, and
    as keep-set the set of declared feature views itself, to which it has
    added the request feature view. *)
Theorem views_delete_set_at_request_name :
  let run := _tag_registry_views_for_keep_delete
               "demo" request_registry six_repo request_world in
  declared (heap request_world) six_repo FeatureView = ∅
  /\ declared (heap request_world) six_repo RequestFeatureView
     = {[ declared_request_view ]}
  /\ list_feature_views request_registry "demo" = [persisted_view]
  /\ delete_set (declared (heap request_world) six_repo FeatureView)
                (list_feature_views request_registry "demo")
     = {[ persisted_view ]}
  /\ run.1 = Return (feature_views six_repo, 7%positive)
  /\ members (heap run.2) (feature_views six_repo) = {[ declared_request_view ]}
  /\ members (heap run.2) 7%positive = ∅
  /\ members (heap run.2) 7%positive
     <> delete_set (declared (heap request_world) six_repo FeatureView)
                   (list_feature_views request_registry "demo").
Proof.
  intros run.
  assert (Hspec : delete_set (declared (heap request_world) six_repo FeatureView)
                             (list_feature_views request_registry "demo")
                  = {[ persisted_view ]}) by reflexivity.
  assert (Hcode : members (heap run.2) 7%positive = ∅) by reflexivity.
  repeat (split; [reflexivity|]).
  rewrite Hspec, Hcode. intros H. symmetry in H.
  exact (non_empty_singleton_L persisted_view H).
Qed.

(** C3, at the input where the code departs from it.  Tagging the views
    of a repository that declares a request feature view and no feature
    view changes the set of feature views of the repository: the request
    feature view is now a member of it.  The five other sets are as they
    were.  The same holds of the repository that discovery builds from
    the module [features]: its set of feature views is [driver_stats]
    before the call, [driver_stats] and the request feature view [r]
    after it. *)
Theorem views_tagging_changes_repo :
  (let run := _tag_registry_views_for_keep_delete
                "demo" request_registry six_repo request_world in
   declared (heap request_world) six_repo FeatureView = ∅
   /\ declared (heap run.2) six_repo FeatureView = {[ declared_request_view ]}
   /\ declared (heap run.2) six_repo FeatureView
      <> declared (heap request_world) six_repo FeatureView
   /\ Forall (fun C => declared (heap run.2) six_repo C
                       = declared (heap request_world) six_repo C)
             [FeatureTable; Entity; FeatureService;
              OnDemandFeatureView; RequestFeatureView])
  /\ (exists repo w1 d w2,
         parse_repo demo_runtime scenario_root empty_world = (Return repo, w1)
         /\ _tag_registry_views_for_keep_delete "demo" first_registry repo w1
            = (Return (feature_views repo, d), w2)
         /\ declared (heap w1) repo FeatureView = {[ declared_view ]}
         /\ declared (heap w2) repo FeatureView
            = {[ declared_view ]} ∪ {[ declared_request_view ]}).
Proof.
  split.
  - intros run.
    assert (Hafter : declared (heap run.2) six_repo FeatureView
                     = {[ declared_request_view ]}) by reflexivity.
    split; [reflexivity|]. split; [exact Hafter|]. split.
    + rewrite Hafter. apply non_empty_singleton_L.
    + repeat (constructor; [reflexivity|]). constructor.
  - destruct (parse_repo_declared demo_runtime scenario_root empty_world demo_loads)
      as (repo & w1 & Hrun & Hok & _ & Hd).
    pose proof (repo_locs_in_dom repo (heap w1) Hok FeatureView) as Hfv.
    cbn [field_of] in Hfv.
    exists repo, w1. do 2 eexists. split; [exact Hrun|].
    split; [apply (tag_views_run _ _ _ _ Hfv)|]. cbn [heap].
    split; [rewrite (Hd FeatureView); reflexivity|].
    unfold declared at 1. cbn [field_of].
    rewrite members_insert_ne by (apply fresh_ne, Hfv).
    rewrite members_insert_eq.
    change (members (heap w1) (feature_views repo))
      with (declared (heap w1) repo FeatureView).
    change (members (heap w1) (request_feature_views repo))
      with (declared (heap w1) repo RequestFeatureView).
    rewrite !Hd. reflexivity.
Qed.

(** ** The statements at concrete inputs *)

Lemma six_repo_distinct : NoDup (repo_locs six_repo).
Proof.
  unfold repo_locs, all_classes, six_repo. cbn [fmap list_fmap field_of].
  repeat (apply NoDup_cons; split); [..|apply NoDup_nil];
    rewrite ?not_elem_of_cons; repeat split; try discriminate; apply not_elem_of_nil.
Defined.

Lemma six_world_ok tables views odfvs rfvs ents services :
  repo_ok (heap (six_world tables views odfvs rfvs ents services)) six_repo.
Proof.
  split; [exact six_repo_distinct|].
  unfold repo_locs, all_classes, six_repo. cbn [fmap list_fmap field_of].
  repeat (apply List.Forall_cons; [apply elem_of_dom; eexists; reflexivity|]).
  apply List.Forall_nil.
Defined.

Lemma full_world_again_ok : repo_ok (heap full_world_again) six_repo.
Proof.
  split; [exact six_repo_distinct|].
  unfold repo_locs, all_classes, six_repo. cbn [fmap list_fmap field_of].
  repeat (apply List.Forall_cons; [apply elem_of_dom; eexists; reflexivity|]).
  apply List.Forall_nil.
Defined.

Lemma full_world_again_names C :
  names_of (declared (heap full_world_again) six_repo C)
  = names_of (declared (heap full_world) six_repo C).
Proof.
  destruct C;
    [ change (names_of {[ parsed_again declared_table ]}
              = names_of {[ declared_table ]})
    | change (names_of {[ parsed_again declared_view ]}
              = names_of {[ declared_view ]})
    | change (names_of {[ parsed_again declared_user ]}
              = names_of {[ declared_user ]})
    | change (names_of {[ parsed_again declared_service ]}
              = names_of {[ declared_service ]})
    | change (names_of {[ parsed_again declared_odfv ]}
              = names_of {[ declared_odfv ]})
    | change (names_of {[ parsed_again declared_request_view ]}
              = names_of {[ declared_request_view ]}) ];
    now rewrite !names_of_singleton.
Defined.

(** The entities of the scenario, with [__dummy] as the dummy name. *)
Lemma entities_keep_delete_witness :
  entities six_repo ∈ dom (heap entities_world)
  /\ "__dummy" <> "driver"
  /\ (exists d w',
         _tag_registry_entities_for_keep_delete
           "__dummy" "demo" (entities_registry "__dummy") six_repo entities_world
         = (Return (entities six_repo, d), w')
         /\ members (heap w') (entities six_repo)
            = members (heap entities_world) (entities six_repo)
         /\ (forall e,
                e ∈ members (heap w') d <->
                e ∈ list_entities (entities_registry "__dummy") "demo"
                /\ (forall x, x ∈ members (heap entities_world) (entities six_repo) ->
                              name x <> name e)
                /\ name e <> "__dummy")
         /\ (forall e, name e = "__dummy" -> e ∉ members (heap w') d))
  /\ (exists d w',
         _tag_registry_entities_for_keep_delete
           "__dummy" "demo" (entities_registry "__dummy") six_repo entities_world
         = (Return (entities six_repo, d), w')
         /\ members (heap w') (entities six_repo) = {[ declared_user ]}
         /\ members (heap w') d = {[ persisted_driver ]}).
Proof.
  assert (Hdom : entities six_repo ∈ dom (heap entities_world))
    by (apply elem_of_dom; eexists; reflexivity).
  assert (Hne : "__dummy" <> "driver") by discriminate.
  split; [exact Hdom|]. split; [exact Hne|]. split.
  - exact (proj1 (entities_keep_delete "__dummy") "demo"
             (entities_registry "__dummy") six_repo entities_world Hdom).
  - exact (proj2 (entities_keep_delete "__dummy") Hne).
Defined.

(** Two runs over the repository with one object of each kind; the
    second run parses the repository anew, and its registry lists copies
    of what the first run kept. *)
Lemma reconciliation_idempotent_witness :
  exists plan2 w2',
    reconciliation_plan "__dummy" "demo" second_registry six_repo full_world_again
    = (Return plan2, w2')
    /\ (members (heap w2') (entities_to_delete plan2) = ∅
        /\ members (heap w2') (views_to_delete plan2) = ∅
        /\ members (heap w2') (odfvs_to_delete plan2) = ∅
        /\ members (heap w2') (tables_to_delete plan2) = ∅
        /\ members (heap w2') (services_to_delete plan2) = ∅)
    /\ members (heap w2') (entities_to_keep plan2)
       = {[ parsed_again declared_user ]}
    /\ members (heap w2') (views_to_keep plan2)
       = {[ parsed_again declared_view ]} ∪ {[ parsed_again declared_request_view ]}.
Proof.
  pose proof (six_world_ok {[ declared_table ]} {[ declared_view ]}
                {[ declared_odfv ]} {[ declared_request_view ]}
                {[ declared_user ]} {[ declared_service ]}) as Hok.
  edestruct (reconciliation_idempotent
               "__dummy" "demo" first_registry second_registry
               six_repo six_repo full_world full_world_again)
    as (plan2 & w2' & Hrun & Hdel & Hkeep & _).
  - exact Hok.
  - exact full_world_again_ok.
  - exact full_world_again_names.
  - exact (reconciliation_plan_run "__dummy" "demo" first_registry six_repo _ Hok []).
  - cbn [heap entities_to_keep].
    change (entities six_repo) with (field_of Entity six_repo).
    rewrite (tagged_other "__dummy" "demo" first_registry six_repo _ Hok Entity)
      by discriminate.
    intros o [->|[->|[]%elem_of_nil]%elem_of_cons]%elem_of_cons; [left|now right].
    apply elem_of_names_of. exists declared_user.
    split; [now apply elem_of_singleton|reflexivity].
  - cbn [heap views_to_keep].
    rewrite (tagged_views "__dummy" "demo" first_registry six_repo _ Hok).
    intros o [->|[]%elem_of_nil]%elem_of_cons.
    apply elem_of_names_of. exists declared_view.
    split; [apply elem_of_union_l; now apply elem_of_singleton|reflexivity].
  - cbn [heap odfvs_to_keep].
    change (on_demand_feature_views six_repo)
      with (field_of OnDemandFeatureView six_repo).
    rewrite (tagged_other "__dummy" "demo" first_registry six_repo _ Hok
               OnDemandFeatureView) by discriminate.
    intros o [->|[]%elem_of_nil]%elem_of_cons.
    apply elem_of_names_of. exists declared_odfv.
    split; [now apply elem_of_singleton|reflexivity].
  - cbn [heap tables_to_keep].
    change (feature_tables six_repo) with (field_of FeatureTable six_repo).
    rewrite (tagged_other "__dummy" "demo" first_registry six_repo _ Hok
               FeatureTable) by discriminate.
    intros o [->|[]%elem_of_nil]%elem_of_cons.
    apply elem_of_names_of. exists declared_table.
    split; [now apply elem_of_singleton|reflexivity].
  - cbn [heap services_to_keep].
    change (feature_services six_repo) with (field_of FeatureService six_repo).
    rewrite (tagged_other "__dummy" "demo" first_registry six_repo _ Hok
               FeatureService) by discriminate.
    intros o [->|[]%elem_of_nil]%elem_of_cons.
    apply elem_of_names_of. exists declared_service.
    split; [now apply elem_of_singleton|reflexivity].
  - exists plan2, w2'. split; [exact Hrun|]. split; [exact Hdel|].
    destruct Hkeep as (He & Hv & _). split; [exact He|exact Hv].
Defined.

(** An object that is a feature table and a feature view is recorded as
    both; discovery over the repository of the scan scenario. *)
Lemma record_object_classifies_witness :
  NoDup (repo_locs six_repo)
  /\ discovery_loads demo_runtime scenario_root
  /\ (exists w',
         record_object six_repo table_and_view entities_world = (Return tt, w')
         /\ table_and_view ∈ declared (heap w') six_repo FeatureTable
         /\ table_and_view ∈ declared (heap w') six_repo FeatureView
         /\ declared (heap w') six_repo Entity = {[ declared_user ]})
  /\ (exists repo w',
         parse_repo demo_runtime scenario_root empty_world = (Return repo, w')
         /\ declared (heap w') repo Entity = {[ declared_user ]}
         /\ declared (heap w') repo RequestFeatureView
            = {[ declared_request_view ]}
         /\ declared (heap w') repo OnDemandFeatureView = ∅).
Proof.
  split; [exact six_repo_distinct|]. split; [exact demo_loads|]. split.
  - destruct (proj1 record_object_classifies six_repo table_and_view
                entities_world six_repo_distinct)
      as (w' & Hrun & _ & Hall & Hboth & _).
    exists w'. split; [exact Hrun|].
    destruct (Hboth eq_refl eq_refl) as [Ht Hv].
    split; [exact Ht|]. split; [exact Hv|].
    rewrite (Hall Entity). reflexivity.
  - destruct (proj2 record_object_classifies string demo_runtime scenario_root
                empty_world demo_loads)
      as (repo & w' & Hrun & _ & Hd).
    exists repo, w'. split; [exact Hrun|].
    rewrite !Hd. repeat split; reflexivity.
Defined.

(** The project [_bad]. *)
Lemma apply_total_rejects_invalid_project_witness :
  naming_rule (project (new_FeatureStore demo_runtime "_bad")) = false
  /\ exists evs,
       apply_total demo_runtime "__dummy" "_bad" scenario_root false empty_world
       = (SysExit 1, after empty_world evs)
       /\ evs = [EvChdir scenario_root; EvFeatureStore;
                 EvPrint (invalid_project_message "_bad")]
       /\ Forall (fun ev => is_registry_call ev = false) evs.
Proof.
  split; [reflexivity|].
  exact (proj1 apply_total_rejects_invalid_project string demo_runtime "__dummy"
               "_bad" scenario_root false empty_world eq_refl).
Defined.

(** The project [demo] over the repository of the scan scenario. *)
Lemma apply_total_single_apply_witness :
  is_valid_name "demo" = true
  /\ discovery_loads demo_runtime scenario_root
  /\ exists w',
       apply_total demo_runtime "__dummy" "demo" scenario_root false empty_world
       = (Return tt, w')
       /\ filter (fun ev => is_apply ev = true) (trace w')
          = [EvApply
               [declared_user; declared_request_view; declared_view;
                declared_service; declared_table]
               [persisted_driver; persisted_old_view] false].
Proof.
  split; [reflexivity|]. split; [exact demo_loads|].
  destruct (apply_total_single_apply demo_runtime "__dummy" "demo" scenario_root
              false empty_world eq_refl demo_loads eq_refl)
    as (w' & Hrun & Htrace).
  exists w'. split; [exact Hrun|exact Htrace].
Defined.

(** ** Names and module paths *)

Lemma string_app_cons c (a b : string) :
  (String c a ++ b = String c (a ++ b))%string.
Proof. reflexivity. Qed.

Lemma string_app_nil_l (b : string) : ("" ++ b = b)%string.
Proof. reflexivity. Qed.

Lemma forallb_app P a b :
  PyStr.forallb P (a ++ b) = PyStr.forallb P a && PyStr.forallb P b.
Proof.
  induction a as [|c a IH]; [reflexivity|].
  rewrite string_app_cons. cbn [PyStr.forallb]. now rewrite IH, andb_assoc.
Qed.

Lemma prefix_empty s : String.prefix "" s = true.
Proof. now destruct s. Qed.

Lemma prefix_cons a s1 c s2 :
  String.prefix (String a s1) (String c s2) = Ascii.eqb a c && String.prefix s1 s2.
Proof.
  cbn [String.prefix]. destruct (ascii_dec a c) as [->|Hne].
  - now rewrite Ascii.eqb_refl.
  - apply Ascii.eqb_neq in Hne. now rewrite Hne.
Qed.

Lemma startswith_cons_app p c a b :
  PyStr.startswith (String p "") (String c a ++ b)
  = PyStr.startswith (String p "") (String c a).
Proof.
  unfold PyStr.startswith. rewrite ?string_app_nil_l, ?string_app_cons.
  now rewrite !prefix_cons, !prefix_empty.
Qed.

Lemma naming_rule_joined adjective animal :
  naming_rule (adjective ++ "_" ++ animal)
  = negb (PyStr.is_empty adjective) && naming_rule adjective
    && PyStr.forallb PyStr.is_word animal.
Proof.
  unfold naming_rule. destruct adjective as [|c a].
  - unfold PyStr.startswith. rewrite ?string_app_nil_l, ?string_app_cons.
    now rewrite prefix_cons, prefix_empty.
  - rewrite startswith_cons_app, forallb_app.
    change (PyStr.forallb PyStr.is_word ("_" ++ animal))
      with (PyStr.forallb PyStr.is_word animal).
    cbn [PyStr.is_empty negb andb]. now rewrite andb_assoc.
Qed.

Lemma random_choice_None {A} (seq : list A) draw :
  random_choice seq draw = None <-> seq = [].
Proof.
  unfold random_choice. rewrite lookup_ge_None. destruct seq as [|x seq].
  - simpl. split; [reflexivity|lia].
  - split; [|discriminate]. intros H. exfalso.
    pose proof (Nat.mod_upper_bound draw (length (x :: seq))
                  ltac:(simpl; lia)). lia.
Qed.

Lemma random_choice_elem_of {A} (seq : list A) draw x :
  random_choice seq draw = Some x -> x ∈ seq.
Proof. unfold random_choice. apply list_elem_of_lookup_2. Qed.

(** X1. The name that [generate_project_name] builds.  It fails only
    when one of the two lists is empty.  Otherwise the name is an
    adjective of the first list, an underscore and an animal of the
    second; it passes [is_valid_name] exactly when the adjective is not
    empty and passes it, and the animal is made of word characters.  So
    over lists of non-empty valid adjectives and of animals made of word
    characters, every generated name is a valid project name. *)
Theorem generate_project_name_valid
        (adjectives animals : list string) (draw1 draw2 : nat) :
  (generate_project_name adjectives animals draw1 draw2 = None
   <-> adjectives = [] \/ animals = [])
  /\ (forall n,
         generate_project_name adjectives animals draw1 draw2 = Some n ->
         exists adjective animal,
           adjective ∈ adjectives /\ animal ∈ animals
           /\ n = (adjective ++ "_" ++ animal)%string
           /\ is_valid_name n
              = negb (PyStr.is_empty adjective) && is_valid_name adjective
                && PyStr.forallb PyStr.is_word animal)
  /\ (adjectives <> [] -> animals <> [] ->
      Forall (fun a => a <> "" /\ is_valid_name a = true) adjectives ->
      Forall (fun a => PyStr.forallb PyStr.is_word a = true) animals ->
      exists n,
        generate_project_name adjectives animals draw1 draw2 = Some n
        /\ is_valid_name n = true).
Proof.
  assert (Hchar : forall n,
    generate_project_name adjectives animals draw1 draw2 = Some n ->
    exists adjective animal,
      adjective ∈ adjectives /\ animal ∈ animals
      /\ n = (adjective ++ "_" ++ animal)%string
      /\ is_valid_name n
         = negb (PyStr.is_empty adjective) && is_valid_name adjective
           && PyStr.forallb PyStr.is_word animal).
  { intros n. unfold generate_project_name.
    destruct (random_choice adjectives draw1) as [adjective|] eqn:E1;
      [|discriminate].
    destruct (random_choice animals draw2) as [animal|] eqn:E2;
      [|discriminate].
    simpl. intros [= <-]. exists adjective, animal.
    split; [eapply random_choice_elem_of; eassumption|].
    split; [eapply random_choice_elem_of; eassumption|].
    split; [reflexivity|].
    rewrite !is_valid_name_naming_rule. apply naming_rule_joined. }
  assert (Hnone : generate_project_name adjectives animals draw1 draw2 = None
                  <-> adjectives = [] \/ animals = []).
  { unfold generate_project_name.
    destruct (random_choice adjectives draw1) as [adjective|] eqn:E1.
    - destruct (random_choice animals draw2) as [animal|] eqn:E2; simpl.
      + split; [discriminate|]. intros [->| ->]; discriminate.
      + apply random_choice_None in E2. tauto.
    - apply random_choice_None in E1. simpl. tauto. }
  split; [exact Hnone|]. split; [exact Hchar|].
  intros Hadj Hani Hadjs Hanis.
  destruct (generate_project_name adjectives animals draw1 draw2) as [n|] eqn:E.
  - exists n. split; [reflexivity|].
    destruct (Hchar n eq_refl) as (adjective & animal & Ha & Hb & _ & ->).
    rewrite Forall_forall in Hadjs, Hanis.
    destruct (Hadjs _ Ha) as [Hne ->]. rewrite (Hanis _ Hb).
    destruct adjective; [congruence|reflexivity].
  - exfalso. destruct (proj1 Hnone eq_refl); contradiction.
Qed.

Lemma generate_project_name_valid_witness :
  exists n,
    generate_project_name ["brave"; "calm"] ["otter"; "lynx"; "heron"] 7 5 = Some n
    /\ is_valid_name n = true.
Proof.
  apply (generate_project_name_valid ["brave"; "calm"] ["otter"; "lynx"; "heron"] 7 5).
  - discriminate.
  - discriminate.
  - repeat (apply List.Forall_cons; [split; [discriminate|reflexivity]|]).
    apply List.Forall_nil.
  - repeat (apply List.Forall_cons; [reflexivity|]). apply List.Forall_nil.
Defined.

(** *** Valid names as parts of a path *)

Lemma is_word_not_slash c : PyStr.is_word c = true -> Ascii.eqb c "/" = false.
Proof.
  intros H. destruct (Ascii.eqb_spec c "/") as [->|]; [discriminate|reflexivity].
Qed.

Lemma words_plain s : PyStr.forallb PyStr.is_word s = true -> plain_part s = true.
Proof.
  unfold plain_part, slash. induction s as [|c s IH]; simpl; [reflexivity|].
  intros [Hc Hs]%andb_true_iff. now rewrite (is_word_not_slash c Hc), IH.
Qed.

Lemma split_plain s : plain_part s = true -> PyStr.split slash s = [s].
Proof.
  unfold plain_part. induction s as [|c s IH]; simpl; [reflexivity|].
  intros [Hc Hs]%andb_true_iff. apply negb_true_iff in Hc. rewrite Hc.
  now rewrite (IH Hs).
Qed.

Lemma relpath_parts_below (start rel : Path) :
  relpath_parts (start ++ rel) start = rel.
Proof.
  induction start as [|x start IH]; simpl.
  - now destruct rel.
  - now rewrite String.eqb_refl.
Qed.

Lemma parts_of_word name :
  PyStr.forallb PyStr.is_word name = true ->
  parts_of name = if PyStr.is_empty name then [] else [name].
Proof.
  intros Hw. unfold parts_of. rewrite (split_plain _ (words_plain _ Hw)).
  destruct name as [|c name]; simpl.
  - rewrite filter_cons_False by tauto. reflexivity.
  - rewrite filter_cons_True; [reflexivity|]. split; [discriminate|].
    intros [= -> ->]. discriminate.
Qed.

Lemma valid_name_words name :
  is_valid_name name = true -> PyStr.forallb PyStr.is_word name = true.
Proof.
  rewrite is_valid_name_naming_rule. unfold naming_rule.
  now intros [_ Hw]%andb_true_iff.
Qed.

Lemma valid_name_join (name : string) (cwd : Path) :
  is_valid_name name = true ->
  path_of_join cwd name = if PyStr.is_empty name then cwd else path_join cwd name.
Proof.
  intros Hw%valid_name_words. unfold path_of_join.
  assert (PyStr.startswith "/" name = false) as ->.
  { destruct name as [|c name]; [reflexivity|].
    simpl in Hw. apply andb_true_iff in Hw as [Hc _].
    unfold PyStr.startswith. rewrite prefix_cons, Ascii.eqb_sym.
    now rewrite (is_word_not_slash c Hc). }
  rewrite (parts_of_word _ Hw). destruct name; simpl.
  - apply app_nil_r.
  - reflexivity.
Qed.

Lemma valid_name_relpath (name : string) (cwd : Path) :
  is_valid_name name = true ->
  relpath (path_of_join cwd name) cwd = if PyStr.is_empty name then "." else name.
Proof.
  intros Hvalid. rewrite (valid_name_join _ _ Hvalid).
  unfold relpath. destruct name as [|c name]; simpl.
  - rewrite <- (app_nil_r cwd) at 1. now rewrite relpath_parts_below.
  - unfold path_join. now rewrite relpath_parts_below.
Qed.

(** X2. A name that passes [is_valid_name] is one part of a path at
    most: it holds no separator and is neither [.] nor [..].  So the
    directory that [init_repo] makes (line 378) is the child of that
    name of the working directory, and the working directory itself for
    the empty name; the directory named in its message (line 383) is
    the name itself, and [.] for the empty name. *)
Theorem valid_name_is_path_part (name : string) (cwd : Path) :
  is_valid_name name = true ->
  plain_part name = true
  /\ name <> "." /\ name <> ".."
  /\ path_of_join cwd name
     = (if PyStr.is_empty name then cwd else path_join cwd name)
  /\ relpath (path_of_join cwd name) cwd
     = (if PyStr.is_empty name then "." else name).
Proof.
  intros Hvalid. pose proof (valid_name_words _ Hvalid) as Hw.
  split; [now apply words_plain|].
  split; [intros ->; discriminate|].
  split; [intros ->; discriminate|].
  split; [now apply valid_name_join|now apply valid_name_relpath].
Qed.

Lemma valid_name_is_path_part_witness :
  path_of_join ["/"; "work"] "driver_stats" = ["/"; "work"; "driver_stats"]
  /\ relpath (path_of_join ["/"; "work"] "driver_stats") ["/"; "work"]
     = "driver_stats".
Proof.
  destruct (valid_name_is_path_part "driver_stats" ["/"; "work"] eq_refl)
    as (_ & _ & _ & Hjoin & Hrel).
  split; [exact Hjoin|exact Hrel].
Defined.

(** *** Module paths *)

Lemma parts_below_Some p base rel :
  parts_below p base = Some rel <-> p = (base ++ rel)%list.
Proof.
  revert p. induction base as [|b base IH]; intros p; simpl.
  - assert (parts_below p [] = Some p) as -> by now destruct p.
    split; [now intros [= ->]|now intros ->].
  - destruct p as [|x p]; [split; discriminate|].
    simpl. destruct (String.eqb_spec b x) as [->|Hne].
    + rewrite IH. split; [intros ->; reflexivity|now intros [= ->]].
    + split; [discriminate|]. intros [= E _]. congruence.
Qed.

Lemma relative_to_Some p base rel :
  relative_to p base = Some rel
  <-> p = (base ++ rel)%list /\ (base = [] -> is_absolute p = false).
Proof.
  unfold relative_to. destruct base as [|b base].
  - destruct (is_absolute p); split.
    + discriminate.
    + intros [_ H]. discriminate (H eq_refl).
    + intros [= ->]. now split.
    + now intros [-> _].
  - rewrite parts_below_Some. split.
    + intros ->. split; [reflexivity|discriminate].
    + now intros [-> _].
Qed.

Lemma relative_to_None p base :
  relative_to p base = None
  <-> (forall rel, p <> (base ++ rel)%list)
      \/ (base = [] /\ is_absolute p = true).
Proof.
  destruct (relative_to p base) as [rel|] eqn:E.
  - apply relative_to_Some in E as [-> Hrel]. split; [discriminate|].
    intros [H|[-> Habs]]; [now destruct (H rel)|].
    rewrite Hrel in Habs; [discriminate|reflexivity].
  - split; [|reflexivity]. intros _.
    destruct base as [|b base].
    + right. split; [reflexivity|].
      unfold relative_to in E. now destruct (is_absolute p).
    + left. intros rel Hrel.
      assert (relative_to p (b :: base) = Some rel) as H
        by (apply relative_to_Some; split; [exact Hrel|discriminate]).
      congruence.
Qed.

Lemma relative_to_below base rel :
  (base = [] -> is_absolute rel = false) ->
  relative_to (base ++ rel) base = Some rel.
Proof.
  intros H. apply relative_to_Some. split; [reflexivity|].
  intros ->. now apply H.
Qed.

Lemma take_app_length a b : PyStr.take (String.length a) (a ++ b) = a.
Proof.
  induction a as [|c a IH]; [now destruct b|].
  rewrite string_app_cons. cbn [String.length PyStr.take]. now rewrite IH.
Qed.

Lemma string_length_app a b :
  String.length (a ++ b) = (String.length a + String.length b)%nat.
Proof.
  induction a as [|c a IH]; [reflexivity|].
  rewrite string_app_cons. cbn [String.length]. now rewrite IH.
Qed.

Lemma slice_to_suffix a b :
  b <> "" -> PyStr.slice_to (- Z.of_nat (String.length b)) (a ++ b) = a.
Proof.
  intros Hb. unfold PyStr.slice_to.
  assert (0 < String.length b)%nat by (destruct b; [congruence|simpl; lia]).
  destruct (Z.ltb_spec (- Z.of_nat (String.length b)) 0) as [_|]; [|lia].
  rewrite string_length_app.
  replace (Z.to_nat (Z.of_nat (String.length a + String.length b)
                     + - Z.of_nat (String.length b)))
    with (String.length a) by lia.
  apply take_app_length.
Qed.

Lemma string_app_assoc (a b c : string) :
  ((a ++ b) ++ c = a ++ (b ++ c))%string.
Proof.
  induction a as [|x a IH]; [reflexivity|].
  now rewrite !string_app_cons, IH.
Qed.

Lemma string_app_nil_r (a : string) : (a ++ "" = a)%string.
Proof.
  induction a as [|x a IH]; [reflexivity|].
  now rewrite string_app_cons, IH.
Qed.

Lemma concat_cons sep x y ys :
  String.concat sep (x :: y :: ys)
  = (x ++ sep ++ String.concat sep (y :: ys))%string.
Proof. reflexivity. Qed.

Lemma concat_snoc_suffix sep (dirs : list string) x y :
  String.concat sep (dirs ++ [(x ++ y)%string])
  = (String.concat sep (dirs ++ [x]) ++ y)%string.
Proof.
  induction dirs as [|d dirs IH]; [reflexivity|].
  rewrite <- !app_comm_cons. destruct dirs as [|d' dirs].
  - cbn [app]. rewrite !concat_cons. cbn [String.concat].
    now rewrite !string_app_assoc.
  - rewrite <- !app_comm_cons in *. rewrite !concat_cons, IH.
    now rewrite !string_app_assoc.
Qed.

(** Replacing the separator by a dot. *)
Lemma replace_slash_plain x rest :
  plain_part x = true ->
  PyStr.replace "/" "." (x ++ rest) = (x ++ PyStr.replace "/" "." rest)%string.
Proof.
  unfold plain_part, PyStr.replace. induction x as [|c x IH]; [reflexivity|].
  cbn [PyStr.forallb]. intros [Hc Hx]%andb_true_iff. apply negb_true_iff in Hc.
  rewrite ?string_app_nil_l, ?string_app_cons; cbn [PyStr.replace_from].
  rewrite prefix_cons, Ascii.eqb_sym. unfold slash in Hc. rewrite Hc.
  cbn [andb]. now rewrite (IH Hx).
Qed.

Lemma replace_slash_sep rest :
  PyStr.replace "/" "." ("/" ++ rest)
  = ("." ++ PyStr.replace "/" "." rest)%string.
Proof.
  unfold PyStr.replace. rewrite ?string_app_nil_l, ?string_app_cons; cbn [PyStr.replace_from].
  rewrite prefix_cons, prefix_empty. reflexivity.
Qed.

Lemma replace_slash_concat (parts : list string) :
  Forall (fun p => plain_part p = true) parts ->
  PyStr.replace "/" "." (String.concat "/" parts) = String.concat "." parts.
Proof.
  induction 1 as [|p parts Hp _ IH]; [reflexivity|].
  destruct parts as [|q parts].
  - cbn [String.concat]. rewrite <- (string_app_nil_r p) at 1.
    rewrite (replace_slash_plain _ _ Hp). apply string_app_nil_r.
  - rewrite !concat_cons, (replace_slash_plain _ _ Hp), replace_slash_sep.
    now rewrite IH.
Qed.

Lemma prefix_slash_plain x : plain_part x = true -> String.prefix "/" x = false.
Proof.
  unfold plain_part. destruct x as [|c x]; [reflexivity|].
  cbn [PyStr.forallb]. intros [Hc _]%andb_true_iff. apply negb_true_iff in Hc.
  rewrite prefix_cons, Ascii.eqb_sym. unfold slash in Hc. now rewrite Hc.
Qed.

Lemma prefix_slash_app x y :
  plain_part x = true -> String.prefix "/" y = false ->
  String.prefix "/" (x ++ y) = false.
Proof.
  destruct x as [|c x]; [intros _ H; now rewrite string_app_nil_l|].
  intros Hp _. pose proof (prefix_slash_plain _ Hp) as H.
  rewrite string_app_cons. rewrite prefix_cons in H |- *.
  apply andb_false_iff in H as [H|H]; [now rewrite H|].
  now rewrite prefix_empty in H.
Qed.

(** A file named by plain parts is not absolute. *)
Lemma plain_parts_relative (dirs : list string) (stem : string) :
  Forall (fun d => plain_part d = true /\ ends_with dot d = false) dirs ->
  plain_part stem = true ->
  is_absolute (dirs ++ [(stem ++ ".py")%string]) = false.
Proof.
  intros Hdirs Hstem. destruct Hdirs as [|d dirs [Hd _] _]; cbn [app is_absolute].
  - now apply prefix_slash_app.
  - now apply prefix_slash_plain.
Qed.

(** Dropping [./]. *)
Lemma replace_dot_slash_last x :
  plain_part x = true -> PyStr.replace "./" "" x = x.
Proof.
  unfold PyStr.replace. induction x as [|c x IH]; [reflexivity|].
  intros Hp. assert (Hx : plain_part x = true).
  { unfold plain_part in *. cbn [PyStr.forallb] in Hp.
    now apply andb_true_iff in Hp. }
  cbn [PyStr.replace_from].
  rewrite prefix_cons, (prefix_slash_plain x Hx), andb_false_r.
  now rewrite (IH Hx).
Qed.

Lemma replace_dot_slash_dir x rest :
  plain_part x = true -> ends_with dot x = false ->
  PyStr.replace "./" "" (x ++ String "/" rest)
  = (x ++ String "/" (PyStr.replace "./" "" rest))%string.
Proof.
  unfold PyStr.replace. induction x as [|c x IH].
  - intros _ _. rewrite !string_app_nil_l. cbn [PyStr.replace_from].
    rewrite prefix_cons. reflexivity.
  - intros Hp He. assert (Hx : plain_part x = true).
    { unfold plain_part in *. cbn [PyStr.forallb] in Hp.
      now apply andb_true_iff in Hp. }
    assert (Hex : ends_with dot x = false) by (destruct x; [reflexivity|exact He]).
    rewrite !(string_app_cons c x). cbn [PyStr.replace_from].
    assert (Ascii.eqb "." c && String.prefix "/" (x ++ String "/" rest) = false)
      as Hpre.
    { destruct x as [|d x].
      - cbn [ends_with] in He. unfold dot in He.
        rewrite Ascii.eqb_sym, He. reflexivity.
      - rewrite (string_app_cons d x).
        unfold plain_part in Hx. cbn [PyStr.forallb] in Hx.
        apply andb_true_iff in Hx as [Hd _]. apply negb_true_iff in Hd.
        rewrite prefix_cons, (Ascii.eqb_sym "/" d). unfold slash in Hd.
        rewrite Hd. apply andb_false_r. }
    rewrite prefix_cons, Hpre. now rewrite (IH Hx Hex).
Qed.

Lemma replace_dot_slash_concat (dirs : list string) stem :
  Forall (fun d => plain_part d = true /\ ends_with dot d = false) dirs ->
  plain_part stem = true ->
  PyStr.replace "./" "" (String.concat "/" (dirs ++ [stem])%list)
  = String.concat "/" (dirs ++ [stem])%list.
Proof.
  intros Hdirs Hstem. induction Hdirs as [|d dirs [Hp He] _ IH].
  - now apply replace_dot_slash_last.
  - rewrite <- app_comm_cons.
    destruct (dirs ++ [stem]) as [|q qs] eqn:E.
    { now destruct dirs. }
    rewrite concat_cons.
    change ("/" ++ String.concat "/" (q :: qs))%string
      with (String "/" (String.concat "/" (q :: qs))).
    rewrite (replace_dot_slash_dir _ _ Hp He). now rewrite IH.
Qed.

Lemma py_path_to_module_join (repo_root : Path) (dirs : list string) (stem : string) :
  Forall (fun d => plain_part d = true /\ ends_with dot d = false) dirs ->
  plain_part stem = true ->
  py_path_to_module (repo_root ++ dirs ++ [(stem ++ ".py")%string]) repo_root
  = Some (String.concat "." (dirs ++ [stem])).
Proof.
  intros Hdirs Hstem. unfold py_path_to_module.
  rewrite relative_to_below by (intros _; now apply plain_parts_relative).
  simpl. f_equal. unfold path_str.
  destruct (dirs ++ [(stem ++ ".py")%string]) as [|q qs] eqn:E.
  { now destruct dirs. }
  rewrite <- E. clear E q qs.
  rewrite concat_snoc_suffix.
  rewrite (slice_to_suffix _ ".py") by discriminate.
  rewrite (replace_dot_slash_concat _ _ Hdirs Hstem).
  apply replace_slash_concat.
  apply Forall_app. split.
  + eapply Forall_impl; [exact Hdirs|]. now intros d [Hd _].
  + apply List.Forall_cons; [exact Hstem|apply List.Forall_nil].
Qed.

(** X3. The module path of a definition file.  There is none
    ([relative_to] raises [ValueError]) in two cases, and in these
    only: the parts of the file do not begin with the parts of the root;
    or the root has no parts, as [Path(".")], and the file is absolute,
    as every resolved file is.  For the file [stem.py] in the
    directories [dirs] below the root, when no part holds a separator
    and no directory ends in a dot, it is the parts joined by dots,
    without the extension. *)
Theorem py_path_to_module_dotted (repo_root : Path) :
  (forall path,
      py_path_to_module path repo_root = None
      <-> (forall rel, path <> (repo_root ++ rel)%list)
          \/ (repo_root = [] /\ is_absolute path = true))
  /\ (forall (dirs : list string) (stem : string),
         Forall (fun d => plain_part d = true /\ ends_with dot d = false) dirs ->
         plain_part stem = true ->
         py_path_to_module (repo_root ++ dirs ++ [(stem ++ ".py")%string]) repo_root
         = Some (String.concat "." (dirs ++ [stem]))).
Proof.
  split.
  - intros path. rewrite <- relative_to_None. unfold py_path_to_module.
    destruct (relative_to path repo_root) as [rel|]; simpl.
    + split; discriminate.
    + split; reflexivity.
  - apply py_path_to_module_join.
Qed.

Lemma py_path_to_module_dotted_witness :
  py_path_to_module ["/"; "repo"; "features"; "driver"; "stats.py"] ["/"; "repo"]
  = Some "features.driver.stats"
  /\ py_path_to_module ["features"; "driver"; "stats.py"] []
     = Some "features.driver.stats"
  /\ py_path_to_module ["/"; "repo"; "features.py"] [] = None
  /\ py_path_to_module ["/"; "repo"; "features.py"] ["repo"] = None.
Proof.
  assert (Hdirs : Forall (fun d => plain_part d = true /\ ends_with dot d = false)
                         ["features"; "driver"]).
  { repeat (apply List.Forall_cons; [split; reflexivity|]). apply List.Forall_nil. }
  split; [|split; [|split]].
  - exact (proj2 (py_path_to_module_dotted ["/"; "repo"])
                 ["features"; "driver"] "stats" Hdirs eq_refl).
  - exact (proj2 (py_path_to_module_dotted [])
                 ["features"; "driver"] "stats" Hdirs eq_refl).
  - apply (proj1 (py_path_to_module_dotted [])). right. now split.
  - apply (proj1 (py_path_to_module_dotted ["repo"])). left.
    intros rel. discriminate.
Defined.

Lemma replace_dot_slash_at a b :
  plain_part a = true -> plain_part b = true ->
  PyStr.replace "./" "" (a ++ String "." (String "/" b)) = (a ++ b)%string.
Proof.
  intros Ha Hb. unfold PyStr.replace. induction a as [|c a IH].
  - rewrite !string_app_nil_l. cbn [PyStr.replace_from].
    rewrite !prefix_cons, prefix_empty. cbn [Ascii.eqb Bool.eqb andb].
    cbn [String.length Nat.sub PyStr.replace_from].
    now apply replace_dot_slash_last.
  - assert (Hx : plain_part a = true).
    { unfold plain_part in *. cbn [PyStr.forallb] in Ha.
      now apply andb_true_iff in Ha. }
    rewrite !(string_app_cons c a). cbn [PyStr.replace_from].
    assert (String.prefix "/" (a ++ String "." (String "/" b)) = false) as Hpre.
    { destruct a as [|d a].
      - rewrite string_app_nil_l, prefix_cons. reflexivity.
      - rewrite (string_app_cons d a).
        unfold plain_part in Hx. cbn [PyStr.forallb] in Hx.
        apply andb_true_iff in Hx as [Hd _]. apply negb_true_iff in Hd.
        rewrite prefix_cons, (Ascii.eqb_sym "/" d). unfold slash in Hd.
        now rewrite Hd. }
    rewrite prefix_cons, Hpre, andb_false_r. now rewrite (IH Hx).
Qed.

Lemma plain_part_app a b :
  plain_part (a ++ b) = plain_part a && plain_part b.
Proof. apply forallb_app. Qed.

(** X4. Two definition files can have the same module path, so that
    the second import finds the module of the first.  For parts [a] and
    [b] without a separator, [a] not ending in a dot: the file [b.py] in
    the directory [a] and the file [a.b.py] both have the module path
    [a.b]; and, because [./] is dropped wherever it occurs, the file
    [b.py] in a directory named [a.] has the module path [ab] of the
    file [ab.py]. *)
Theorem py_path_to_module_collisions (repo_root : Path) (a b : string) :
  plain_part a = true -> plain_part b = true -> ends_with dot a = false ->
  py_path_to_module (repo_root ++ [a; (b ++ ".py")%string]) repo_root
  = Some (a ++ "." ++ b)%string
  /\ py_path_to_module (repo_root ++ [(a ++ "." ++ b ++ ".py")%string]) repo_root
     = Some (a ++ "." ++ b)%string
  /\ py_path_to_module (repo_root ++ [(a ++ ".")%string; (b ++ ".py")%string])
                       repo_root
     = Some (a ++ b)%string
  /\ py_path_to_module (repo_root ++ [(a ++ b ++ ".py")%string]) repo_root
     = Some (a ++ b)%string.
Proof.
  intros Ha Hb Hdot. split; [|split; [|split]].
  - apply (py_path_to_module_join repo_root [a] b); [|exact Hb].
    apply List.Forall_cons; [now split|apply List.Forall_nil].
  - replace (a ++ "." ++ b ++ ".py")%string with ((a ++ "." ++ b) ++ ".py")%string
      by now rewrite !string_app_assoc.
    apply (py_path_to_module_join repo_root [] (a ++ "." ++ b)%string);
      [apply List.Forall_nil|].
    rewrite !plain_part_app, Ha, Hb. reflexivity.
  - unfold py_path_to_module.
    rewrite relative_to_below
      by (intros _; cbn [is_absolute]; now apply prefix_slash_app).
    simpl. f_equal.
    replace ((a ++ ".") ++ "/" ++ b ++ ".py")%string
      with ((a ++ String "." (String "/" b)) ++ ".py")%string
      by now rewrite !string_app_assoc.
    rewrite (slice_to_suffix _ ".py") by discriminate.
    rewrite (replace_dot_slash_at _ _ Ha Hb).
    rewrite <- (string_app_nil_r (a ++ b)) at 1.
    rewrite replace_slash_plain by (now rewrite plain_part_app, Ha, Hb).
    apply string_app_nil_r.
  - replace (a ++ b ++ ".py")%string with ((a ++ b) ++ ".py")%string
      by now rewrite !string_app_assoc.
    apply (py_path_to_module_join repo_root [] (a ++ b)%string);
      [apply List.Forall_nil|].
    rewrite plain_part_app, Ha, Hb. reflexivity.
Qed.

Lemma py_path_to_module_collisions_witness :
  py_path_to_module ["/"; "repo"; "features"; "driver.py"] ["/"; "repo"]
  = Some "features.driver"
  /\ py_path_to_module ["/"; "repo"; "features.driver.py"] ["/"; "repo"]
     = Some "features.driver"
  /\ py_path_to_module ["/"; "repo"; "features."; "driver.py"] ["/"; "repo"]
     = Some "featuresdriver"
  /\ py_path_to_module ["/"; "repo"; "featuresdriver.py"] ["/"; "repo"]
     = Some "featuresdriver".
Proof.
  exact (py_path_to_module_collisions ["/"; "repo"] "features" "driver"
           eq_refl eq_refl eq_refl).
Defined.

(** ** More on the scan *)

Lemma find_absent c s :
  PyStr.find c s = -1
  <-> PyStr.forallb (fun d => negb (Ascii.eqb d c)) s = true.
Proof.
  induction s as [|d s IH]; [easy|].
  cbn [PyStr.find PyStr.forallb]. pose proof (find_ge c s) as Hge.
  destruct (Ascii.eqb d c); cbn [negb andb]; [easy|].
  rewrite <- IH. destruct (Z.ltb_spec (PyStr.find c s) 0); lia.
Qed.

Lemma before_hash_plain line :
  PyStr.forallb (fun d => negb (Ascii.eqb d hash)) (before_hash line) = true.
Proof.
  induction line as [|c line IH]; [reflexivity|].
  cbn [before_hash]. destruct (Ascii.eqb c hash) eqn:E; [reflexivity|].
  cbn [PyStr.forallb]. now rewrite E, IH.
Qed.

Lemma lstrip_forallb P s :
  PyStr.forallb P s = true -> PyStr.forallb P (PyStr.lstrip s) = true.
Proof.
  induction s as [|c s IH]; [easy|].
  cbn [PyStr.lstrip]. destruct (PyStr.isspace c); [|easy].
  cbn [PyStr.forallb]. intros [_ Hs]%andb_true_iff. now apply IH.
Qed.

Lemma rstrip_forallb P s :
  PyStr.forallb P s = true -> PyStr.forallb P (PyStr.rstrip s) = true.
Proof.
  induction s as [|c s IH]; [easy|].
  cbn [PyStr.rstrip PyStr.forallb]. intros [Hc Hs]%andb_true_iff.
  destruct (PyStr.is_empty (PyStr.rstrip s) && PyStr.isspace c); [reflexivity|].
  cbn [PyStr.forallb]. now rewrite Hc, IH.
Qed.

Lemma strip_forallb P s :
  PyStr.forallb P s = true -> PyStr.forallb P (PyStr.strip s) = true.
Proof. intros H. now apply rstrip_forallb, lstrip_forallb. Qed.

Lemma rstrip_idem s : PyStr.rstrip (PyStr.rstrip s) = PyStr.rstrip s.
Proof.
  induction s as [|c s IH]; [reflexivity|].
  cbn [PyStr.rstrip].
  destruct (PyStr.is_empty (PyStr.rstrip s) && PyStr.isspace c) eqn:E;
    [reflexivity|].
  cbn [PyStr.rstrip]. now rewrite IH, E.
Qed.

Lemma lstrip_head s :
  PyStr.lstrip s = ""
  \/ exists c t, PyStr.lstrip s = String c t /\ PyStr.isspace c = false.
Proof.
  induction s as [|c s IH]; [now left|].
  cbn [PyStr.lstrip]. destruct (PyStr.isspace c) eqn:E; [exact IH|].
  right. now exists c, s.
Qed.

Lemma strip_idem s : PyStr.strip (PyStr.strip s) = PyStr.strip s.
Proof.
  unfold PyStr.strip.
  assert (H : PyStr.lstrip (PyStr.rstrip (PyStr.lstrip s))
              = PyStr.rstrip (PyStr.lstrip s)).
  { destruct (lstrip_head s) as [->|(c & t & -> & Hc)]; [reflexivity|].
    cbn [PyStr.rstrip]. rewrite Hc, andb_false_r.
    cbn [PyStr.lstrip]. now rewrite Hc. }
  rewrite H. apply rstrip_idem.
Qed.

Lemma split_pieces sep s :
  Forall (fun piece => PyStr.forallb (fun d => negb (Ascii.eqb d sep)) piece = true)
         (PyStr.split sep s).
Proof.
  induction s as [|c s IH].
  - apply List.Forall_cons; [reflexivity|apply List.Forall_nil].
  - cbn [PyStr.split]. destruct (Ascii.eqb c sep) eqn:E.
    + apply List.Forall_cons; [reflexivity|exact IH].
    + destruct (PyStr.split sep s) as [|w ws].
      * apply List.Forall_cons; [|apply List.Forall_nil].
        cbn [PyStr.forallb]. now rewrite E.
      * apply Forall_cons in IH as [Hw Hws].
        apply List.Forall_cons; [|exact Hws].
        cbn [PyStr.forallb]. now rewrite E, Hw.
Qed.

Lemma before_hash_forallb P line :
  PyStr.forallb P line = true -> PyStr.forallb P (before_hash line) = true.
Proof.
  induction line as [|c line IH]; [easy|].
  cbn [before_hash PyStr.forallb]. intros [Hc Hs]%andb_true_iff.
  destruct (Ascii.eqb c hash); [reflexivity|].
  cbn [PyStr.forallb]. now rewrite Hc, IH.
Qed.

Lemma pattern_of_line_Some line p :
  pattern_of_line line = Some p ->
  p = PyStr.strip (before_hash line) /\ p <> "".
Proof.
  unfold pattern_of_line.
  destruct (PyStr.strip (before_hash line)) as [|c t] eqn:E; [discriminate|].
  intros [= <-]. split; [reflexivity|discriminate].
Qed.

(** X5. The patterns that [read_feastignore] returns.  Each one is
    not empty, holds no [#] and no line break, and has no white space at
    either end: stripping it again changes nothing. *)
Theorem read_feastignore_patterns (fs : FileSystem) (repo_root : Path) :
  Forall (fun p => p <> ""
                   /\ PyStr.find hash p = -1
                   /\ PyStr.find newline p = -1
                   /\ PyStr.strip p = p)
         (read_feastignore fs repo_root).
Proof.
  rewrite read_feastignore_spec.
  destruct (is_file fs (path_join repo_root ".feastignore"));
    [|apply List.Forall_nil].
  pose proof (split_pieces newline
                (PyStr.strip (read_text fs (path_join repo_root ".feastignore"))))
    as Hpieces.
  induction Hpieces as [|line lines Hline _ IH]; [apply List.Forall_nil|].
  cbn [omap list_omap].
  destruct (pattern_of_line line) as [p|] eqn:E; [|exact IH].
  apply List.Forall_cons; [|exact IH].
  apply pattern_of_line_Some in E as [-> Hne].
  split; [exact Hne|]. split; [|split].
  - apply find_absent, strip_forallb, before_hash_plain.
  - apply find_absent, strip_forallb, before_hash_forallb, Hline.
  - apply strip_idem.
Qed.

(** X6. The ignored files depend on the set of the patterns only: the
    order of the patterns and their repetition do not matter.  More
    patterns ignore more files, and the files ignored by two lists of
    patterns together are those ignored by one or by the other. *)
Theorem get_ignore_files_patterns_as_set
        (fs : FileSystem) (repo_root : Path) (pats1 pats2 : list string) :
  get_ignore_files fs repo_root (pats1 ++ pats2)
  = get_ignore_files fs repo_root pats1 ∪ get_ignore_files fs repo_root pats2
  /\ ((forall pat, pat ∈ pats1 -> pat ∈ pats2) ->
      get_ignore_files fs repo_root pats1 ⊆ get_ignore_files fs repo_root pats2)
  /\ ((forall pat, pat ∈ pats1 <-> pat ∈ pats2) ->
      get_ignore_files fs repo_root pats1 = get_ignore_files fs repo_root pats2).
Proof.
  assert (Hmono : forall l1 l2 : list string,
             (forall pat, pat ∈ l1 -> pat ∈ l2) ->
             get_ignore_files fs repo_root l1 ⊆ get_ignore_files fs repo_root l2).
  { intros l1 l2 Hsub p. rewrite !get_ignore_files_spec.
    intros (pat & m & Hpat & Hrest). exists pat, m. split; [auto|exact Hrest]. }
  split; [|split].
  - rewrite !get_ignore_files_union, fmap_app. apply union_list_app_L.
  - apply Hmono.
  - intros Heq. apply set_eq. intros p. split; apply Hmono; intros pat; apply Heq.
Qed.

Lemma get_ignore_files_patterns_as_set_witness :
  get_ignore_files nested_fs scenario_root ["venv/**"; "scratch.py"]
  = get_ignore_files nested_fs scenario_root ["scratch.py"; "venv/**"; "scratch.py"].
Proof.
  apply (get_ignore_files_patterns_as_set nested_fs scenario_root
           ["venv/**"; "scratch.py"] ["scratch.py"; "venv/**"; "scratch.py"]).
  intros pat. rewrite !elem_of_cons, !elem_of_nil. tauto.
Defined.

Lemma py_files_under_same (fs1 fs2 : FileSystem) base :
  (forall b pat x, x ∈ glob fs1 b pat <-> x ∈ glob fs2 b pat) ->
  (forall p, is_file fs1 p = is_file fs2 p) ->
  (forall p, resolve fs1 p = resolve fs2 p) ->
  py_files_under fs1 base = py_files_under fs2 base.
Proof.
  intros Hglob Hfile Hres. apply set_eq. intros p.
  rewrite !py_files_under_spec. split; intros (q & Hq & Hf & ->); exists q.
  - rewrite <- Hglob, <- Hfile, <- Hres. auto.
  - rewrite Hglob, Hfile, Hres. auto.
Qed.

Lemma get_ignore_files_same (fs1 fs2 : FileSystem) root pats :
  (forall b pat x, x ∈ glob fs1 b pat <-> x ∈ glob fs2 b pat) ->
  (forall p, is_file fs1 p = is_file fs2 p) ->
  (forall p, resolve fs1 p = resolve fs2 p) ->
  get_ignore_files fs1 root pats = get_ignore_files fs2 root pats.
Proof.
  intros Hglob Hfile Hres. apply set_eq. intros p.
  rewrite !get_ignore_files_spec.
  split; intros (pat & m & Hpat & Hm & Hp); exists pat, m.
  - split; [exact Hpat|]. split; [now apply Hglob|].
    rewrite <- Hfile. destruct (is_file fs1 m).
    + now rewrite <- Hres.
    + destruct Hp as (q & Hq & Hf & ->). exists q.
      rewrite <- Hglob, <- Hfile, <- Hres. auto.
  - split; [exact Hpat|]. split; [now apply Hglob|].
    rewrite Hfile. destruct (is_file fs2 m).
    + now rewrite Hres.
    + destruct Hp as (q & Hq & Hf & ->). exists q.
      rewrite Hglob, Hfile, Hres. auto.
Qed.

(** X7. The scan does not depend on the order in which [glob] yields
    its matches, nor on their repetition: two file systems that answer
    every [glob] with the same matches, in any order, and agree on
    [is_file], [resolve] and [read_text], give the same list of
    definition files. *)
Theorem get_repo_files_glob_order (fs1 fs2 : FileSystem) (repo_root : Path) :
  (forall base pattern x, x ∈ glob fs1 base pattern <-> x ∈ glob fs2 base pattern) ->
  (forall p, is_file fs1 p = is_file fs2 p) ->
  (forall p, resolve fs1 p = resolve fs2 p) ->
  (forall p, read_text fs1 p = read_text fs2 p) ->
  get_repo_files fs1 repo_root = get_repo_files fs2 repo_root.
Proof.
  intros Hglob Hfile Hres Htext.
  assert (Hpats : read_feastignore fs1 repo_root = read_feastignore fs2 repo_root).
  { unfold read_feastignore. now rewrite Hfile, Htext. }
  unfold get_repo_files. rewrite Hpats.
  rewrite (py_files_under_same fs1 fs2 repo_root Hglob Hfile Hres).
  now rewrite (get_ignore_files_same fs1 fs2 repo_root _ Hglob Hfile Hres).
Qed.

Lemma get_repo_files_glob_order_witness :
  get_repo_files nested_fs scenario_root
  = get_repo_files (reversed_fs nested_fs) scenario_root.
Proof.
  apply (get_repo_files_glob_order nested_fs (reversed_fs nested_fs) scenario_root).
  - intros base pattern x. cbn [reversed_fs glob]. now rewrite elem_of_reverse.
  - reflexivity.
  - reflexivity.
  - reflexivity.
Defined.

(** X8. The scan is complete: a path is in the list exactly when it is
    the resolved path of a regular file that [**/*.py] yields under the
    root and is not ignored.  Without an ignore file, the list is all of
    these files. *)
Theorem get_repo_files_complete (fs : FileSystem) (repo_root : Path) :
  (forall p,
      p ∈ get_repo_files fs repo_root <->
      (exists q, q ∈ glob fs repo_root "**/*.py" /\ is_file fs q = true
                 /\ p = resolve fs q)
      /\ p ∉ get_ignore_files fs repo_root (read_feastignore fs repo_root))
  /\ (is_file fs (path_join repo_root ".feastignore") = false ->
      get_repo_files fs repo_root = sorted (py_files_under fs repo_root)).
Proof.
  split.
  - intros p. now rewrite get_repo_files_spec, py_files_under_spec.
  - intros Hno. unfold get_repo_files, read_feastignore. rewrite Hno.
    cbn [negb]. unfold get_ignore_files. cbn [fold_left].
    now rewrite difference_empty_L.
Qed.

Lemma get_repo_files_complete_witness :
  get_repo_files (rt_fs bare_runtime) scenario_root
  = sorted (py_files_under (rt_fs bare_runtime) scenario_root).
Proof.
  apply (proj2 (get_repo_files_complete (rt_fs bare_runtime) scenario_root)).
  reflexivity.
Defined.

(** ** More on the tagging functions *)

Lemma fresh_not_in_dom (h : gmap loc (gset Obj)) : fresh (dom h) ∉ dom h.
Proof. apply is_fresh. Qed.

Lemma members_new_set_frame (h : gmap loc (gset Obj)) s l :
  l ∈ dom h -> members (<[fresh (dom h) := s]> h) l = members h l.
Proof. intros Hl. apply members_insert_ne, fresh_ne, Hl. Qed.

(** X9. Tagging the feature tables.  The keep-set is the set of the
    repository itself; the delete-set is a new set; no set that was in
    the store has changed; the delete-set holds exactly the listed
    tables whose name no declared table bears; the registry has been
    asked for one listing. *)
Theorem tables_keep_delete
        (project : string) (registry : Registry) (repo : ParsedRepo) (w : World) :
  exists d w',
    _tag_registry_tables_for_keep_delete project registry repo w
    = (Return (feature_tables repo, d), w')
    /\ (d ∉ dom (heap w))
    /\ (forall l, l ∈ dom (heap w) -> members (heap w') l = members (heap w) l)
    /\ (forall t,
           t ∈ members (heap w') d <->
           t ∈ list_feature_tables registry project
           /\ forall x, x ∈ members (heap w) (feature_tables repo) ->
                        name x <> name t)
    /\ trace w' = trace w ++ [EvList ListFeatureTables project].
Proof.
  rewrite tag_tables_run. eexists _, _. split; [reflexivity|]. cbn [heap trace].
  split; [apply fresh_not_in_dom|]. split; [|split; [|reflexivity]].
  - intros l Hl. now apply members_new_set_frame.
  - intros t. rewrite members_insert_eq. apply elem_of_delete_set.
Qed.

(** X10. Tagging the on-demand feature views: as for the tables. *)
Theorem odfvs_keep_delete
        (project : string) (registry : Registry) (repo : ParsedRepo) (w : World) :
  exists d w',
    _tag_registry_on_demand_feature_views_for_keep_delete project registry repo w
    = (Return (on_demand_feature_views repo, d), w')
    /\ (d ∉ dom (heap w))
    /\ (forall l, l ∈ dom (heap w) -> members (heap w') l = members (heap w) l)
    /\ (forall v,
           v ∈ members (heap w') d <->
           v ∈ list_on_demand_feature_views registry project
           /\ forall x, x ∈ members (heap w) (on_demand_feature_views repo) ->
                        name x <> name v)
    /\ trace w' = trace w ++ [EvList ListOnDemandFeatureViews project].
Proof.
  rewrite tag_odfvs_run. eexists _, _. split; [reflexivity|]. cbn [heap trace].
  split; [apply fresh_not_in_dom|]. split; [|split; [|reflexivity]].
  - intros l Hl. now apply members_new_set_frame.
  - intros t. rewrite members_insert_eq. apply elem_of_delete_set.
Qed.

(** X11. Tagging the feature services: as for the tables. *)
Theorem services_keep_delete
        (project : string) (registry : Registry) (repo : ParsedRepo) (w : World) :
  exists d w',
    _tag_registry_services_for_keep_delete project registry repo w
    = (Return (feature_services repo, d), w')
    /\ (d ∉ dom (heap w))
    /\ (forall l, l ∈ dom (heap w) -> members (heap w') l = members (heap w) l)
    /\ (forall s,
           s ∈ members (heap w') d <->
           s ∈ list_feature_services registry project
           /\ forall x, x ∈ members (heap w) (feature_services repo) ->
                        name x <> name s)
    /\ trace w' = trace w ++ [EvList ListFeatureServices project].
Proof.
  rewrite tag_services_run. eexists _, _. split; [reflexivity|]. cbn [heap trace].
  split; [apply fresh_not_in_dom|]. split; [|split; [|reflexivity]].
  - intros l Hl. now apply members_new_set_frame.
  - intros t. rewrite members_insert_eq. apply elem_of_delete_set.
Qed.

(** X12. Tagging the views, on any repository whose sets of feature
    views and of request feature views are in the store.  The keep-set
    is the set of feature views of the repository itself, and the
    request feature views have been added to it; every other set that
    was in the store is unchanged; the delete-set is a new set that
    holds exactly the listed views whose name neither a declared feature
    view nor a declared request feature view bears.  A second call
    changes the keep-set no more and finds the same delete-set. *)
Theorem views_keep_delete
        (project : string) (registry : Registry) (repo : ParsedRepo) (w : World) :
  feature_views repo ∈ dom (heap w) ->
  request_feature_views repo ∈ dom (heap w) ->
  exists d w',
    _tag_registry_views_for_keep_delete project registry repo w
    = (Return (feature_views repo, d), w')
    /\ (d ∉ dom (heap w))
    /\ members (heap w') (feature_views repo)
       = members (heap w) (feature_views repo)
         ∪ members (heap w) (request_feature_views repo)
    /\ (forall l, l ∈ dom (heap w) -> l <> feature_views repo ->
                  members (heap w') l = members (heap w) l)
    /\ (forall v,
           v ∈ members (heap w') d <->
           v ∈ list_feature_views registry project
           /\ forall x, x ∈ members (heap w) (feature_views repo)
                            ∪ members (heap w) (request_feature_views repo) ->
                        name x <> name v)
    /\ trace w' = trace w ++ [EvList ListFeatureViews project]
    /\ exists d2 w'',
         _tag_registry_views_for_keep_delete project registry repo w'
         = (Return (feature_views repo, d2), w'')
         /\ members (heap w'') (feature_views repo)
            = members (heap w') (feature_views repo)
         /\ members (heap w'') d2 = members (heap w') d.
Proof.
  intros Hfv Hrfv. rewrite (tag_views_run _ _ _ _ Hfv).
  eexists _, _. split; [reflexivity|]. cbn [heap trace].
  set (V := members (heap w) (feature_views repo)).
  set (R := members (heap w) (request_feature_views repo)).
  set (D := delete_set (V ∪ R) (list_feature_views registry project)).
  set (h1 := <[feature_views repo := V ∪ R]> (heap w)).
  assert (Hdom1 : dom h1 = dom (heap w)) by now apply dom_insert_known.
  assert (Hne : fresh (dom (heap w)) <> feature_views repo) by (now apply fresh_ne).
  assert (Hkeep : members (<[fresh (dom (heap w)) := D]> h1) (feature_views repo)
                  = V ∪ R).
  { rewrite members_insert_ne by exact Hne. apply members_insert_eq. }
  assert (Hreq : members (<[fresh (dom (heap w)) := D]> h1)
                         (request_feature_views repo) ∪ (V ∪ R) = V ∪ R).
  { rewrite members_insert_ne by (now apply fresh_ne).
    destruct (decide (feature_views repo = request_feature_views repo)) as [E|E].
    - rewrite <- E. unfold h1. rewrite members_insert_eq. set_solver.
    - unfold h1. rewrite members_insert_ne by exact E. fold R. set_solver. }
  split; [apply fresh_not_in_dom|]. split; [exact Hkeep|].
  split; [|split; [|split; [reflexivity|]]].
  - intros l Hl Hlv. rewrite members_insert_ne by (now apply fresh_ne).
    unfold h1. now rewrite members_insert_ne by congruence.
  - intros v. rewrite members_insert_eq. apply elem_of_delete_set.
  - rewrite tag_views_run; cbn [heap trace].
    2:{ rewrite dom_insert_L, Hdom1. set_solver. }
    eexists _, _. split; [reflexivity|]. cbn [heap].
    rewrite Hkeep, (comm_L (∪) (V ∪ R)), Hreq. split.
    + rewrite members_insert_ne; [apply members_insert_eq|].
      apply fresh_ne. rewrite dom_insert_L, Hdom1. set_solver.
    + now rewrite !members_insert_eq.
Qed.

Lemma views_keep_delete_witness :
  exists d w',
    _tag_registry_views_for_keep_delete "demo" first_registry six_repo full_world
    = (Return (feature_views six_repo, d), w')
    /\ members (heap w') (feature_views six_repo)
       = {[ declared_view ]} ∪ {[ declared_request_view ]}
    /\ (forall v, v ∈ members (heap w') d <->
                  v ∈ [persisted_old_view]
                  /\ forall x, x ∈ ({[ declared_view ]} ∪ {[ declared_request_view ]}
                                   : gset Obj) ->
                               name x <> name v).
Proof.
  destruct (views_keep_delete "demo" first_registry six_repo full_world)
    as (d & w' & Hrun & _ & Hkeep & _ & Hdel & _).
  - apply elem_of_dom. eexists. reflexivity.
  - apply elem_of_dom. eexists. reflexivity.
  - exists d, w'. split; [exact Hrun|]. split; [exact Hkeep|exact Hdel].
Defined.

(** X13. After the five tagging functions have run, on a repository
    whose six sets are distinct, no kind has an object to keep and an
    object to delete of the same name, and the keep-set and the
    delete-set of a kind are two different sets of the store. *)
Theorem reconciliation_keep_delete_apart
        (DUMMY_ENTITY_NAME project : string) (registry : Registry)
        (repo : ParsedRepo) (w : World) :
  repo_ok (heap w) repo ->
  exists plan w',
    reconciliation_plan DUMMY_ENTITY_NAME project registry repo w
    = (Return plan, w')
    /\ Forall (fun kd =>
                 kd.1 <> kd.2
                 /\ forall k d, k ∈ members (heap w') kd.1 ->
                                d ∈ members (heap w') kd.2 ->
                                name k <> name d)
              (plan_pairs plan).
Proof.
  intros Hok. destruct w as [h tr]. cbn [heap] in Hok.
  rewrite (reconciliation_plan_run DUMMY_ENTITY_NAME project registry repo h Hok).
  eexists _, _. split; [reflexivity|]. cbn [heap].
  pose proof (repo_locs_in_dom repo h Hok) as Hin.
  pose proof (in_dom_h1 DUMMY_ENTITY_NAME project registry repo h Hok) as I1.
  pose proof (in_dom_h2 DUMMY_ENTITY_NAME project registry repo h Hok) as I2.
  pose proof (in_dom_h3 DUMMY_ENTITY_NAME project registry repo h Hok) as I3.
  pose proof (in_dom_h4 DUMMY_ENTITY_NAME project registry repo h Hok) as I4.
  pose proof (tagged_other DUMMY_ENTITY_NAME project registry repo h Hok
                Entity ltac:(discriminate)) as Ke.
  pose proof (tagged_other DUMMY_ENTITY_NAME project registry repo h Hok
                OnDemandFeatureView ltac:(discriminate)) as Ko.
  pose proof (tagged_other DUMMY_ENTITY_NAME project registry repo h Hok
                FeatureTable ltac:(discriminate)) as Kt.
  pose proof (tagged_other DUMMY_ENTITY_NAME project registry repo h Hok
                FeatureService ltac:(discriminate)) as Ks.
  cbn [field_of] in Ke, Ko, Kt, Ks.
  unfold plan_pairs.
  cbn [entities_to_keep entities_to_delete views_to_keep views_to_delete
       odfvs_to_keep odfvs_to_delete tables_to_keep tables_to_delete
       services_to_keep services_to_delete].
  repeat apply List.Forall_cons; [..|apply List.Forall_nil]; cbn [fst snd]; split.
  - intros E. apply (fresh_not_in_dom h). rewrite <- E. apply (Hin Entity).
  - intros k d.
    rewrite (tagged_entities_delete DUMMY_ENTITY_NAME project registry repo h Hok).
    rewrite Ke.
    rewrite elem_of_entities_delete_set. intros Hk (_ & Hd & _). now apply Hd.
  - intros E. apply (fresh_not_in_dom (heap_after_entities
                       DUMMY_ENTITY_NAME project registry repo h)).
    rewrite <- E. apply I1, (Hin FeatureView).
  - intros k d.
    rewrite (tagged_views_delete DUMMY_ENTITY_NAME project registry repo h Hok).
    rewrite (tagged_views DUMMY_ENTITY_NAME project registry repo h Hok).
    rewrite elem_of_delete_set. intros Hk (_ & Hd). now apply Hd.
  - intros E. eapply fresh_not_in_dom. rewrite <- E.
    apply I2, I1, (Hin OnDemandFeatureView).
  - intros k d.
    rewrite (tagged_odfvs_delete DUMMY_ENTITY_NAME project registry repo h Hok).
    rewrite Ko.
    rewrite elem_of_delete_set. intros Hk (_ & Hd). now apply Hd.
  - intros E. eapply fresh_not_in_dom. rewrite <- E.
    apply I3, I2, I1, (Hin FeatureTable).
  - intros k d.
    rewrite (tagged_tables_delete DUMMY_ENTITY_NAME project registry repo h Hok).
    rewrite Kt.
    rewrite elem_of_delete_set. intros Hk (_ & Hd). now apply Hd.
  - intros E. eapply fresh_not_in_dom. rewrite <- E.
    apply I4, I3, I2, I1, (Hin FeatureService).
  - intros k d.
    rewrite (tagged_services_delete DUMMY_ENTITY_NAME project registry repo h Hok).
    rewrite Ks.
    rewrite elem_of_delete_set. intros Hk (_ & Hd). now apply Hd.
Qed.

Lemma reconciliation_keep_delete_apart_witness :
  exists plan w',
    reconciliation_plan "__dummy" "demo" first_registry six_repo full_world
    = (Return plan, w')
    /\ Forall (fun kd =>
                 kd.1 <> kd.2
                 /\ forall k d, k ∈ members (heap w') kd.1 ->
                                d ∈ members (heap w') kd.2 ->
                                name k <> name d)
              (plan_pairs plan).
Proof.
  apply (reconciliation_keep_delete_apart "__dummy" "demo" first_registry
           six_repo full_world).
  apply six_world_ok.
Defined.

(** ** More on the runs of [apply_total] *)

Lemma echo_each_run s line w :
  echo_each s line w
  = (Return tt,
     after w ((fun x => EvEcho (line x)) <$> elements (members (heap w) s))).
Proof.
  unfold echo_each.
  rewrite (bind_Return _ _ _ _ _ (read_set_run _ _)).
  apply (for_each_emit (fun x => EvEcho (line x))).
Qed.

(** The run of [apply_total] from the repository that discovery
    returned, with all its events. *)
Lemma apply_total_events_after_discovery
        {RepoConfig : Type} (rt : Runtime RepoConfig)
        (DUMMY_ENTITY_NAME : string) (repo_config : RepoConfig)
        (repo_path : Path) (skip_source_validation : bool)
        (w : World) (repo : ParsedRepo) (w1 : World) :
  let store := new_FeatureStore rt repo_config in
  let proj := project store in
  let reg := registry store in
  is_valid_name proj = true ->
  parse_repo rt repo_path (after w (prelude_events repo_path)) = (Return repo, w1) ->
  skip_source_validation
  || forallb (source_validates store)
             (elements (declared (heap w1) repo FeatureView)) = true ->
  let E := declared (heap w1) repo Entity in
  let V := declared (heap w1) repo FeatureView
           ∪ declared (heap w1) repo RequestFeatureView in
  let S := declared (heap w1) repo FeatureService in
  let O := declared (heap w1) repo OnDemandFeatureView in
  let T := declared (heap w1) repo FeatureTable in
  let dE := entities_delete_set DUMMY_ENTITY_NAME E (list_entities reg proj) in
  let dV := delete_set V (list_feature_views reg proj) in
  let dS := delete_set S (list_feature_services reg proj) in
  let dO := delete_set O (list_on_demand_feature_views reg proj) in
  let dT := delete_set T (list_feature_tables reg proj) in
  let all_to_apply :=
    elements E ++ elements V ++ elements S ++ elements O ++ elements T in
  let all_to_delete :=
    elements dE ++ elements dV ++ elements dS ++ elements dO ++ elements dT in
  let returns := apply_returns store all_to_apply all_to_delete false in
  exists w',
    apply_total rt DUMMY_ENTITY_NAME repo_config repo_path skip_source_validation w
    = (if returns then Return tt else Raise ApplyFailure, w')
    /\ trace w'
       = trace w1
         ++ (if skip_source_validation then []
             else EvValidate <$> elements (declared (heap w1) repo FeatureView))
         ++ listing_events proj
         ++ [EvDontWriteBytecode false; EvApply all_to_apply all_to_delete false]
         ++ (if returns
             then EvEcho <$> report_lines E V O S T dE dV dO dT dS
             else []).
Proof.
  intros store proj reg Hvalid Hparse Hval E V S O T dE dV dS dO dT
         all_to_apply all_to_delete returns.
  destruct (parse_repo_ok _ _ _ _ _ Hparse) as [Hok _].
  unfold apply_total.
  rewrite (bind_Return _ _ _ _ _ (emit_run _ _)).
  rewrite (bind_Return _ _ _ _ _ (emit_run _ _)).
  cbv zeta. fold store. fold proj. fold reg. rewrite Hvalid. cbn [negb when].
  rewrite (bind_Return (ret tt) _ _ tt _ eq_refl).
  rewrite (bind_Return _ _ _ _ _ (emit_run _ _)).
  rewrite (bind_Return _ _ _ _ _ (emit_run _ _)).
  rewrite !after_after. cbn [app].
  change [EvChdir repo_path; EvFeatureStore; EvInitializeRegistry;
          EvDontWriteBytecode true] with (prelude_events repo_path).
  rewrite (bind_Return _ _ _ _ _ Hparse).
  unfold declared in Hval; cbn [field_of] in Hval.
  rewrite (bind_Return _ _ _ _ _ (validation_run store _ repo w1 Hval)).
  unfold declared in E, V, S, O, T. cbn [field_of] in E, V, S, O, T.
  unfold declared. cbn [field_of].
  set (validations := if skip_source_validation then []
                      else EvValidate <$> elements (members (heap w1) (feature_views repo))).
  clearbody validations.
  pose proof (repo_locs_in_dom repo (heap w1) Hok FeatureView) as Hfv.
  cbn [field_of] in Hfv.
  rewrite (bind_Return _ _ _ _ _ (tag_entities_heap _ _ _ _ _)).
  cbn [heap trace after].
  erewrite bind_Return
    by (apply tag_views_heap;
        exact (in_dom_h1 DUMMY_ENTITY_NAME proj reg repo (heap w1) Hok _ Hfv)).
  cbn [heap trace after].
  rewrite (bind_Return _ _ _ _ _ (tag_odfvs_heap _ _ _ _)).
  cbn [heap trace after].
  rewrite (bind_Return _ _ _ _ _ (tag_tables_heap _ _ _ _)).
  cbn [heap trace after].
  rewrite (bind_Return _ _ _ _ _ (tag_services_heap _ _ _ _)).
  cbn [heap trace after].
  rewrite (bind_Return _ _ _ _ _ (emit_run _ _)).
  do 10 (rewrite (bind_Return _ _ _ _ _ (read_set_run _ _))).
  cbn [heap trace after].
  pose proof (tagged_entities_delete DUMMY_ENTITY_NAME proj reg repo _ Hok) as Kde.
  pose proof (tagged_views_delete DUMMY_ENTITY_NAME proj reg repo _ Hok) as Kdv.
  pose proof (tagged_odfvs_delete DUMMY_ENTITY_NAME proj reg repo _ Hok) as Kdo.
  pose proof (tagged_tables_delete DUMMY_ENTITY_NAME proj reg repo _ Hok) as Kdt.
  pose proof (tagged_services_delete DUMMY_ENTITY_NAME proj reg repo _ Hok) as Kds.
  pose proof (tagged_views DUMMY_ENTITY_NAME proj reg repo _ Hok) as Kv.
  pose proof (tagged_other DUMMY_ENTITY_NAME proj reg repo _ Hok Entity
                ltac:(discriminate)) as Ke.
  pose proof (tagged_other DUMMY_ENTITY_NAME proj reg repo _ Hok
                OnDemandFeatureView ltac:(discriminate)) as Ko.
  pose proof (tagged_other DUMMY_ENTITY_NAME proj reg repo _ Hok
                FeatureTable ltac:(discriminate)) as Kt.
  pose proof (tagged_other DUMMY_ENTITY_NAME proj reg repo _ Hok
                FeatureService ltac:(discriminate)) as Ks.
  cbn [field_of] in Ke, Ko, Kt, Ks.
  fold E in Kde, Ke. fold V in Kdv, Kv. fold O in Kdo, Ko. fold T in Kdt, Kt.
  fold S in Kds, Ks. fold dE in Kde. fold dV in Kdv. fold dO in Kdo.
  fold dT in Kdt. fold dS in Kds.
  rewrite Kde, Kdv, Kdo, Kdt, Kds, Kv, Ke, Ko, Kt, Ks.
  rewrite <- !app_assoc.
  change (elements E ++ elements V ++ elements S ++ elements O ++ elements T)
    with all_to_apply.
  change (elements dE ++ elements dV ++ elements dS ++ elements dO ++ elements dT)
    with all_to_delete.
  fold returns. unfold store_apply at 1. fold returns.
  clearbody all_to_apply all_to_delete returns.
  destruct returns.
  - rewrite (bind_Return _ _ _ tt _
               (bind_Return _ _ _ _ _ (emit_run _ _))).
    do 10 (rewrite (bind_Return _ _ _ _ _ (echo_each_run _ _ _));
           cbn [heap trace after]).
    do 2 (rewrite (bind_Return _ _ _ _ _ (read_set_run _ _))).
    rewrite (bind_Return _ _ _ _ _ (for_each_emit _ _ _)).
    do 2 (rewrite (bind_Return _ _ _ _ _ (read_set_run _ _))).
    rewrite for_each_emit. cbn [heap trace after].
    eexists. split; [reflexivity|]. unfold after. cbn [heap trace].
    rewrite ?Kde, ?Kdv, ?Kdo, ?Kdt, ?Kds, ?Kv, ?Ke, ?Ko, ?Kt, ?Ks.
    unfold listing_events, report_lines, deleted_lines, registered_lines,
      infrastructure_lines.
    rewrite !fmap_app, <- !list_fmap_compose, <- !app_assoc. reflexivity.
  - erewrite bind_Raise
      by (rewrite (bind_Return _ _ _ _ _ (emit_run _ _)); reflexivity).
    eexists. split; [reflexivity|]. unfold after, listing_events.
    cbn [heap trace]. rewrite <- !app_assoc. reflexivity.
Qed.

(** X14. The events of a run of [apply_total], when the name of the
    project is valid, every scanned file loads and the sources are not
    validated or all validate.  In this order: the change of directory;
    the construction of the feature store; [_initialize_registry];
    [sys.dont_write_bytecode] set; one import per scanned file, in the
    order of the scan; unless validation is skipped, one validation per
    declared feature view (a request feature view is not validated);
    the five listings, of entities, feature views, on-demand feature
    views, feature tables and feature services; [sys.dont_write_bytecode]
    reset; the one apply; and, when the apply returns, the lines of the
    report.  When the apply raises, no line is echoed. *)
Theorem apply_total_trace
        {RepoConfig : Type} (rt : Runtime RepoConfig)
        (DUMMY_ENTITY_NAME : string) (repo_config : RepoConfig)
        (repo_path : Path) (skip_source_validation : bool) (w : World) :
  let store := new_FeatureStore rt repo_config in
  let proj := project store in
  let reg := registry store in
  is_valid_name proj = true ->
  discovery_loads rt repo_path ->
  skip_source_validation
  || forallb (source_validates store)
             (elements (discovered rt repo_path FeatureView)) = true ->
  let E := discovered rt repo_path Entity in
  let V := discovered rt repo_path FeatureView
           ∪ discovered rt repo_path RequestFeatureView in
  let S := discovered rt repo_path FeatureService in
  let O := discovered rt repo_path OnDemandFeatureView in
  let T := discovered rt repo_path FeatureTable in
  let dE := entities_delete_set DUMMY_ENTITY_NAME E (list_entities reg proj) in
  let dV := delete_set V (list_feature_views reg proj) in
  let dS := delete_set S (list_feature_services reg proj) in
  let dO := delete_set O (list_on_demand_feature_views reg proj) in
  let dT := delete_set T (list_feature_tables reg proj) in
  let all_to_apply :=
    elements E ++ elements V ++ elements S ++ elements O ++ elements T in
  let all_to_delete :=
    elements dE ++ elements dV ++ elements dS ++ elements dO ++ elements dT in
  let returns := apply_returns store all_to_apply all_to_delete false in
  exists w',
    apply_total rt DUMMY_ENTITY_NAME repo_config repo_path skip_source_validation w
    = (if returns then Return tt else Raise ApplyFailure, w')
    /\ trace w'
       = trace w
         ++ prelude_events repo_path
         ++ import_events repo_path (get_repo_files (rt_fs rt) repo_path)
         ++ (if skip_source_validation then []
             else EvValidate <$> elements (discovered rt repo_path FeatureView))
         ++ listing_events proj
         ++ [EvDontWriteBytecode false; EvApply all_to_apply all_to_delete false]
         ++ (if returns
             then EvEcho <$> report_lines E V O S T dE dV dO dT dS
             else []).
Proof.
  intros store proj reg Hvalid Hloads Hval.
  destruct (parse_repo_declared rt repo_path
              (after w (prelude_events repo_path)) Hloads)
    as (repo & w1 & Hparse & _ & Htr & Hd).
  rewrite <- (Hd FeatureView) in Hval.
  pose proof (apply_total_events_after_discovery rt DUMMY_ENTITY_NAME repo_config
                repo_path skip_source_validation w repo w1
                Hvalid Hparse Hval) as Hrun.
  cbv zeta in Hrun. rewrite !Hd in Hrun. cbv zeta.
  destruct Hrun as (w' & Hrun & Htrace). exists w'. split; [exact Hrun|].
  rewrite Htrace, Htr. unfold after. cbn [trace].
  now rewrite <- !app_assoc.
Qed.

Lemma apply_total_trace_witness :
  exists w',
    apply_total demo_runtime "__dummy" "demo" scenario_root false empty_world
    = (Return tt, w')
    /\ trace w'
       = [EvChdir scenario_root; EvFeatureStore; EvInitializeRegistry;
          EvDontWriteBytecode true; EvImport "features";
          EvValidate declared_view;
          EvList ListEntities "demo"; EvList ListFeatureViews "demo";
          EvList ListOnDemandFeatureViews "demo";
          EvList ListFeatureTables "demo"; EvList ListFeatureServices "demo";
          EvDontWriteBytecode false;
          EvApply [declared_user; declared_request_view; declared_view;
                   declared_service; declared_table]
                  [persisted_driver; persisted_old_view] false;
          EvEcho ("Deleted entity " ++ green "driver" ++ " from registry");
          EvEcho ("Deleted feature view " ++ green "old_stats" ++ " from registry");
          EvEcho ("Registered entity " ++ green "user");
          EvEcho ("Registered feature view " ++ green "r");
          EvEcho ("Registered feature view " ++ green "driver_stats");
          EvEcho ("Registered feature service " ++ green "driver_activity");
          EvEcho ("Registered feature table " ++ green "driver_table");
          EvEcho ("Deploying infrastructure for " ++ green "driver_table");
          EvEcho ("Deploying infrastructure for " ++ green "driver_stats");
          EvEcho ("Removing infrastructure for " ++ green "old_stats")].
Proof.
  destruct (apply_total_trace demo_runtime "__dummy" "demo" scenario_root
              false empty_world eq_refl demo_loads eq_refl)
    as (w' & Hrun & Htrace).
  exists w'. split; [exact Hrun|exact Htrace].
Defined.

(** ** Runs of [apply_total] that stop early, and the objects applied *)

Lemma bind_assoc {A B C} (m : M A) (k1 : A -> M B) (k2 : B -> M C) w :
  bind (bind m k1) k2 w = bind m (fun a => bind (k1 a) k2) w.
Proof. unfold bind. now destruct (m w) as [[a|c|e] w1]. Qed.

Lemma for_each_app {A} (xs ys : list A) (body : A -> M unit) w :
  for_each (xs ++ ys) body w
  = bind (for_each xs body) (fun _ => for_each ys body) w.
Proof.
  revert w. induction xs as [|x xs IH]; intros w; [reflexivity|].
  cbn [app for_each]. rewrite bind_assoc. unfold bind.
  destruct (body x w) as [[[]|c|e] w1]; [|reflexivity|reflexivity].
  rewrite IH. reflexivity.
Qed.

(** *** Validation that fails *)

Lemma validate_until_run store views w :
  for_each views (validate store) w
  = (if forallb (source_validates store) views
     then Return tt else Raise ValidationFailure,
     after w (EvValidate <$> validated_until (source_validates store) views)).
Proof.
  revert w. induction views as [|v views IH]; intros w.
  - cbn. now rewrite after_nil.
  - cbn [for_each forallb validated_until]. unfold validate at 1.
    destruct (source_validates store v) eqn:Hv.
    + rewrite (bind_Return _ _ _ tt (after w [EvValidate v]))
        by now rewrite (bind_Return _ _ _ _ _ (emit_run _ _)).
      rewrite IH, after_after. reflexivity.
    + rewrite (bind_Raise _ _ _ ValidationFailure (after w [EvValidate v]))
        by now rewrite (bind_Return _ _ _ _ _ (emit_run _ _)).
      reflexivity.
Qed.

Lemma quiet_prelude repo_path :
  Forall (fun ev => is_list ev = false /\ is_apply ev = false
                    /\ is_echo ev = false /\ ev <> EvDontWriteBytecode false)
         (prelude_events repo_path).
Proof. repeat constructor; discriminate. Qed.

Lemma quiet_imports root files :
  Forall (fun ev => is_list ev = false /\ is_apply ev = false
                    /\ is_echo ev = false /\ ev <> EvDontWriteBytecode false)
         (import_events root files).
Proof.
  unfold import_events. apply Forall_fmap, Forall_true.
  intros m. repeat split; discriminate.
Qed.

Lemma quiet_validations views :
  Forall (fun ev => is_list ev = false /\ is_apply ev = false
                    /\ is_echo ev = false /\ ev <> EvDontWriteBytecode false)
         (EvValidate <$> views).
Proof.
  apply Forall_fmap, Forall_true. intros v. repeat split; discriminate.
Qed.

(** The run of [apply_total] when a source does not validate. *)
Lemma apply_total_validation_run
        {RepoConfig : Type} (rt : Runtime RepoConfig)
        (DUMMY_ENTITY_NAME : string) (repo_config : RepoConfig)
        (repo_path : Path) (w : World) :
  let store := new_FeatureStore rt repo_config in
  is_valid_name (project store) = true ->
  discovery_loads rt repo_path ->
  forallb (source_validates store)
          (elements (discovered rt repo_path FeatureView)) = false ->
  exists w',
    apply_total rt DUMMY_ENTITY_NAME repo_config repo_path false w
    = (Raise ValidationFailure, w')
    /\ trace w'
       = trace w
         ++ prelude_events repo_path
         ++ import_events repo_path (get_repo_files (rt_fs rt) repo_path)
         ++ (EvValidate
               <$> validated_until (source_validates store)
                     (elements (discovered rt repo_path FeatureView))).
Proof.
  intros store Hvalid Hloads Hfail.
  destruct (parse_repo_declared rt repo_path
              (after w (prelude_events repo_path)) Hloads)
    as (repo & w1 & Hparse & _ & Htr & Hd).
  rewrite <- (Hd FeatureView) in Hfail |- *.
  unfold declared in Hfail |- *. cbn [field_of] in Hfail |- *.
  eexists. split.
  - unfold apply_total.
    rewrite (bind_Return _ _ _ _ _ (emit_run _ _)).
    rewrite (bind_Return _ _ _ _ _ (emit_run _ _)).
    cbv zeta. fold store. rewrite Hvalid. cbn [negb when].
    rewrite (bind_Return (ret tt) _ _ tt _ eq_refl).
    rewrite (bind_Return _ _ _ _ _ (emit_run _ _)).
    rewrite (bind_Return _ _ _ _ _ (emit_run _ _)).
    rewrite !after_after. cbn [app].
    change [EvChdir repo_path; EvFeatureStore; EvInitializeRegistry;
            EvDontWriteBytecode true] with (prelude_events repo_path).
    rewrite (bind_Return _ _ _ _ _ Hparse).
    erewrite bind_Raise; [reflexivity|].
    rewrite (bind_Return _ _ _ _ _ (read_set_run _ _)).
    rewrite validate_until_run, Hfail. reflexivity.
  - unfold after. cbn [trace]. rewrite Htr. unfold after. cbn [trace].
    now rewrite <- !app_assoc.
Qed.

(** X15. A source that does not validate stops the run.  When the name
    of the project is valid, every scanned file loads, validation is not
    skipped and the source of some declared feature view does not
    validate, [apply_total] raises the error of [validate].  It has
    validated the declared feature views in the order of the set, up to
    the first that fails; it has asked the registry for no listing,
    called no apply and echoed no line, and [sys.dont_write_bytecode]
    has not been reset. *)
Theorem apply_total_validation_failure
        {RepoConfig : Type} (rt : Runtime RepoConfig)
        (DUMMY_ENTITY_NAME : string) (repo_config : RepoConfig)
        (repo_path : Path) (w : World) :
  let store := new_FeatureStore rt repo_config in
  is_valid_name (project store) = true ->
  discovery_loads rt repo_path ->
  forallb (source_validates store)
          (elements (discovered rt repo_path FeatureView)) = false ->
  exists w' evs,
    apply_total rt DUMMY_ENTITY_NAME repo_config repo_path false w
    = (Raise ValidationFailure, w')
    /\ trace w' = trace w ++ evs
    /\ evs = prelude_events repo_path
             ++ import_events repo_path (get_repo_files (rt_fs rt) repo_path)
             ++ (EvValidate
                   <$> validated_until (source_validates store)
                         (elements (discovered rt repo_path FeatureView)))
    /\ Forall (fun ev => is_list ev = false /\ is_apply ev = false
                         /\ is_echo ev = false
                         /\ ev <> EvDontWriteBytecode false) evs.
Proof.
  intros store Hvalid Hloads Hfail.
  destruct (apply_total_validation_run rt DUMMY_ENTITY_NAME repo_config
              repo_path w Hvalid Hloads Hfail) as (w' & Hrun & Htrace).
  exists w'. eexists. split; [exact Hrun|]. split; [exact Htrace|].
  split; [reflexivity|].
  apply Forall_app. split; [apply quiet_prelude|].
  apply Forall_app. split; [apply quiet_imports|apply quiet_validations].
Qed.

Lemma apply_total_validation_failure_witness :
  exists w',
    apply_total strict_runtime "__dummy" "demo" scenario_root false empty_world
    = (Raise ValidationFailure, w')
    /\ trace w'
       = [EvChdir scenario_root; EvFeatureStore; EvInitializeRegistry;
          EvDontWriteBytecode true; EvImport "features";
          EvValidate declared_view].
Proof.
  destruct (apply_total_validation_failure strict_runtime "__dummy" "demo"
              scenario_root empty_world eq_refl demo_loads eq_refl)
    as (w' & evs & Hrun & Htrace & Hevs & _).
  exists w'. split; [exact Hrun|]. rewrite Htrace, Hevs. reflexivity.
Defined.

(** *** Discovery that fails *)

Lemma parse_file_fails {RepoConfig} (rt : Runtime RepoConfig) res root file w :
  file_values rt root file = None ->
  parse_file rt res root file w
  = (Raise (match py_path_to_module file root with
            | Some _ => ImportFailure
            | None => ValueError
            end),
     after w (import_events root [file])).
Proof.
  unfold file_values, parse_file, import_events. cbn [omap list_omap].
  destruct (py_path_to_module file root) as [m|]; cbn.
  - intros Hm. unfold load_module.
    erewrite bind_Raise; [reflexivity|].
    rewrite (bind_Return _ _ _ _ _ (emit_run _ _)). now rewrite Hm.
  - intros _. now rewrite after_nil.
Qed.

Lemma parse_repo_fails {RepoConfig} (rt : Runtime RepoConfig) root w
      (good : list Path) (bad : Path) (rest : list Path) :
  get_repo_files (rt_fs rt) root = good ++ bad :: rest ->
  Forall (fun f => is_Some (file_values rt root f)) good ->
  file_values rt root bad = None ->
  exists w',
    parse_repo rt root w
    = (Raise (match py_path_to_module bad root with
              | Some _ => ImportFailure
              | None => ValueError
              end), w')
    /\ trace w' = trace w ++ import_events root (good ++ [bad]).
Proof.
  intros Hfiles Hgood Hbad. unfold parse_repo.
  do 6 (erewrite bind_Return by apply new_set_run; cbn [heap trace]).
  pose proof (six_new_sets_ok (heap w)) as Hok. cbv zeta in Hok.
  rewrite Hfiles.
  match goal with
  | |- context [bind (for_each _ (parse_file rt ?res root)) _ ?w0] =>
      destruct (parse_files_declared rt res root good w0 (proj1 Hok) Hgood)
        as (w7 & Hrun & Htr & _)
  end.
  eexists. split.
  - erewrite bind_Raise; [reflexivity|].
    rewrite for_each_app, (bind_Return _ _ _ _ _ Hrun). cbn [for_each].
    erewrite bind_Raise; [reflexivity|]. now apply parse_file_fails.
  - unfold after. cbn [trace]. rewrite Htr. cbn [trace].
    now rewrite import_events_app, app_assoc.
Qed.

(** The run of [apply_total] when a scanned file does not load. *)
Lemma apply_total_discovery_run
        {RepoConfig : Type} (rt : Runtime RepoConfig)
        (DUMMY_ENTITY_NAME : string) (repo_config : RepoConfig)
        (repo_path : Path) (skip_source_validation : bool) (w : World)
        (good : list Path) (bad : Path) (rest : list Path) :
  is_valid_name (project (new_FeatureStore rt repo_config)) = true ->
  get_repo_files (rt_fs rt) repo_path = good ++ bad :: rest ->
  Forall (fun f => is_Some (file_values rt repo_path f)) good ->
  file_values rt repo_path bad = None ->
  exists w',
    apply_total rt DUMMY_ENTITY_NAME repo_config repo_path skip_source_validation w
    = (Raise (match py_path_to_module bad repo_path with
              | Some _ => ImportFailure
              | None => ValueError
              end), w')
    /\ trace w'
       = trace w ++ prelude_events repo_path
         ++ import_events repo_path (good ++ [bad]).
Proof.
  intros Hvalid Hfiles Hgood Hbad.
  destruct (parse_repo_fails rt repo_path (after w (prelude_events repo_path))
              good bad rest Hfiles Hgood Hbad) as (w1 & Hparse & Htr).
  exists w1. split.
  - unfold apply_total.
    rewrite (bind_Return _ _ _ _ _ (emit_run _ _)).
    rewrite (bind_Return _ _ _ _ _ (emit_run _ _)).
    cbv zeta. rewrite Hvalid. cbn [negb when].
    rewrite (bind_Return (ret tt) _ _ tt _ eq_refl).
    rewrite (bind_Return _ _ _ _ _ (emit_run _ _)).
    rewrite (bind_Return _ _ _ _ _ (emit_run _ _)).
    rewrite !after_after. cbn [app].
    change [EvChdir repo_path; EvFeatureStore; EvInitializeRegistry;
            EvDontWriteBytecode true] with (prelude_events repo_path).
    now rewrite (bind_Raise _ _ _ _ _ Hparse).
  - rewrite Htr. unfold after. cbn [trace]. now rewrite <- !app_assoc.
Qed.

(** X16. A file that does not load stops the run.  Let the scan yield
    the files [good], then [bad], then [rest], where the files of [good]
    load and [bad] does not: [relative_to] raises [ValueError] for it,
    because it is not under the root, or because the root is [Path(".")]
    and the file, being resolved, is absolute; or its import raises.
    Then [apply_total] raises that error.  It has imported the modules
    of [good] in order and, unless the error is the [ValueError], tried
    the one of [bad]; no file of [rest] has been imported; no source has
    been validated; the registry has been asked for no listing, no apply
    has been called, no line echoed, and [sys.dont_write_bytecode] has
    not been reset. *)
Theorem apply_total_discovery_failure
        {RepoConfig : Type} (rt : Runtime RepoConfig)
        (DUMMY_ENTITY_NAME : string) (repo_config : RepoConfig)
        (repo_path : Path) (skip_source_validation : bool) (w : World)
        (good : list Path) (bad : Path) (rest : list Path) :
  is_valid_name (project (new_FeatureStore rt repo_config)) = true ->
  get_repo_files (rt_fs rt) repo_path = good ++ bad :: rest ->
  Forall (fun f => is_Some (file_values rt repo_path f)) good ->
  file_values rt repo_path bad = None ->
  exists w' evs,
    apply_total rt DUMMY_ENTITY_NAME repo_config repo_path skip_source_validation w
    = (Raise (match py_path_to_module bad repo_path with
              | Some _ => ImportFailure
              | None => ValueError
              end), w')
    /\ trace w' = trace w ++ evs
    /\ evs = prelude_events repo_path ++ import_events repo_path (good ++ [bad])
    /\ Forall (fun ev => is_list ev = false /\ is_apply ev = false
                         /\ is_echo ev = false
                         /\ ev <> EvDontWriteBytecode false) evs.
Proof.
  intros Hvalid Hfiles Hgood Hbad.
  destruct (apply_total_discovery_run rt DUMMY_ENTITY_NAME repo_config repo_path
              skip_source_validation w good bad rest Hvalid Hfiles Hgood Hbad)
    as (w' & Hrun & Htrace).
  exists w'. eexists. split; [exact Hrun|]. split; [exact Htrace|].
  split; [reflexivity|].
  apply Forall_app. split; [apply quiet_prelude|apply quiet_imports].
Qed.

Lemma apply_total_discovery_failure_witness :
  (exists w',
      apply_total faulty_runtime "__dummy" "demo" scenario_root true empty_world
      = (Raise ImportFailure, w')
      /\ trace w'
         = [EvChdir scenario_root; EvFeatureStore; EvInitializeRegistry;
            EvDontWriteBytecode true; EvImport "entities"; EvImport "services"])
  /\ (exists w',
         apply_total inside_runtime "__dummy" "demo" [] true empty_world
         = (Raise ValueError, w')
         /\ trace w'
            = [EvChdir []; EvFeatureStore; EvInitializeRegistry;
               EvDontWriteBytecode true]).
Proof.
  split.
  - destruct (apply_total_discovery_failure faulty_runtime "__dummy" "demo"
                scenario_root true empty_world
                [["/"; "repo"; "entities.py"]] ["/"; "repo"; "services.py"]
                [["/"; "repo"; "views.py"]])
      as (w' & evs & Hrun & Htrace & Hevs & _).
    + reflexivity.
    + reflexivity.
    + apply List.Forall_cons; [now eexists|apply List.Forall_nil].
    + reflexivity.
    + exists w'. split; [exact Hrun|]. rewrite Htrace, Hevs. reflexivity.
  - destruct (apply_total_discovery_failure inside_runtime "__dummy" "demo"
                [] true empty_world
                [] ["/"; "repo"; "features.py"] [])
      as (w' & evs & Hrun & Htrace & Hevs & _).
    + reflexivity.
    + reflexivity.
    + apply List.Forall_nil.
    + reflexivity.
    + exists w'. split; [exact Hrun|]. rewrite Htrace, Hevs. reflexivity.
Defined.

(** *** A repository without definitions *)

Lemma elem_of_entities_delete_set_empty dummy listing o :
  o ∈ entities_delete_set dummy ∅ listing <-> o ∈ listing /\ name o <> dummy.
Proof. rewrite elem_of_entities_delete_set. set_solver. Qed.

Lemma elem_of_delete_set_empty listing o :
  o ∈ delete_set ∅ listing <-> o ∈ listing.
Proof. rewrite elem_of_delete_set. set_solver. Qed.

Lemma discovered_no_files {RepoConfig} (rt : Runtime RepoConfig) root C :
  get_repo_files (rt_fs rt) root = [] -> discovered rt root C = ∅.
Proof. intros H. unfold discovered, discovered_values. now rewrite H. Qed.

(** X17. A repository without definitions empties the registry.  When
    the name of the project is valid and the scan finds no definition
    file, [apply_total] calls [store.apply] once, with nothing to apply
    and, to delete, every object that the registry lists, but for the
    entities of the dummy name. *)
Theorem apply_total_empty_repository
        {RepoConfig : Type} (rt : Runtime RepoConfig)
        (DUMMY_ENTITY_NAME : string) (repo_config : RepoConfig)
        (repo_path : Path) (skip_source_validation : bool) (w : World) :
  let store := new_FeatureStore rt repo_config in
  let proj := project store in
  let reg := registry store in
  is_valid_name proj = true ->
  get_repo_files (rt_fs rt) repo_path = [] ->
  exists w' all_to_delete,
    apply_total rt DUMMY_ENTITY_NAME repo_config repo_path skip_source_validation w
    = (if apply_returns store [] all_to_delete false
       then Return tt else Raise ApplyFailure, w')
    /\ filter (fun ev => is_apply ev = true) (trace w')
       = filter (fun ev => is_apply ev = true) (trace w)
         ++ [EvApply [] all_to_delete false]
    /\ forall o,
         o ∈ all_to_delete <->
         (o ∈ list_entities reg proj /\ name o <> DUMMY_ENTITY_NAME)
         \/ o ∈ list_feature_views reg proj
         \/ o ∈ list_feature_services reg proj
         \/ o ∈ list_on_demand_feature_views reg proj
         \/ o ∈ list_feature_tables reg proj.
Proof.
  intros store proj reg Hvalid Hfiles.
  assert (Hloads : discovery_loads rt repo_path).
  { unfold discovery_loads. rewrite Hfiles. apply List.Forall_nil. }
  destruct (parse_repo_declared rt repo_path
              (after w (prelude_events repo_path)) Hloads)
    as (repo & w1 & Hparse & _ & _ & Hd).
  assert (Hnone : forall C, declared (heap w1) repo C = ∅).
  { intros C. rewrite Hd. now apply discovered_no_files. }
  assert (Hval : skip_source_validation
                 || forallb (source_validates store)
                            (elements (declared (heap w1) repo FeatureView)) = true).
  { rewrite (Hnone FeatureView), elements_empty. apply orb_true_r. }
  pose proof (apply_total_after_discovery rt DUMMY_ENTITY_NAME repo_config
                repo_path skip_source_validation w repo w1
                Hvalid Hparse Hval) as Hrun.
  cbv zeta in Hrun. rewrite !Hnone in Hrun.
  rewrite (left_id_L ∅ (∪)), !elements_empty in Hrun. cbn [app] in Hrun.
  destruct Hrun as (w' & Hrun & Htrace).
  eexists w', _. split; [exact Hrun|]. split; [exact Htrace|].
  intros o. fold store proj reg.
  rewrite !elem_of_app, !elem_of_elements, elem_of_entities_delete_set_empty,
    !elem_of_delete_set_empty. reflexivity.
Qed.

Lemma apply_total_empty_repository_witness :
  exists w' all_to_delete,
    apply_total bare_runtime "__dummy" "demo" scenario_root false empty_world
    = (Return tt, w')
    /\ filter (fun ev => is_apply ev = true) (trace w')
       = [EvApply [] all_to_delete false]
    /\ forall o,
         o ∈ all_to_delete <->
         (o ∈ [persisted_user; persisted_driver; persisted_dummy "__dummy"]
          /\ name o <> "__dummy")
         \/ o ∈ [persisted_old_view]
         \/ o ∈ [] \/ o ∈ [] \/ o ∈ [].
Proof.
  destruct (apply_total_empty_repository bare_runtime "__dummy" "demo"
              scenario_root false empty_world eq_refl eq_refl)
    as (w' & all_to_delete & Hrun & Htrace & Hall).
  exists w', all_to_delete.
  split; [exact Hrun|]. split; [exact Htrace|exact Hall].
Defined.

(** *** The objects applied *)

Lemma elem_of_discovered {RepoConfig} (rt : Runtime RepoConfig) root C o :
  o ∈ discovered rt root C
  <-> o ∈ discovered_values rt root /\ recorded_as C o = true.
Proof.
  unfold discovered. rewrite elem_of_list_to_set, list_elem_of_filter. tauto.
Qed.

Lemma recorded_as_apart o C C' :
  C <> C' -> C <> FeatureTable -> C' <> FeatureTable ->
  recorded_as C o = true -> recorded_as C' o = true -> False.
Proof.
  intros Hne Ht Ht'. unfold recorded_as.
  destruct (isinstance o FeatureView), (isinstance o Entity),
    (isinstance o FeatureService), (isinstance o OnDemandFeatureView),
    (isinstance o RequestFeatureView);
    destruct C, C'; cbn; congruence.
Qed.

Ltac classes_clash Hyp :=
  match goal with
  | Hc : recorded_as ?C ?o = true, Hc' : recorded_as ?C' ?o = true |- _ =>
      exact (recorded_as_apart o C C' ltac:(discriminate) ltac:(discriminate)
               ltac:(discriminate) Hc Hc')
  | Hv : ?o ∈ discovered_values _ _,
    Ht : recorded_as FeatureTable ?o = true,
    Hc : recorded_as ?C ?o = true |- _ =>
      pose proof (Hyp o Hv Ht C ltac:(discriminate)); congruence
  end.

(** X18. The objects that [apply_total] applies.  In a run in which the
    name of the project is valid, every scanned file loads and
    validation is skipped or passes, the first list of the one call to
    [store.apply] holds exactly the values of the modules that discovery
    has recorded for some class.  It holds each of them once, unless a
    value is a feature table and recorded for another class as well:
    such a value is applied twice. *)
Theorem apply_total_applies_once
        {RepoConfig : Type} (rt : Runtime RepoConfig)
        (DUMMY_ENTITY_NAME : string) (repo_config : RepoConfig)
        (repo_path : Path) (skip_source_validation : bool) (w : World) :
  let store := new_FeatureStore rt repo_config in
  is_valid_name (project store) = true ->
  discovery_loads rt repo_path ->
  skip_source_validation
  || forallb (source_validates store)
             (elements (discovered rt repo_path FeatureView)) = true ->
  exists w' all_to_apply all_to_delete,
    apply_total rt DUMMY_ENTITY_NAME repo_config repo_path skip_source_validation w
    = (if apply_returns store all_to_apply all_to_delete false
       then Return tt else Raise ApplyFailure, w')
    /\ filter (fun ev => is_apply ev = true) (trace w')
       = filter (fun ev => is_apply ev = true) (trace w)
         ++ [EvApply all_to_apply all_to_delete false]
    /\ (forall o,
           o ∈ all_to_apply <->
           o ∈ discovered_values rt repo_path /\ exists C, recorded_as C o = true)
    /\ (NoDup all_to_apply <->
        forall o, o ∈ discovered_values rt repo_path ->
                  recorded_as FeatureTable o = true ->
                  forall C, C <> FeatureTable -> recorded_as C o = false).
Proof.
  intros store Hvalid Hloads Hval.
  destruct (parse_repo_declared rt repo_path
              (after w (prelude_events repo_path)) Hloads)
    as (repo & w1 & Hparse & _ & _ & Hd).
  rewrite <- (Hd FeatureView) in Hval.
  pose proof (apply_total_after_discovery rt DUMMY_ENTITY_NAME repo_config
                repo_path skip_source_validation w repo w1
                Hvalid Hparse Hval) as Hrun.
  cbv zeta in Hrun. rewrite !Hd in Hrun.
  destruct Hrun as (w' & Hrun & Htrace).
  eexists w', _, _. split; [exact Hrun|]. split; [exact Htrace|].
  clear Hrun Htrace Hparse Hval Hd.
  set (E := discovered rt repo_path Entity).
  set (FV := discovered rt repo_path FeatureView).
  set (RFV := discovered rt repo_path RequestFeatureView).
  set (S := discovered rt repo_path FeatureService).
  set (O := discovered rt repo_path OnDemandFeatureView).
  set (T := discovered rt repo_path FeatureTable).
  assert (HE : forall o, o ∈ elements E <->
                 o ∈ discovered_values rt repo_path /\ recorded_as Entity o = true)
    by (intros o; rewrite elem_of_elements; apply elem_of_discovered).
  assert (HV : forall o, o ∈ elements (FV ∪ RFV) <->
                 o ∈ discovered_values rt repo_path
                 /\ (recorded_as FeatureView o = true
                     \/ recorded_as RequestFeatureView o = true)).
  { intros o. rewrite elem_of_elements, elem_of_union.
    unfold FV, RFV. rewrite !elem_of_discovered. tauto. }
  assert (HS : forall o, o ∈ elements S <->
                 o ∈ discovered_values rt repo_path
                 /\ recorded_as FeatureService o = true)
    by (intros o; rewrite elem_of_elements; apply elem_of_discovered).
  assert (HO : forall o, o ∈ elements O <->
                 o ∈ discovered_values rt repo_path
                 /\ recorded_as OnDemandFeatureView o = true)
    by (intros o; rewrite elem_of_elements; apply elem_of_discovered).
  assert (HT : forall o, o ∈ elements T <->
                 o ∈ discovered_values rt repo_path
                 /\ recorded_as FeatureTable o = true)
    by (intros o; rewrite elem_of_elements; apply elem_of_discovered).
  assert (NE : NoDup (elements E)) by apply NoDup_elements.
  assert (NV : NoDup (elements (FV ∪ RFV))) by apply NoDup_elements.
  assert (NS : NoDup (elements S)) by apply NoDup_elements.
  assert (NO : NoDup (elements O)) by apply NoDup_elements.
  assert (NT : NoDup (elements T)) by apply NoDup_elements.
  clearbody E FV RFV S O T.
  split.
  - intros o. rewrite !elem_of_app, HE, HV, HS, HO, HT. split.
    + intros [[Hv Hc]|[[Hv [Hc|Hc]]|[[Hv Hc]|[[Hv Hc]|[Hv Hc]]]]];
        (split; [exact Hv|eexists; exact Hc]).
    + intros [Hv [C Hc]]. destruct C; tauto.
  - rewrite !NoDup_app. split.
    + intros (_ & D1 & _ & D2 & _ & D3 & _ & D4 & _) o Hv Ht C HC.
      destruct (recorded_as C o) eqn:Hc; [exfalso|reflexivity].
      assert (HinT : o ∈ elements T) by (apply HT; tauto).
      destruct C; try congruence.
      * apply (D2 o); [apply HV; tauto|]. rewrite !elem_of_app. tauto.
      * apply (D1 o); [apply HE; tauto|]. rewrite !elem_of_app. tauto.
      * apply (D3 o); [apply HS; tauto|]. rewrite !elem_of_app. tauto.
      * apply (D4 o); [apply HO; tauto|exact HinT].
      * apply (D2 o); [apply HV; tauto|]. rewrite !elem_of_app. tauto.
    + intros Hyp.
      repeat split; try assumption; intros o Hin Hrest;
        rewrite ?HE, ?HV, ?HS, ?HO, ?HT in Hin;
        rewrite ?elem_of_app in Hrest;
        rewrite ?HE, ?HV, ?HS, ?HO, ?HT in Hrest;
        repeat match goal with
               | H : _ /\ _ |- _ => destruct H
               | H : _ \/ _ |- _ => destruct H
               end;
        classes_clash Hyp.
Qed.

Lemma apply_total_applies_once_witness :
  exists w' all_to_apply all_to_delete,
    apply_total demo_runtime "__dummy" "demo" scenario_root false empty_world
    = (Return tt, w')
    /\ filter (fun ev => is_apply ev = true) (trace w')
       = [EvApply all_to_apply all_to_delete false]
    /\ (forall o,
           o ∈ all_to_apply <->
           o ∈ discovered_values demo_runtime scenario_root
           /\ exists C, recorded_as C o = true).
Proof.
  destruct (apply_total_applies_once demo_runtime "__dummy" "demo" scenario_root
              false empty_world eq_refl demo_loads eq_refl)
    as (w' & all_to_apply & all_to_delete & Hrun & Htrace & Hall & _).
  exists w', all_to_apply, all_to_delete.
  split; [exact Hrun|]. split; [exact Htrace|exact Hall].
Defined.

(** ** Creating a repository *)

Lemma prefix_app (s t : string) : String.prefix s (s ++ t) = true.
Proof.
  induction s as [|c s IH]; [apply prefix_empty|].
  now rewrite string_app_cons, prefix_cons, Ascii.eqb_refl, IH.
Qed.

Lemma str_in_cons old c s :
  str_in old (String c s) = String.prefix old (String c s) || str_in old s.
Proof. reflexivity. Qed.

Lemma replace_absent old new s :
  str_in old s = false -> PyStr.replace old new s = s.
Proof.
  unfold PyStr.replace. induction s as [|c s IH]; [reflexivity|].
  rewrite str_in_cons. intros [Hp Hs]%orb_false_iff.
  cbn [PyStr.replace_from]. now rewrite Hp, (IH Hs).
Qed.

Lemma str_in_empty s : str_in "" s = true.
Proof. destruct s; reflexivity. Qed.

Lemma str_replace_absent old new s :
  str_in old s = false -> str_replace old new s = s.
Proof.
  intros H. unfold str_replace. destruct old as [|a old].
  - now rewrite str_in_empty in H.
  - now apply replace_absent.
Qed.

Lemma replace_from_skip x old new post :
  PyStr.replace_from (String.length x) old new (x ++ post)
  = PyStr.replace_from 0 old new post.
Proof.
  induction x as [|c x IH]; [reflexivity|].
  rewrite string_app_cons. cbn [String.length PyStr.replace_from]. exact IH.
Qed.

Lemma str_replace_head old new post :
  old <> "" -> str_in old post = false ->
  str_replace old new (old ++ post) = (new ++ post)%string.
Proof.
  intros Hne Hpost. unfold str_replace. destruct old as [|a old]; [congruence|].
  cbn [PyStr.is_empty]. unfold PyStr.replace.
  pose proof (prefix_app (String a old) post) as Hp.
  rewrite string_app_cons in Hp |- *. cbn [PyStr.replace_from]. rewrite Hp.
  cbn [String.length]. rewrite Nat.sub_succ, Nat.sub_0_r, replace_from_skip.
  f_equal. now apply replace_absent.
Qed.

Lemma replace_str_in_file_head
      {FS : Type} (os : OS FS) (file_path : Path)
      (match_str sub_str : string) (fs : FS) (rest : string) :
  match_str <> "" ->
  os_read os file_path fs = Some (match_str ++ rest)%string ->
  str_in match_str rest = false ->
  replace_str_in_file os file_path match_str sub_str fs
  = Some (os_write os file_path (sub_str ++ rest)%string fs).
Proof.
  unfold replace_str_in_file. intros Hne -> Habsent. cbn.
  now rewrite str_replace_head.
Qed.

(** X19. [replace_str_in_file] on a file that cannot be opened raises
    and writes nothing.  On a file in which [match_str] does not occur
    it writes the contents back as they were.  On a file that begins
    with [match_str] and holds it nowhere else, it writes [sub_str]
    followed by the rest of the file unchanged. *)
Theorem replace_str_in_file_contents
        {FS : Type} (os : OS FS) (file_path : Path)
        (match_str sub_str : string) (fs : FS) :
  (os_read os file_path fs = None ->
   replace_str_in_file os file_path match_str sub_str fs = None)
  /\ (forall contents,
         os_read os file_path fs = Some contents ->
         str_in match_str contents = false ->
         replace_str_in_file os file_path match_str sub_str fs
         = Some (os_write os file_path contents fs))
  /\ (forall rest,
         match_str <> "" ->
         os_read os file_path fs = Some (match_str ++ rest)%string ->
         str_in match_str rest = false ->
         replace_str_in_file os file_path match_str sub_str fs
         = Some (os_write os file_path (sub_str ++ rest)%string fs)).
Proof.
  split; [|split].
  - unfold replace_str_in_file. now intros ->.
  - unfold replace_str_in_file. intros contents -> Habsent. cbn.
    now rewrite str_replace_absent.
  - intros rest. apply replace_str_in_file_head.
Qed.

Lemma replace_str_in_file_contents_witness :
  replace_str_in_file TableOS.os
    ["/"; "site"; "feast"; "templates"; "local"; "feature_store.yaml"]
    "project: my_project" "project: driver_stats" init_state
  = Some (TableOS.write
            ["/"; "site"; "feast"; "templates"; "local"; "feature_store.yaml"]
            "project: driver_stats
registry: data/registry.db
" init_state).
Proof.
  apply (proj2 (proj2 (replace_str_in_file_contents TableOS.os
           ["/"; "site"; "feast"; "templates"; "local"; "feature_store.yaml"]
           "project: my_project" "project: driver_stats" init_state))
           "
registry: data/registry.db
").
  - discriminate.
  - reflexivity.
  - reflexivity.
Defined.

(** X20. How [init_repo] refuses.  A name that does not pass
    [is_valid_name] raises [BadParameter], and nothing has been done.
    For a valid name the directory of the repository, the child of that
    name of the working directory, is made first; when it holds a
    [feature_store.yaml] already, [init_repo] prints that the directory
    of that name contains a repository, and exits with status 1; when
    not, and there is no template of the given name, it raises
    [IOError].  In both cases nothing has been copied, and the new
    directory stays. *)
Theorem init_repo_refuses
        {FS : Type} (os : OS FS) (package_dir : Path)
        (repo_name template : string) (fs : FS) :
  let repo_path :=
    if PyStr.is_empty repo_name then os_cwd os fs
    else path_join (os_cwd os fs) repo_name in
  let made := os_mkdir os repo_path fs in
  (is_valid_name repo_name = false ->
   init_repo os package_dir repo_name template fs
   = {| init_outcome :=
          InitRaise (BadParameter
            "Name should be alphanumeric values and underscores but not start with an underscore"
            "PROJECT_DIRECTORY");
        init_files := fs; init_stdout := [] |})
  /\ (is_valid_name repo_name = true ->
      os_cwd os made = os_cwd os fs ->
      os_exists os (path_join repo_path "feature_store.yaml") made = true ->
      init_repo os package_dir repo_name template fs
      = {| init_outcome := InitExit 1;
           init_files := made;
           init_stdout :=
             [conflict_message
                (if PyStr.is_empty repo_name then "." else repo_name); ""] |})
  /\ (is_valid_name repo_name = true ->
      os_exists os (path_join repo_path "feature_store.yaml") made = false ->
      os_exists os (path_of_join (path_join package_dir "templates") template)
                made = false ->
      init_repo os package_dir repo_name template fs
      = {| init_outcome :=
             InitRaise (IOError ("Could not find template " ++ template));
           init_files := made;
           init_stdout := [] |}).
Proof.
  intros repo_path made. split; [|split].
  - intros Hbad. unfold init_repo. now rewrite Hbad.
  - intros Hvalid Hcwd Hexists.
    pose proof (valid_name_join _ (os_cwd os fs) Hvalid) as Hpath.
    pose proof (valid_name_relpath _ (os_cwd os fs) Hvalid) as Hrel.
    fold repo_path in Hpath. rewrite Hpath in Hrel.
    unfold init_repo. rewrite Hvalid. cbn [negb]. cbv zeta.
    rewrite Hpath. fold made. now rewrite Hexists, Hcwd, Hrel.
  - intros Hvalid Hconfig Htemplate.
    pose proof (valid_name_join _ (os_cwd os fs) Hvalid) as Hpath.
    fold repo_path in Hpath.
    unfold init_repo. rewrite Hvalid. cbn [negb]. cbv zeta.
    rewrite Hpath. fold made. now rewrite Hconfig, Htemplate.
Qed.

Lemma init_repo_refuses_witness :
  init_outcome (init_repo TableOS.os init_package "my-repo" "local" init_state)
  = InitRaise (BadParameter
      "Name should be alphanumeric values and underscores but not start with an underscore"
      "PROJECT_DIRECTORY")
  /\ init_repo TableOS.os init_package "old_repo" "local" init_state
     = {| init_outcome := InitExit 1;
          init_files := init_state;
          init_stdout := [conflict_message "old_repo"; ""] |}
  /\ init_outcome (init_repo TableOS.os init_package "new_repo" "gcp" init_state)
     = InitRaise (IOError "Could not find template gcp").
Proof.
  split; [|split].
  - now rewrite (proj1 (init_repo_refuses TableOS.os init_package "my-repo" "local"
                          init_state) eq_refl).
  - exact (proj1 (proj2 (init_repo_refuses TableOS.os init_package "old_repo"
                           "local" init_state)) eq_refl eq_refl eq_refl).
  - now rewrite (proj2 (proj2 (init_repo_refuses TableOS.os init_package
                                 "new_repo" "gcp" init_state))
                   eq_refl eq_refl eq_refl).
Defined.

(** X21. A run of [init_repo] that returns.  Let the name be valid, the
    directory of the repository hold no [feature_store.yaml], and the
    template exist; let the [feature_store.yaml] of the template, once
    copied and after the bootstrap, begin with [project: my_project]
    and hold it nowhere else.  Then [init_repo] returns; it has made the
    directory, copied the template into it, run and removed
    [bootstrap.py] if the template has one, written the name of the
    repository as the project of [feature_store.yaml], the rest of that
    file unchanged, and removed [__pycache__]; it has echoed an empty
    line, the path of the new repository, and an empty line. *)
Theorem init_repo_creates
        {FS : Type} (os : OS FS) (package_dir : Path)
        (repo_name template : string) (fs : FS) (rest : string) :
  let repo_path :=
    if PyStr.is_empty repo_name then os_cwd os fs
    else path_join (os_cwd os fs) repo_name in
  let made := os_mkdir os repo_path fs in
  let template_path := path_of_join (path_join package_dir "templates") template in
  let copied := os_copy_tree os template_path repo_path made in
  let bootstrap_path := path_join repo_path "bootstrap.py" in
  let seeded :=
    if os_exists os bootstrap_path copied
    then os_remove os bootstrap_path (os_bootstrap os bootstrap_path copied)
    else copied in
  let yaml := path_join repo_path "feature_store.yaml" in
  is_valid_name repo_name = true ->
  os_exists os yaml made = false ->
  os_exists os template_path made = true ->
  os_read os yaml seeded = Some ("project: my_project" ++ rest)%string ->
  str_in "project: my_project" rest = false ->
  init_repo os package_dir repo_name template fs
  = {| init_outcome := InitReturn;
       init_files :=
         os_rmtree os (path_join repo_path "__pycache__")
           (os_write os yaml ("project: " ++ repo_name ++ rest)%string seeded);
       init_stdout := [""; created_message repo_path; ""] |}.
Proof.
  intros repo_path made template_path copied bootstrap_path seeded yaml
         Hvalid Hconfig Htemplate Hread Hrest.
  pose proof (valid_name_join _ (os_cwd os fs) Hvalid) as Hpath.
  fold repo_path in Hpath.
  unfold init_repo. rewrite Hvalid. cbn [negb]. cbv zeta.
  rewrite Hpath. fold made. fold yaml. rewrite Hconfig.
  fold template_path. rewrite Htemplate. cbn [negb].
  fold copied. fold bootstrap_path. fold seeded.
  rewrite (replace_str_in_file_head os yaml
             "project: my_project" ("project: " ++ repo_name) seeded
             rest ltac:(discriminate) Hread Hrest).
  now rewrite string_app_assoc.
Qed.

Lemma init_repo_creates_witness :
  let r := init_repo TableOS.os init_package "new_repo" "local" init_state in
  init_outcome r = InitReturn
  /\ TableOS.read ["/"; "work"; "new_repo"; "feature_store.yaml"] (init_files r)
     = Some "project: new_repo
registry: data/registry.db
"
  /\ TableOS.known ["/"; "work"; "new_repo"; "example.py"] (init_files r) = true
  /\ init_stdout r
     = [""; created_message ["/"; "work"; "new_repo"]; ""]
  /\ path_string ["/"; "work"; "new_repo"] = "/work/new_repo".
Proof.
  intros r. unfold r.
  rewrite (init_repo_creates TableOS.os init_package "new_repo" "local" init_state
             "
registry: data/registry.db
" eq_refl eq_refl eq_refl eq_refl eq_refl).
  repeat split; reflexivity.
Defined.

(** ** What discovery leaves alone *)

Lemma keeps_ret {A} l (a : A) : keeps l (ret a).
Proof. intros w out w' H. now injection H as <- <-. Qed.

Lemma keeps_raise {A} l e : keeps l (@raise A e).
Proof. intros w out w' H. now injection H as <- <-. Qed.

Lemma keeps_emit l ev : keeps l (emit ev).
Proof. intros w out w' H. now injection H as <- <-. Qed.

Lemma keeps_bind {A B} l (m : M A) (k : A -> M B) :
  keeps l m -> (forall a, keeps l (k a)) -> keeps l (bind m k).
Proof.
  intros Hm Hk w out w' H. unfold bind in H.
  destruct (m w) as [[a|c|e] w1] eqn:E; pose proof (Hm _ _ _ E) as H1.
  - rewrite <- H1. exact (Hk a _ _ _ H).
  - now injection H as <- <-.
  - now injection H as <- <-.
Qed.

Lemma keeps_for_each {A} l (xs : list A) (body : A -> M unit) :
  (forall x, keeps l (body x)) -> keeps l (for_each xs body).
Proof.
  intros Hb. induction xs as [|x xs IH]; cbn [for_each].
  - apply keeps_ret.
  - apply keeps_bind; auto.
Qed.

Lemma keeps_when l c m : keeps l m -> keeps l (when c m).
Proof. intros Hm. destruct c; [exact Hm|apply keeps_ret]. Qed.

Lemma keeps_set_add l l' x : l <> l' -> keeps l' (set_add l x).
Proof.
  intros Hne w out w' H. injection H as <- <-. cbn [heap].
  now apply members_insert_ne.
Qed.

Lemma keeps_new_set l : keeps l new_set.
Proof.
  intros w out w' H. injection H as <- <-. cbn [heap].
  destruct (decide (fresh (dom (heap w)) = l)) as [<-|Hne].
  - now rewrite members_insert_eq, members_fresh.
  - now apply members_insert_ne.
Qed.

Lemma keeps_record_object res obj l :
  l ∉ repo_locs res -> keeps l (record_object res obj).
Proof.
  unfold repo_locs, all_classes. cbn [fmap list_fmap field_of].
  rewrite !not_elem_of_cons. intros (Ht & Hv & He & Hs & Ho & Hr & _).
  unfold record_object. apply keeps_bind.
  - apply keeps_when, keeps_set_add. congruence.
  - intros _.
    repeat (case (isinstance obj _); [apply keeps_set_add; congruence|]).
    apply keeps_ret.
Qed.

Lemma keeps_parse_file {RepoConfig} (rt : Runtime RepoConfig) res root file l :
  l ∉ repo_locs res -> keeps l (parse_file rt res root file).
Proof.
  intros Hl. unfold parse_file. apply keeps_bind.
  - destruct (py_path_to_module file root); [apply keeps_ret|apply keeps_raise].
  - intros m. apply keeps_bind.
    + unfold load_module. apply keeps_bind; [apply keeps_emit|].
      intros _. destruct (import_module rt m); [apply keeps_ret|apply keeps_raise].
    + intros values. apply keeps_for_each. intros obj.
      now apply keeps_record_object.
Qed.

Lemma only_imports_quiet {A} (m : M A) :
  (forall w out w', m w = (out, w') -> trace w' = trace w) -> only_imports m.
Proof.
  intros Hm w out w' H. exists []. split; [|apply List.Forall_nil].
  rewrite (Hm _ _ _ H). now rewrite app_nil_r.
Qed.

Lemma only_imports_ret {A} (a : A) : only_imports (ret a).
Proof. apply only_imports_quiet. intros w out w' H. now injection H as <- <-. Qed.

Lemma only_imports_raise {A} e : only_imports (@raise A e).
Proof. apply only_imports_quiet. intros w out w' H. now injection H as <- <-. Qed.

Lemma only_imports_set_add l x : only_imports (set_add l x).
Proof. apply only_imports_quiet. intros w out w' H. now injection H as <- <-. Qed.

Lemma only_imports_import m : only_imports (emit (EvImport m)).
Proof.
  intros w out w' H. injection H as <- <-. exists [EvImport m].
  split; [reflexivity|]. now apply List.Forall_cons.
Qed.

Lemma only_imports_bind {A B} (m : M A) (k : A -> M B) :
  only_imports m -> (forall a, only_imports (k a)) -> only_imports (bind m k).
Proof.
  intros Hm Hk w out w' H. unfold bind in H.
  destruct (m w) as [[a|c|e] w1] eqn:E;
    destruct (Hm _ _ _ E) as (evs1 & Htr1 & Hall1).
  - destruct (Hk a _ _ _ H) as (evs2 & Htr2 & Hall2).
    exists (evs1 ++ evs2). split; [now rewrite Htr2, Htr1, app_assoc|].
    now apply Forall_app.
  - injection H as <- <-. eauto.
  - injection H as <- <-. eauto.
Qed.

Lemma only_imports_for_each {A} (xs : list A) (body : A -> M unit) :
  (forall x, only_imports (body x)) -> only_imports (for_each xs body).
Proof.
  intros Hb. induction xs as [|x xs IH]; cbn [for_each].
  - apply only_imports_ret.
  - apply only_imports_bind; auto.
Qed.

Lemma only_imports_record_object res obj : only_imports (record_object res obj).
Proof.
  unfold record_object. apply only_imports_bind.
  - unfold when. destruct (isinstance obj FeatureTable);
      [apply only_imports_set_add|apply only_imports_ret].
  - intros _.
    repeat (case (isinstance obj _); [apply only_imports_set_add|]).
    apply only_imports_ret.
Qed.

Lemma only_imports_parse_file {RepoConfig} (rt : Runtime RepoConfig)
      res root file :
  only_imports (parse_file rt res root file).
Proof.
  unfold parse_file. apply only_imports_bind.
  - destruct (py_path_to_module file root);
      [apply only_imports_ret|apply only_imports_raise].
  - intros m. apply only_imports_bind.
    + unfold load_module. apply only_imports_bind; [apply only_imports_import|].
      intros _. destruct (import_module rt m);
        [apply only_imports_ret|apply only_imports_raise].
    + intros values. apply only_imports_for_each. intros obj.
      apply only_imports_record_object.
Qed.

(** X22. What discovery leaves alone.  Whether [parse_repo] returns or
    raises: every set that was in the store has the members it had; the
    only events of the run are imports; and the six sets of a returned
    repository are new sets, none of which was in the store.  So a
    repository parsed anew shares no set with a repository parsed
    before. *)
Theorem parse_repo_frame
        {RepoConfig : Type} (rt : Runtime RepoConfig) (repo_root : Path) (w : World) :
  exists out w' evs,
    parse_repo rt repo_root w = (out, w')
    /\ (forall l, l ∈ dom (heap w) -> members (heap w') l = members (heap w) l)
    /\ trace w' = trace w ++ evs
    /\ Forall (fun ev => is_import ev = true) evs
    /\ (forall repo, out = Return repo ->
                     forall C, field_of C repo ∉ dom (heap w)).
Proof.
  unfold parse_repo.
  do 6 (erewrite bind_Return by apply new_set_run; cbn [heap trace]).
  set (l1 := fresh (dom (heap w))). set (h1 := <[l1 := ∅]> (heap w)).
  set (l2 := fresh (dom h1)). set (h2 := <[l2 := ∅]> h1).
  set (l3 := fresh (dom h2)). set (h3 := <[l3 := ∅]> h2).
  set (l4 := fresh (dom h3)). set (h4 := <[l4 := ∅]> h3).
  set (l5 := fresh (dom h4)). set (h5 := <[l5 := ∅]> h4).
  set (l6 := fresh (dom h5)). set (h6 := <[l6 := ∅]> h5).
  assert (S1 : dom (heap w) ⊆ dom h1) by (unfold h1; rewrite dom_insert_L; set_solver).
  assert (S2 : dom (heap w) ⊆ dom h2) by (unfold h2; rewrite dom_insert_L; set_solver).
  assert (S3 : dom (heap w) ⊆ dom h3) by (unfold h3; rewrite dom_insert_L; set_solver).
  assert (S4 : dom (heap w) ⊆ dom h4) by (unfold h4; rewrite dom_insert_L; set_solver).
  assert (S5 : dom (heap w) ⊆ dom h5) by (unfold h5; rewrite dom_insert_L; set_solver).
  assert (F1 : forall l, l ∈ dom (heap w) -> l1 <> l) by (intros l Hl; now apply fresh_ne).
  assert (F2 : forall l, l ∈ dom (heap w) -> l2 <> l) by (intros l Hl; apply fresh_ne; auto).
  assert (F3 : forall l, l ∈ dom (heap w) -> l3 <> l) by (intros l Hl; apply fresh_ne; auto).
  assert (F4 : forall l, l ∈ dom (heap w) -> l4 <> l) by (intros l Hl; apply fresh_ne; auto).
  assert (F5 : forall l, l ∈ dom (heap w) -> l5 <> l) by (intros l Hl; apply fresh_ne; auto).
  assert (F6 : forall l, l ∈ dom (heap w) -> l6 <> l) by (intros l Hl; apply fresh_ne; auto).
  assert (H6 : forall l, l ∈ dom (heap w) -> members h6 l = members (heap w) l).
  { intros l Hl. unfold h6, h5, h4, h3, h2, h1.
    rewrite !members_insert_ne; auto. }
  clearbody l1 l2 l3 l4 l5 l6 h6. clear S1 S2 S3 S4 S5. clear h5 h4 h3 h2 h1.
  set (res := {| feature_tables := l1; entities := l2; feature_views := l3;
                 feature_services := l4; on_demand_feature_views := l5;
                 request_feature_views := l6 |}).
  assert (Hfresh : forall C, field_of C res ∉ dom (heap w)).
  { intros C Hin. destruct C; cbn [field_of res feature_tables entities
      feature_views feature_services on_demand_feature_views
      request_feature_views] in Hin;
      [exact (F1 _ Hin eq_refl)|exact (F3 _ Hin eq_refl)|exact (F2 _ Hin eq_refl)
      |exact (F4 _ Hin eq_refl)|exact (F5 _ Hin eq_refl)|exact (F6 _ Hin eq_refl)]. }
  assert (Hout : forall l, l ∈ dom (heap w) -> l ∉ repo_locs res).
  { intros l Hl Hin. unfold repo_locs in Hin.
    apply list_elem_of_fmap in Hin as (C & -> & _). now apply (Hfresh C). }
  match goal with
  | |- context [bind (for_each ?xs ?body) _ ?w0] =>
      destruct (for_each xs body w0) as [[[]|c|e] w7] eqn:Hfe;
      pose proof (fun l Hl =>
                    keeps_for_each l xs body
                      (fun file => keeps_parse_file rt res repo_root file l Hl)
                      _ _ _ Hfe) as Hkeep;
      destruct (only_imports_for_each xs body
                  (only_imports_parse_file rt res repo_root) _ _ _ Hfe)
        as (evs & Htr & Hall)
  end; cbn [heap trace] in Hkeep, Htr.
  - rewrite (bind_Return _ _ _ _ _ Hfe). eexists _, _, evs.
    split; [reflexivity|]. split; [|split; [exact Htr|split; [exact Hall|]]].
    + intros l Hl. rewrite (Hkeep l (Hout l Hl)). now apply H6.
    + intros repo [= <-]. exact Hfresh.
  - rewrite (bind_SysExit _ _ _ _ _ Hfe). eexists _, _, evs.
    split; [reflexivity|]. split; [|split; [exact Htr|split; [exact Hall|]]].
    + intros l Hl. rewrite (Hkeep l (Hout l Hl)). now apply H6.
    + intros repo [=].
  - rewrite (bind_Raise _ _ _ _ _ Hfe). eexists _, _, evs.
    split; [reflexivity|]. split; [|split; [exact Htr|split; [exact Hall|]]].
    + intros l Hl. rewrite (Hkeep l (Hout l Hl)). now apply H6.
    + intros repo [=].
Qed.

(** ** How a run of [apply_total] ends *)

Lemma loads_or_fails {RepoConfig} (rt : Runtime RepoConfig) root (files : list Path) :
  Forall (fun f => is_Some (file_values rt root f)) files
  \/ exists good bad rest,
       files = good ++ bad :: rest
       /\ Forall (fun f => is_Some (file_values rt root f)) good
       /\ file_values rt root bad = None.
Proof.
  induction files as [|f files IH]; [left; apply List.Forall_nil|].
  destruct (file_values rt root f) as [values|] eqn:E.
  - destruct IH as [Hall|(good & bad & rest & -> & Hgood & Hbad)].
    + left. apply List.Forall_cons; [now rewrite E|exact Hall].
    + right. exists (f :: good), bad, rest. split; [reflexivity|].
      split; [|exact Hbad]. apply List.Forall_cons; [now rewrite E|exact Hgood].
  - right. exists [], f, files. split; [reflexivity|].
    split; [apply List.Forall_nil|exact E].
Qed.

(** The run of [apply_total] when the name of the project is not
    valid. *)
Lemma apply_total_invalid_run
        {RepoConfig : Type} (rt : Runtime RepoConfig)
        (DUMMY_ENTITY_NAME : string) (repo_config : RepoConfig)
        (repo_path : Path) (skip_source_validation : bool) (w : World) :
  is_valid_name (project (new_FeatureStore rt repo_config)) = false ->
  apply_total rt DUMMY_ENTITY_NAME repo_config repo_path skip_source_validation w
  = (SysExit 1,
     after w [EvChdir repo_path; EvFeatureStore;
              EvPrint (invalid_project_message
                         (project (new_FeatureStore rt repo_config)))]).
Proof.
  intros Hbad. unfold apply_total.
  rewrite (bind_Return _ _ _ _ _ (emit_run _ _)).
  rewrite (bind_Return _ _ _ _ _ (emit_run _ _)).
  cbv zeta. rewrite Hbad. cbn [negb when].
  erewrite bind_SysExit; [reflexivity|].
  rewrite (bind_Return _ _ _ _ _ (emit_run _ _)).
  unfold sys_exit. now rewrite !after_after.
Qed.

Lemma quiet_no_apply evs :
  Forall (fun ev => is_list ev = false /\ is_apply ev = false
                    /\ is_echo ev = false /\ ev <> EvDontWriteBytecode false) evs ->
  filter (fun ev => is_apply ev = true) evs = [].
Proof.
  intros H. apply filter_apply_quiet. eapply Forall_impl; [exact H|].
  now intros ev (_ & Ha & _).
Qed.

(** X23. How a run of [apply_total] ends, whatever its arguments and
    collaborators.  It returns only after exactly one call to
    [store.apply], with [partial] false; it raises the error of that
    call only after that one call; every other run has called
    [store.apply] not at all: the run that exits, which does so with
    status 1 and only when the name of the project is not valid, and
    the runs that raise an error of discovery or of validation.  No run
    calls [store.apply] twice. *)
Theorem apply_total_outcomes
        {RepoConfig : Type} (rt : Runtime RepoConfig)
        (DUMMY_ENTITY_NAME : string) (repo_config : RepoConfig)
        (repo_path : Path) (skip_source_validation : bool) (w : World) :
  exists out w' applies,
    apply_total rt DUMMY_ENTITY_NAME repo_config repo_path skip_source_validation w
    = (out, w')
    /\ filter (fun ev => is_apply ev = true) (trace w')
       = filter (fun ev => is_apply ev = true) (trace w) ++ applies
    /\ match out with
       | Return _ | Raise ApplyFailure =>
           exists objects objects_to_delete,
             applies = [EvApply objects objects_to_delete false]
       | SysExit code =>
           code = 1 /\ applies = []
           /\ is_valid_name (project (new_FeatureStore rt repo_config)) = false
       | Raise _ => applies = []
       end.
Proof.
  set (store := new_FeatureStore rt repo_config).
  destruct (is_valid_name (project store)) eqn:Hvalid.
  2:{ eexists _, _, []. split; [now apply apply_total_invalid_run|].
      split; [|now repeat split].
      unfold after. cbn [trace]. rewrite filter_app.
      now rewrite (filter_apply_quiet [_; _; _]) by (repeat constructor). }
  destruct (loads_or_fails rt repo_path (get_repo_files (rt_fs rt) repo_path))
    as [Hloads|(good & bad & rest & Hfiles & Hgood & Hbad)].
  2:{ destruct (apply_total_discovery_run rt DUMMY_ENTITY_NAME repo_config repo_path
                  skip_source_validation w good bad rest Hvalid Hfiles Hgood Hbad)
        as (w' & Hrun & Htrace).
      eexists _, w', []. split; [exact Hrun|]. split.
      - rewrite Htrace, !filter_app.
        rewrite (quiet_no_apply _ (quiet_prelude repo_path)).
        now rewrite (quiet_no_apply _ (quiet_imports repo_path _)).
      - now destruct (py_path_to_module bad repo_path). }
  destruct (skip_source_validation
            || forallb (source_validates store)
                       (elements (discovered rt repo_path FeatureView))) eqn:Hval.
  - destruct (parse_repo_declared rt repo_path
                (after w (prelude_events repo_path)) Hloads)
      as (repo & w1 & Hparse & _ & _ & Hd).
    rewrite <- (Hd FeatureView) in Hval.
    pose proof (apply_total_after_discovery rt DUMMY_ENTITY_NAME repo_config
                  repo_path skip_source_validation w repo w1
                  Hvalid Hparse Hval) as Hrun.
    cbv zeta in Hrun. destruct Hrun as (w' & Hrun & Htrace).
    eexists _, w', _. split; [exact Hrun|]. split; [exact Htrace|].
    match goal with
    | |- context [if ?b then _ else _] => destruct b
    end; eauto.
  - apply orb_false_iff in Hval as [-> Hfail].
    destruct (apply_total_validation_run rt DUMMY_ENTITY_NAME repo_config
                repo_path w Hvalid Hloads Hfail) as (w' & Hrun & Htrace).
    eexists _, w', []. split; [exact Hrun|]. split; [|reflexivity].
    rewrite Htrace, !filter_app.
    rewrite (quiet_no_apply _ (quiet_prelude repo_path)).
    rewrite (quiet_no_apply _ (quiet_imports repo_path _)).
    now rewrite (quiet_no_apply _ (quiet_validations _)).
Qed.
